(** * lights-out: the re-theming engine of [src/dynamic.ts]

    A shallow embedding of the [LightsOut] class: the element-level
    operations [#darken] / [#undarken], the indexing functions [#traverse] /
    [#walk], the observer bookkeeping of [#clear], and the lifecycle
    operations [#update], [enable], [disable], [toggle] and the [pageRoot]
    setter.

    The browser (computed styles, selector matching, the element tree) and
    the [colord] colour library are collaborators of the class, not part of
    it: they are gathered in the record [Host] and every statement about the
    engine is proved for an arbitrary host.  A small executable host,
    [Demo.host], is used to run the engine on concrete documents. *)

From Stdlib Require Import QArith Qround Ascii.
From stdpp Require Import gmap strings list.

Open Scope string_scope.
Set Warnings "-register-all".

(** ** JavaScript strings *)

Module JS.

(** [String.prototype.toLowerCase] on tag names, which are ASCII: the
    letters A to Z are mapped, everything else is kept. *)
Definition lower_ascii (c : ascii) : ascii :=
  let n := nat_of_ascii c in
  if (65 <=? n)%nat && (n <=? 90)%nat then ascii_of_nat (n + 32) else c.

Fixpoint toLowerCase (s : string) : string :=
  match s with
  | EmptyString => EmptyString
  | String c s' => String (lower_ascii c) (toLowerCase s')
  end.

(** [String.prototype.startsWith]. *)
Definition startsWith (s pre : string) : bool := String.prefix pre s.

(** [/re/.test(s)] for a regular expression that is a literal word. *)
Fixpoint test (word s : string) : bool :=
  String.prefix word s
  || match s with
     | EmptyString => false
     | String _ s' => test word s'
     end.

(** [s.replace(/word/g, '')] for a literal, non-empty [word]: [skip] counts
    the characters of the current occurrence still to be dropped. *)
Fixpoint remove_from (word : string) (skip : nat) (s : string) : string :=
  match s with
  | EmptyString => EmptyString
  | String c s' =>
      match skip with
      | S k => remove_from word k s'
      | O =>
          if String.prefix word s
          then remove_from word (String.length word - 1) s'
          else String c (remove_from word 0 s')
      end
  end.

Definition removeAll (word s : string) : string := remove_from word 0 s.

(** Truthiness of a string ([if (s)]) and of a possibly undefined string. *)
Definition truthy (s : string) : bool := negb (bool_decide (s = "")).

Definition truthy_opt (o : option string) : bool :=
  match o with
  | Some s => truthy s
  | None => false
  end.

End JS.

(** ** Inline state of an element

    [el.style] restricted to its declared values and [el.dataset].  An
    element is identified by a number; an element the store has no entry for
    has no inline declaration and no data attribute. *)

Record Inline : Type := mkInline {
  style : gmap string string;
  dataset : gmap string string
}.

Definition no_inline : Inline := mkInline ∅ ∅.

Module CSSStyleDeclaration.

(** [el.style.color], [el.style.backgroundColor], ...: the declared value,
    or the empty string. *)
Definition get (s : gmap string string) (prop : string) : string :=
  default "" (s !! prop).

(** [setProperty(prop, value)]: an empty value removes the declaration. *)
Definition setProperty (prop value : string) (s : gmap string string)
  : gmap string string :=
  if bool_decide (value = "") then delete prop s else <[prop := value]> s.

Definition removeProperty (prop : string) (s : gmap string string)
  : gmap string string :=
  delete prop s.

End CSSStyleDeclaration.

(** ** Style sheets and the element tree *)

Inductive CSSRule : Type :=
| CSSStyleRule (selectorText cssText : string)
| CSSMediaRule (cssRules : list CSSRule)
| CSSOtherRule.

Record CSSStyleSheet : Type := mkSheet {
  sheet_id : nat;
  href : option string;
  sheet_rules : list CSSRule
}.

(** An element with its child elements and, when it hosts one, its open
    shadow root.  Text and comment nodes never reach the engine
    ([querySelectorAll('*')] returns elements only). *)
Inductive Node : Type :=
| Element (id : nat) (children : list Node) (shadowRoot : option ShadowRoot)
with ShadowRoot : Type :=
| Shadow (sid : nat) (styleSheets : list CSSStyleSheet) (content : list Node).

Definition node_id (n : Node) : nat :=
  match n with Element i _ _ => i end.

Definition node_children (n : Node) : list Node :=
  match n with Element _ cs _ => cs end.

Definition node_shadowRoot (n : Node) : option ShadowRoot :=
  match n with Element _ _ sr => sr end.

Definition shadow_id (sr : ShadowRoot) : nat :=
  match sr with Shadow s _ _ => s end.

Definition shadow_styleSheets (sr : ShadowRoot) : list CSSStyleSheet :=
  match sr with Shadow _ ss _ => ss end.

Definition shadow_content (sr : ShadowRoot) : list Node :=
  match sr with Shadow _ _ cs => cs end.

(** ** The host: browser and colour library *)

Inductive Level : Type := AA | AAA.

Record ComputedStyle : Type := mkComputed {
  cs_color : string;
  cs_backgroundColor : string;
  cs_borderColor : string;
  cs_backgroundImage : string
}.

Record Host : Type := mkHost {
  (* colord *)
  Color : Type;
  colord : string -> Color;
  c_darken : Color -> Q -> Color;
  c_lighten : Color -> Q -> Color;
  c_alpha : Color -> Q;
  c_withAlpha : Color -> Q -> Color;
  c_isDark : Color -> bool;
  c_isReadable : Color -> string -> Level -> bool;
  c_toHex : Color -> string;
  (** [toHex] always produces a [#]-prefixed string. *)
  c_toHex_truthy : forall c, JS.truthy (c_toHex c) = true;
  (* DOM *)
  tagName : nat -> string;
  isHTMLElement : nat -> bool;
  isConnected : nat -> bool;
  getComputedStyle : gmap nat Inline -> nat -> ComputedStyle;
  matches : gmap nat Inline -> nat -> string -> bool;
  document_styleSheets : list CSSStyleSheet;
  location_origin : string;
  (** [s.replaceAll(#colorValueRgx, f)] *)
  replaceAll_colorValue : string -> (string -> string) -> string
}.

(** ** Engine and document state *)

Inductive ObservedNode : Type :=
| ObservedElement (el : nat)
| ObservedShadowRoot (sr : nat).

(** A [MutationObserver], as the list of nodes it currently observes; a
    disconnected observer observes nothing. *)
Record MutationObserver : Type := mkObserver {
  observing : list ObservedNode
}.

Inductive SheetRef : Type :=
| EngineSheet            (* the engine's own [#sheet] *)
| ForeignSheet (n : nat).

(** The fields fixed by the constructor. *)
Record Config : Type := mkConfig {
  verbose : bool;
  pageRootAlpha : Q;
  preserveHoverBorderColor : bool;
  htmlFilterSet : list string;
  cssRules : string;
  attributeFilter : option (list string)
}.

Record World : Type := mkWorld {
  config : Config;
  (* private fields of the LightsOut instance *)
  isEnabled : bool;
  sheet : string;
  elements : list nat;
  observers : gmap nat MutationObserver;
  shadowRoots : list nat;
  shadowSheets : list CSSStyleSheet;
  hoverColorRules : list (string * string);
  pageRoot : Node;
  pageObserver : MutationObserver;
  backgroundColor : string;
  (* the document *)
  inline : gmap nat Inline;
  document_adoptedStyleSheets : list SheetRef;
  shadow_adoptedStyleSheets : gmap nat (list SheetRef)
}.

Definition set_isEnabled (b : bool) (w : World) : World :=
  mkWorld (config w) b (sheet w) (elements w) (observers w) (shadowRoots w)
    (shadowSheets w) (hoverColorRules w) (pageRoot w) (pageObserver w)
    (backgroundColor w) (inline w) (document_adoptedStyleSheets w)
    (shadow_adoptedStyleSheets w).

Definition set_sheet (t : string) (w : World) : World :=
  mkWorld (config w) (isEnabled w) t (elements w) (observers w) (shadowRoots w)
    (shadowSheets w) (hoverColorRules w) (pageRoot w) (pageObserver w)
    (backgroundColor w) (inline w) (document_adoptedStyleSheets w)
    (shadow_adoptedStyleSheets w).

Definition set_elements (l : list nat) (w : World) : World :=
  mkWorld (config w) (isEnabled w) (sheet w) l (observers w) (shadowRoots w)
    (shadowSheets w) (hoverColorRules w) (pageRoot w) (pageObserver w)
    (backgroundColor w) (inline w) (document_adoptedStyleSheets w)
    (shadow_adoptedStyleSheets w).

Definition set_observers (o : gmap nat MutationObserver) (w : World) : World :=
  mkWorld (config w) (isEnabled w) (sheet w) (elements w) o (shadowRoots w)
    (shadowSheets w) (hoverColorRules w) (pageRoot w) (pageObserver w)
    (backgroundColor w) (inline w) (document_adoptedStyleSheets w)
    (shadow_adoptedStyleSheets w).

Definition set_shadowRoots (l : list nat) (w : World) : World :=
  mkWorld (config w) (isEnabled w) (sheet w) (elements w) (observers w) l
    (shadowSheets w) (hoverColorRules w) (pageRoot w) (pageObserver w)
    (backgroundColor w) (inline w) (document_adoptedStyleSheets w)
    (shadow_adoptedStyleSheets w).

Definition set_shadowSheets (l : list CSSStyleSheet) (w : World) : World :=
  mkWorld (config w) (isEnabled w) (sheet w) (elements w) (observers w)
    (shadowRoots w) l (hoverColorRules w) (pageRoot w) (pageObserver w)
    (backgroundColor w) (inline w) (document_adoptedStyleSheets w)
    (shadow_adoptedStyleSheets w).

Definition set_hoverColorRules (l : list (string * string)) (w : World) : World :=
  mkWorld (config w) (isEnabled w) (sheet w) (elements w) (observers w)
    (shadowRoots w) (shadowSheets w) l (pageRoot w) (pageObserver w)
    (backgroundColor w) (inline w) (document_adoptedStyleSheets w)
    (shadow_adoptedStyleSheets w).

Definition set_pageRoot (n : Node) (w : World) : World :=
  mkWorld (config w) (isEnabled w) (sheet w) (elements w) (observers w)
    (shadowRoots w) (shadowSheets w) (hoverColorRules w) n (pageObserver w)
    (backgroundColor w) (inline w) (document_adoptedStyleSheets w)
    (shadow_adoptedStyleSheets w).

Definition set_pageObserver (o : MutationObserver) (w : World) : World :=
  mkWorld (config w) (isEnabled w) (sheet w) (elements w) (observers w)
    (shadowRoots w) (shadowSheets w) (hoverColorRules w) (pageRoot w) o
    (backgroundColor w) (inline w) (document_adoptedStyleSheets w)
    (shadow_adoptedStyleSheets w).

Definition set_backgroundColor (c : string) (w : World) : World :=
  mkWorld (config w) (isEnabled w) (sheet w) (elements w) (observers w)
    (shadowRoots w) (shadowSheets w) (hoverColorRules w) (pageRoot w)
    (pageObserver w) c (inline w) (document_adoptedStyleSheets w)
    (shadow_adoptedStyleSheets w).

Definition set_inline (i : gmap nat Inline) (w : World) : World :=
  mkWorld (config w) (isEnabled w) (sheet w) (elements w) (observers w)
    (shadowRoots w) (shadowSheets w) (hoverColorRules w) (pageRoot w)
    (pageObserver w) (backgroundColor w) i (document_adoptedStyleSheets w)
    (shadow_adoptedStyleSheets w).

Definition set_document_adoptedStyleSheets (l : list SheetRef) (w : World) : World :=
  mkWorld (config w) (isEnabled w) (sheet w) (elements w) (observers w)
    (shadowRoots w) (shadowSheets w) (hoverColorRules w) (pageRoot w)
    (pageObserver w) (backgroundColor w) (inline w) l
    (shadow_adoptedStyleSheets w).

Definition set_shadow_adoptedStyleSheets (m : gmap nat (list SheetRef)) (w : World)
  : World :=
  mkWorld (config w) (isEnabled w) (sheet w) (elements w) (observers w)
    (shadowRoots w) (shadowSheets w) (hoverColorRules w) (pageRoot w)
    (pageObserver w) (backgroundColor w) (inline w)
    (document_adoptedStyleSheets w) m.

(** Reduction of the projections of a world built with the setters, and
    of nothing else. *)
Ltac world_simpl :=
  lazy beta iota zeta delta
      [config isEnabled sheet elements observers shadowRoots shadowSheets
       hoverColorRules pageRoot pageObserver backgroundColor inline
       document_adoptedStyleSheets shadow_adoptedStyleSheets
       set_isEnabled set_sheet set_elements set_observers set_shadowRoots
       set_shadowSheets set_hoverColorRules set_pageRoot set_pageObserver
       set_backgroundColor set_inline set_document_adoptedStyleSheets
       set_shadow_adoptedStyleSheets].

(** *** Reading and writing one element *)

Definition inline_of (w : World) (el : nat) : Inline :=
  default no_inline (inline w !! el).

(** [el.style.<prop>] *)
Definition style_get (w : World) (el : nat) (prop : string) : string :=
  CSSStyleDeclaration.get (style (inline_of w el)) prop.

(** [el.style.setProperty(prop, value)] *)
Definition style_setProperty (el : nat) (prop value : string) (w : World) : World :=
  let i := inline_of w el in
  set_inline
    (<[el := mkInline (CSSStyleDeclaration.setProperty prop value (style i))
                      (dataset i)]> (inline w)) w.

(** [el.style.removeProperty(prop)] *)
Definition style_removeProperty (el : nat) (prop : string) (w : World) : World :=
  let i := inline_of w el in
  set_inline
    (<[el := mkInline (CSSStyleDeclaration.removeProperty prop (style i))
                      (dataset i)]> (inline w)) w.

(** [el.dataset.<key>] *)
Definition dataset_get (w : World) (el : nat) (key : string) : option string :=
  dataset (inline_of w el) !! key.

(** [el.dataset.<key> = value] *)
Definition dataset_set (el : nat) (key value : string) (w : World) : World :=
  let i := inline_of w el in
  set_inline (<[el := mkInline (style i) (<[key := value]> (dataset i))]> (inline w)) w.

(** [delete el.dataset.<key>] *)
Definition dataset_delete (el : nat) (key : string) (w : World) : World :=
  let i := inline_of w el in
  set_inline (<[el := mkInline (style i) (delete key (dataset i))]> (inline w)) w.

(** ** The engine *)

Section Engine.

Context (H : Host).

(** *** The contrast repair loop of [#darken]

    The three variables the [while] loop works on. *)
Record Repair : Type := mkRepair {
  colored : Color H;
  readable : bool;
  readableAttempts : nat
}.

(** [while (!readable && readableAttempts < 10) { ... }]; [None] when the
    fuel runs out before the loop condition turns false. *)
Fixpoint repair_while (fuel : nat) (darkBgColor : string) (s : Repair)
  : option Repair :=
  if negb (readable s) && (readableAttempts s <? 10)%nat then
    match fuel with
    | O => None
    | S fuel' =>
        let colored' := c_lighten H (colored s) 0.05 in
        repair_while fuel' darkBgColor
          (mkRepair colored'
                    (c_isReadable H colored' darkBgColor AAA)
                    (S (readableAttempts s)))
    end
  else Some s.

(** The state the loop is entered with: the first readability test is
    made at colord's default level, [AA]. *)
Definition repair_init (color darkBgColor : string) : Repair :=
  let c := colord H color in
  mkRepair c (c_isReadable H c darkBgColor AA) 0.

(** The loop run from its initial state; ten units of fuel are enough
    (see [repair_while_total]). *)
Definition repair (color darkBgColor : string) : Repair :=
  default (repair_init color darkBgColor)
          (repair_while 10 darkBgColor (repair_init color darkBgColor)).

(** *** Filter Policy *)

(** [Array.from(this.#htmlFilterSet).some(selector => el.matches(selector))] *)
Definition filtered (w : World) (el : nat) : bool :=
  existsb (fun selector => matches H (inline w) el selector)
          (htmlFilterSet (config w)).

(** *** [#darken] *)

(** The target background colour and the update of the cached
    [#backgroundColor] (lines 275-284). *)
Definition darkBackground (w : World) (el : nat) : string * World :=
  let bgColor := cs_backgroundColor (getComputedStyle H (inline w) el) in
  let bgColord := colord H bgColor in
  let tag := JS.toLowerCase (tagName H el) in
  if bool_decide (tag = JS.toLowerCase (tagName H (node_id (pageRoot w)))) then
    let darkBgColor :=
      c_toHex H (c_withAlpha H (c_darken H bgColord 0.9) (pageRootAlpha (config w))) in
    (darkBgColor,
     if negb (JS.truthy (backgroundColor w))
     then set_backgroundColor darkBgColor w
     else w)
  else if negb (c_isDark H bgColord) then
    (c_toHex H (c_darken H bgColord 0.9), w)
  else (bgColor, w).

(** The first entry of [#hoverColorRules] whose selector, stripped of
    [:hover], the element matches (lines 310-314). *)
Definition hoverRule (w : World) (el : nat) : option (string * string) :=
  List.find (fun entry => matches H (inline w) el (JS.removeAll ":hover" (fst entry)))
            (hoverColorRules w).

(** The border step (lines 309-322). *)
Definition darken_border (el : nat) (borderColorAlpha : Q) (c : Color H)
                         (w : World) : World :=
  if negb (Qle_bool borderColorAlpha 0) then
    match hoverRule w el with
    | None =>
        let w1 :=
          if JS.truthy (style_get w el "border-color")
          then dataset_set el "originalBorderColor" (style_get w el "border-color") w
          else w in
        style_setProperty el "border-color" (c_toHex H (c_darken H c 0.45)) w1
    | Some _ => w
    end
  else w.

(** The gradient step (lines 324-344); the computed style is live, so
    the background image is read from the document as it is by then. *)
Definition darken_gradient (el : nat) (w : World) : World :=
  let backgroundImage := cs_backgroundImage (getComputedStyle H (inline w) el) in
  if negb (bool_decide (backgroundImage = "none"))
     && JS.test "-gradient(" backgroundImage then
    let bgImg :=
      replaceAll_colorValue H backgroundImage
        (fun match_ =>
           let color := colord H match_ in
           if c_isDark H color
           then c_toHex H (c_lighten H color 0.7)
           else c_toHex H (c_darken H color 0.7)) in
    let w1 :=
      if JS.truthy (style_get w el "background-image")
      then dataset_set el "originalBgImage" (style_get w el "background-image") w
      else w in
    let w2 := style_setProperty el "background-image" bgImg w1 in
    dataset_set el "lightsOutGradient" "true" w2
  else w.

(** Snapshot and patch of an element not yet marked (lines 298-348). *)
Definition darken_apply (el : nat) (borderColorAlpha : Q) (c : Color H)
                        (darkBgColor : string) (w : World) : World :=
  let originalColor := style_get w el "color" in
  let originalBgColor := style_get w el "background-color" in
  let w1 :=
    if JS.truthy originalColor
    then dataset_set el "originalColor" originalColor w else w in
  let w2 :=
    if JS.truthy originalBgColor
    then dataset_set el "originalBgColor" originalBgColor w1 else w1 in
  let w3 := darken_border el borderColorAlpha c w2 in
  let w4 := darken_gradient el w3 in
  let w5 := style_setProperty el "color" (c_toHex H c) w4 in
  let w6 := style_setProperty el "background-color" darkBgColor w5 in
  dataset_set el "lightsOut" "true" w6.

Definition darken (w : World) (el : nat) : World :=
  if negb (filtered w el) then
    let computedStyle := getComputedStyle H (inline w) el in
    let '(darkBgColor, w1) := darkBackground w el in
    let borderColorAlpha := c_alpha H (colord H (cs_borderColor computedStyle)) in
    let r := repair (cs_color computedStyle) darkBgColor in
    if negb (bool_decide (dataset_get w1 el "lightsOut" = Some "true")) then
      darken_apply el borderColorAlpha (colored r) darkBgColor w1
    else w1
  else w.

(** *** [#undarken] *)

(** Restore one property from its snapshot, or remove it. *)
Definition restore (el : nat) (key prop : string) (w : World) : World :=
  if JS.truthy_opt (dataset_get w el key) then
    let w1 := style_setProperty el prop (default "" (dataset_get w el key)) w in
    dataset_delete el key w1
  else style_removeProperty el prop w.

Definition undarken (w : World) (el : nat) : World :=
  if bool_decide (dataset_get w el "lightsOut" = Some "true") then
    let w1 := dataset_delete el "lightsOut" w in
    let w2 := restore el "originalColor" "color" w1 in
    let w3 := restore el "originalBgColor" "background-color" w2 in
    let w4 := restore el "originalBorderColor" "border-color" w3 in
    if JS.truthy_opt (dataset_get w4 el "lightsOutGradient") then
      let w5 := dataset_delete el "lightsOutGradient" w4 in
      restore el "originalBgImage" "background-image" w5
    else w4
  else w.

(** *** Indexing: [#traverse] and [#walk] *)

(** [Set.prototype.add] on an insertion-ordered set. *)
Definition set_add (x : nat) (l : list nat) : list nat :=
  if bool_decide (x ∈ l) then l else (l ++ [x])%list.

(** The same for style sheets, which are compared by identity. *)
Definition sheet_add (s : CSSStyleSheet) (l : list CSSStyleSheet)
  : list CSSStyleSheet :=
  if existsb (fun s' => bool_decide (sheet_id s' = sheet_id s)) l
  then l else (l ++ [s])%list.

(** [!sheet.href || sheet.href.startsWith(window.location.origin)] *)
Definition sameOrigin (s : CSSStyleSheet) : bool :=
  match href s with
  | None => true
  | Some h => negb (JS.truthy h) || JS.startsWith h (location_origin H)
  end.

(** The body of [#traverse]; [forEach_descendant l w] stands for
    [root.querySelectorAll('*').forEach(el => this.#traverse(el))] on a
    root whose children are [l]. *)
Definition traverse_body (forEach_descendant : list Node -> World -> World)
                         (node : Node) (w : World) : World :=
  if isHTMLElement H (node_id node) then
    let w1 := set_elements (set_add (node_id node) (elements w)) w in
    match node_shadowRoot node with
    | Some sr =>
        let w2 :=
          if bool_decide (is_Some (observers w1 !! node_id node)) then w1
          else
            set_observers
              (<[node_id node := mkObserver [ObservedShadowRoot (shadow_id sr)]]>
                 (observers w1)) w1 in
        let w3 := set_shadowRoots (set_add (shadow_id sr) (shadowRoots w2)) w2 in
        let w4 :=
          fold_left (fun w' s => set_shadowSheets (sheet_add s (shadowSheets w')) w')
                    (List.filter sameOrigin (shadow_styleSheets sr)) w3 in
        forEach_descendant (shadow_content sr) w4
    | None => w1
    end
  else w.

(** [#traverse] applied to a node and then to each of its descendants, in
    document order. *)
Fixpoint traverse_tree (node : Node) (w : World) {struct node} : World :=
  match node with
  | Element id children sr =>
      fold_left (fun w' c => traverse_tree c w') children
        (traverse_body
           (fun l w' => fold_left (fun w'' c => traverse_tree c w'') l w')
           (Element id children sr) w)
  end.

(** [root.querySelectorAll('*').forEach(el => this.#traverse(el))] *)
Definition traverse_descendants (l : list Node) (w : World) : World :=
  fold_left (fun w' c => traverse_tree c w') l w.

Definition traverse (node : Node) (w : World) : World :=
  traverse_body traverse_descendants node w.

(** *** [#getHoverBorderColorRules] *)

(** [Map.prototype.set]: an existing key keeps its position. *)
Fixpoint map_set (key value : string) (m : list (string * string))
  : list (string * string) :=
  match m with
  | [] => [(key, value)]
  | (k, v) :: m' =>
      if bool_decide (k = key) then (k, value) :: m'
      else (k, v) :: map_set key value m'
  end.

(** The style rules a top-level rule contributes: itself, or the style
    rules directly inside a media rule. *)
Definition styleRules_of (rule : CSSRule) : list (string * string) :=
  match rule with
  | CSSStyleRule sel text => [(sel, text)]
  | CSSMediaRule inner =>
      flat_map (fun r => match r with
                         | CSSStyleRule sel text => [(sel, text)]
                         | _ => []
                         end) inner
  | CSSOtherRule => []
  end.

Definition hoverBorderRules (sheets : list CSSStyleSheet) : list (string * string) :=
  flat_map
    (fun sh =>
       List.filter (fun rule => JS.test ":hover" (fst rule) && JS.test "border" (snd rule))
                   (flat_map styleRules_of (sheet_rules sh)))
    (List.filter sameOrigin sheets).

Definition getHoverBorderColorRules (w : World) : World :=
  fold_left
    (fun w' rule => set_hoverColorRules (map_set (fst rule) (snd rule) (hoverColorRules w')) w')
    (hoverBorderRules (document_styleSheets H ++ shadowSheets w)%list) w.

(** *** [#walk] *)

Definition walk (root : Node) (w : World) : World :=
  let w1 :=
    if isHTMLElement H (node_id root)
    then set_elements (set_add (node_id root) (elements w)) w else w in
  let scope :=
    match node_shadowRoot root with
    | Some sr => shadow_content sr
    | None => node_children root
    end in
  let w2 := traverse_descendants scope w1 in
  if preserveHoverBorderColor (config w2) then getHoverBorderColorRules w2 else w2.

(** *** [#clear] *)

Definition clear (w : World) : World :=
  set_observers
    (filter (fun entry => isConnected H (fst entry) = true) (observers w))
    (set_hoverColorRules [] (set_shadowSheets [] (set_shadowRoots [] (set_elements [] w)))).

(** *** [#update]

    The [performance] marks and the verbose log have no effect on the
    engine or on the document and are left out. *)

(** [shadowRoot.adoptedStyleSheets = [...shadowRoot.adoptedStyleSheets, this.#sheet]] *)
Definition adopt (w : World) (sr : nat) : World :=
  set_shadow_adoptedStyleSheets
    (<[sr := (default [] (shadow_adoptedStyleSheets w !! sr) ++ [EngineSheet])%list]>
       (shadow_adoptedStyleSheets w)) w.

Definition update (root : Node) (w : World) : World :=
  let w1 := clear w in
  let w2 := walk root w1 in
  let w3 := fold_left darken (elements w2) w2 in
  fold_left adopt (shadowRoots w3) w3.

(** *** Lifecycle *)

(** [observer.observe(target, options)]: a target already observed is
    not registered twice. *)
Definition observe (target : ObservedNode) (o : MutationObserver) : MutationObserver :=
  if existsb (fun t => match t, target with
                       | ObservedElement a, ObservedElement b => bool_decide (a = b)
                       | ObservedShadowRoot a, ObservedShadowRoot b => bool_decide (a = b)
                       | _, _ => false
                       end) (observing o)
  then o else mkObserver (observing o ++ [target])%list.

Definition disconnect (o : MutationObserver) : MutationObserver := mkObserver [].

Definition enable (w : World) : World :=
  let w1 := set_isEnabled true w in
  let w2 := set_pageObserver
              (observe (ObservedElement (node_id (pageRoot w1))) (pageObserver w1)) w1 in
  let w3 := set_sheet (cssRules (config w2)) w2 in
  let w4 := set_document_adoptedStyleSheets
              (document_adoptedStyleSheets w3 ++ [EngineSheet])%list w3 in
  update (pageRoot w4) w4.

Definition disable (w : World) : World :=
  let w1 := set_isEnabled false w in
  let w2 := walk (pageRoot w1) w1 in
  let w3 := set_sheet "" w2 in
  let w4 := set_backgroundColor "" w3 in
  let w5 := fold_left undarken (elements w4) w4 in
  let w6 := set_pageObserver (disconnect (pageObserver w5)) w5 in
  let w7 := set_observers ∅ w6 in
  clear w7.

(** [toggle(force?)] *)
Definition toggle (force : option bool) (w : World) : World :=
  let force' := match force with
                | None => negb (isEnabled w)
                | Some b => b
                end in
  if force' then enable w else disable w.

(** *** The [pageRoot] setter *)

(** What a caller may assign: an element, or anything else. *)
Inductive JSValue : Type :=
| JSElement (n : Node)
| JSOther (description : string).

Inductive Completion : Type :=
| Normal
| Throw (message : string).

(** [root instanceof HTMLElement] *)
Definition instanceof_HTMLElement (v : JSValue) : bool :=
  match v with
  | JSElement n => isHTMLElement H (node_id n)
  | JSOther _ => false
  end.

Definition pageRoot_setter (v : JSValue) (w : World) : Completion * World :=
  match v with
  | JSElement root =>
      if negb (isHTMLElement H (node_id root)) then
        (Throw "pageRoot must be an instance of HTMLElement", w)
      else
        let w1 := set_pageRoot root w in
        if isEnabled w1 then
          let o := disconnect (pageObserver w1) in
          (Normal, set_pageObserver (observe (ObservedElement (node_id (pageRoot w1))) o) w1)
        else (Normal, w1)
  | JSOther _ => (Throw "pageRoot must be an instance of HTMLElement", w)
  end.

End Engine.

Arguments mkRepair {H} _ _ _.
Arguments colored {H} _.
Arguments readable {H} _.
Arguments readableAttempts {H} _.

(** ** An executable host

    Grey-scale colours and a document whose selectors are tag names: enough
    of a browser to run the engine on concrete documents.  Only the
    functions of [colord] the engine calls are provided; luminance is
    approximated by the square of the grey level (gamma 2), the contrast
    ratio and its thresholds (4.5 for AA, 7 for AAA) are those of WCAG. *)

Module Demo.

Record Grey : Type := mkGrey {
  level : Z;      (* 0 .. 255 *)
  opacity : Q     (* 0 .. 1 *)
}.

Definition hexValue (c : ascii) : option Z :=
  let n := Z.of_nat (nat_of_ascii c) in
  if (48 <=? n)%Z && (n <=? 57)%Z then Some (n - 48)%Z
  else if (97 <=? n)%Z && (n <=? 102)%Z then Some (n - 87)%Z
  else if (65 <=? n)%Z && (n <=? 70)%Z then Some (n - 55)%Z
  else None.

Definition hexDigit (n : Z) : ascii :=
  nth (Z.to_nat n) (String.list_ascii_of_string "0123456789abcdef") "0"%char.

Definition hex2 (n : Z) : string :=
  String (hexDigit (n / 16)) (String (hexDigit (n mod 16)) EmptyString).

Definition byte_of (hi lo : ascii) : option Z :=
  match hexValue hi, hexValue lo with
  | Some h, Some l => Some (16 * h + l)%Z
  | _, _ => None
  end.

(** [colord(input)]: [#rrggbb], [#rrggbbaa] and the transparent keyword
    forms; anything else parses, as in colord, to opaque black. *)
Definition parse (input : string) : Grey :=
  if bool_decide (input = "transparent") || bool_decide (input = "rgba(0, 0, 0, 0)")
  then mkGrey 0 0
  else
    match input with
    | String "#" (String r1 (String r2 (String _ (String _ (String _ (String _ rest)))))) =>
        match byte_of r1 r2, rest with
        | Some g, EmptyString => mkGrey g 1
        | Some g, String a1 (String a2 EmptyString) =>
            match byte_of a1 a2 with
            | Some a => mkGrey g (a # 255)
            | None => mkGrey 0 1
            end
        | _, _ => mkGrey 0 1
        end
    | _ => mkGrey 0 1
    end.

Definition clamp (g : Z) : Z := Z.max 0 (Z.min 255 g).

Definition darken (c : Grey) (amount : Q) : Grey :=
  mkGrey (clamp (level c - Qfloor (amount * 255))) (opacity c).

Definition lighten (c : Grey) (amount : Q) : Grey :=
  mkGrey (clamp (level c + Qfloor (amount * 255))) (opacity c).

Definition withAlpha (c : Grey) (a : Q) : Grey := mkGrey (level c) a.

Definition isDark (c : Grey) : bool := (level c <=? 127)%Z.

Definition luminance (c : Grey) : Q := (level c # 255) * (level c # 255).

Definition ratio (l : Level) : Q :=
  match l with
  | AA => 4.5
  | AAA => 7
  end.

Definition isReadable (c : Grey) (background : string) (l : Level) : bool :=
  let l1 := luminance c in
  let l2 := luminance (parse background) in
  let hi := if Qle_bool l1 l2 then l2 else l1 in
  let lo := if Qle_bool l1 l2 then l1 else l2 in
  Qle_bool (ratio l * (lo + 0.05)) (hi + 0.05).

Definition toHex (c : Grey) : string :=
  String "#"
    (hex2 (level c) ++ hex2 (level c) ++ hex2 (level c)
     ++ (if Qle_bool 1 (opacity c) then "" else hex2 (Qfloor (opacity c * 255)))).

Lemma toHex_truthy (c : Grey) : JS.truthy (toHex c) = true.
Proof. reflexivity. Qed.

(** The documents of the examples: a page under [<body>] (elements 1 to
    6), and a tree that is not attached to the document (7 to 9). *)
Definition tagName (el : nat) : string :=
  match el with
  | 1 => "BODY"
  | 3 => "IMG"
  | 5 => "SPAN"
  | 6 => "svg"
  | 9 => "P"
  | _ => "DIV"
  end.

Definition isHTMLElement (el : nat) : bool := negb (bool_decide (el = 6)).

Definition isConnected (el : nat) : bool := bool_decide (el < 7).

(** Computed values: the inline declaration when there is one, the
    initial value otherwise (the border colour defaults to the text
    colour). *)
Definition getComputedStyle (st : gmap nat Inline) (el : nat) : ComputedStyle :=
  let s := style (default no_inline (st !! el)) in
  let color := default "#000000" (s !! "color") in
  mkComputed color
             (default "rgba(0, 0, 0, 0)" (s !! "background-color"))
             (default color (s !! "border-color"))
             (default "none" (s !! "background-image")).

(** Type selectors only. *)
Definition matches (st : gmap nat Inline) (el : nat) (selector : string) : bool :=
  bool_decide (JS.toLowerCase (tagName el) = selector).

Definition styleSheets : list CSSStyleSheet :=
  [ mkSheet 100 None
      [ CSSStyleRule "span:hover" "span:hover { border-color: #ff0000; }";
        CSSStyleRule "p" "p { border: 0; }" ] ].

(** [replaceAll] of the colour pattern, for hexadecimal colours of six
    digits: [skip] counts the characters of the token still to drop. *)
Fixpoint replaceHex (f : string -> string) (skip : nat) (s : string) : string :=
  match s with
  | EmptyString => EmptyString
  | String c s' =>
      match skip with
      | S k => replaceHex f k s'
      | O =>
          let token := String.substring 0 7 s in
          if bool_decide (c = "#"%char) && bool_decide (String.length token = 7%nat)
             && forallb (fun d => bool_decide (is_Some (hexValue d)))
                        (String.list_ascii_of_string (String.substring 1 6 token))
          then f token ++ replaceHex f 6 s'
          else String c (replaceHex f 0 s')
      end
  end.

Definition host : Host :=
  mkHost Grey parse darken lighten opacity withAlpha isDark isReadable toHex
         toHex_truthy tagName isHTMLElement isConnected getComputedStyle matches
         styleSheets "https://example.org" (fun s f => replaceHex f 0 s).

(** Type selectors and two attribute selectors that look at the data
    attributes the engine writes. *)
Definition matches_attr (st : gmap nat Inline) (el : nat) (selector : string) : bool :=
  let data := dataset (default no_inline (st !! el)) in
  if bool_decide (selector = "[data-lights-out]")
  then bool_decide (is_Some (data !! "lightsOut"))
  else if bool_decide (selector = "[data-original-color]")
  then bool_decide (is_Some (data !! "originalColor"))
  else matches st el selector.

Definition styleSheets_attr : list CSSStyleSheet :=
  [ mkSheet 101 None
      [ CSSStyleRule "[data-original-color]:hover"
                     "[data-original-color]:hover { border-color: #ff0000; }" ] ].

(** The same host with a selector engine that honours these attribute
    selectors, and a sheet that uses one. *)
Definition host_attr : Host :=
  mkHost Grey parse darken lighten opacity withAlpha isDark isReadable toHex
         toHex_truthy tagName isHTMLElement isConnected getComputedStyle matches_attr
         styleSheets_attr "https://example.org" (fun s f => replaceHex f 0 s).

End Demo.

(** * Properties *)

(** ** The contrast repair loop *)

Section Repair_facts.

Context (H : Host).

(** The colour after [n] lightening steps. *)
Definition lightened (n : nat) (c : Color H) : Color H :=
  Nat.iter n (fun c' => c_lighten H c' 0.05) c.

Lemma lightened_S (n : nat) (c : Color H) :
  lightened (S n) c = lightened n (c_lighten H c 0.05).
Proof.
  unfold lightened. induction n as [|n IH]; [reflexivity|].
  simpl in *. now rewrite IH.
Qed.

(** The loop run with enough fuel: it exits, within the budget of ten
    attempts, in a state where its condition is false; a state it leaves
    untouched was readable on entry, a state it worked on carries the
    result of the last [AAA] test. *)
Lemma repair_while_exit (bg : string) (fuel : nat) :
  forall s : Repair H,
    (readableAttempts s <= 10)%nat ->
    (10 - readableAttempts s <= fuel)%nat ->
    exists r,
      repair_while H fuel bg s = Some r
      /\ (readableAttempts s <= readableAttempts r <= 10)%nat
      /\ (readable r = true \/ readableAttempts r = 10%nat)
      /\ (readableAttempts r = readableAttempts s -> r = s)
      /\ ((readableAttempts s < readableAttempts r)%nat ->
          readable r = c_isReadable H (colored r) bg AAA)
      /\ colored r
         = lightened (readableAttempts r - readableAttempts s) (colored s).
Proof.
  induction fuel as [|fuel IH]; intros s Hle Hfuel.
  - assert (readableAttempts s = 10%nat) as E by lia.
    exists s. simpl. rewrite E, andb_false_r.
    rewrite Nat.sub_diag. repeat split; auto; lia.
  - simpl.
    destruct (readable s) eqn:Er; simpl.
    { exists s. rewrite Nat.sub_diag. repeat split; auto; lia. }
    destruct (readableAttempts s <? 10)%nat eqn:Elt.
    + apply Nat.ltb_lt in Elt.
      destruct (IH (mkRepair (c_lighten H (colored s) 0.05)
                      (c_isReadable H (c_lighten H (colored s) 0.05) bg AAA)
                      (S (readableAttempts s))))
        as (r & Hr & Hb & Hex & Hsame & Hlast & Hcol); simpl; try lia.
      simpl in *.
      exists r. split; [exact Hr|]. split; [lia|]. split; [exact Hex|].
      split; [intros E; lia|]. split.
      * intros _.
        destruct (decide (readableAttempts r = S (readableAttempts s))) as [E|E].
        -- rewrite (Hsame E). reflexivity.
        -- apply Hlast. lia.
      * rewrite Hcol.
        replace (readableAttempts r - readableAttempts s)%nat
          with (S (readableAttempts r - S (readableAttempts s))) by lia.
        now rewrite lightened_S.
    + apply Nat.ltb_ge in Elt.
      exists s. rewrite Nat.sub_diag. repeat split; auto; lia.
Qed.

(** Ten units of fuel always suffice from the initial state. *)
Lemma repair_while_total (color bg : string) :
  repair_while H 10 bg (repair_init H color bg) = Some (repair H color bg).
Proof.
  destruct (repair_while_exit bg 10 (repair_init H color bg))
    as (r & Hr & _); simpl; try lia.
  unfold repair. now rewrite Hr.
Qed.

End Repair_facts.

(** ** Reading an element after a write *)

(** The declaration of [prop] in [el.style], if any. *)
Definition style_lookup (w : World) (el : nat) (prop : string) : option string :=
  style (inline_of w el) !! prop.

(** [w'] differs from [w] at most in the inline state of [el] and in the
    cached [#backgroundColor]. *)
Definition only_el (el : nat) (w w' : World) : Prop :=
  w' = set_inline (inline w') (set_backgroundColor (backgroundColor w') w)
  /\ forall e, e <> el -> inline w' !! e = inline w !! e.

Section Write_facts.

Implicit Types (w : World) (el e : nat) (prop key value : string).

Lemma style_get_lookup w el prop :
  style_get w el prop = default "" (style_lookup w el prop).
Proof. reflexivity. Qed.

Lemma inline_of_insert_eq w el i :
  inline_of (set_inline (<[el := i]> (inline w)) w) el = i.
Proof. unfold inline_of; simpl. now rewrite lookup_insert_eq. Qed.

Lemma inline_of_insert_ne w el e i :
  e <> el -> inline_of (set_inline (<[el := i]> (inline w)) w) e = inline_of w e.
Proof. intros Hne. unfold inline_of; simpl. rewrite lookup_insert_ne; auto. Qed.

(** [el.dataset] *)
Lemma dataset_get_set_eq w el key value :
  dataset_get (dataset_set el key value w) el key = Some value.
Proof.
  unfold dataset_get, dataset_set. rewrite inline_of_insert_eq; simpl.
  apply lookup_insert_eq.
Qed.

Lemma dataset_get_set_ne w el key k value :
  k <> key -> dataset_get (dataset_set el key value w) el k = dataset_get w el k.
Proof.
  intros Hne. unfold dataset_get, dataset_set. rewrite inline_of_insert_eq; simpl.
  rewrite lookup_insert_ne; auto.
Qed.

Lemma dataset_get_delete_eq w el key :
  dataset_get (dataset_delete el key w) el key = None.
Proof.
  unfold dataset_get, dataset_delete. rewrite inline_of_insert_eq; simpl.
  apply lookup_delete_eq.
Qed.

Lemma dataset_get_delete_ne w el key k :
  k <> key -> dataset_get (dataset_delete el key w) el k = dataset_get w el k.
Proof.
  intros Hne. unfold dataset_get, dataset_delete. rewrite inline_of_insert_eq; simpl.
  rewrite lookup_delete_ne; auto.
Qed.

Lemma dataset_get_setProperty w el prop value k :
  dataset_get (style_setProperty el prop value w) el k = dataset_get w el k.
Proof. unfold dataset_get, style_setProperty. now rewrite inline_of_insert_eq. Qed.

Lemma dataset_get_removeProperty w el prop k :
  dataset_get (style_removeProperty el prop w) el k = dataset_get w el k.
Proof. unfold dataset_get, style_removeProperty. now rewrite inline_of_insert_eq. Qed.

(** [el.style] *)
Lemma style_lookup_dataset_set w el key value prop :
  style_lookup (dataset_set el key value w) el prop = style_lookup w el prop.
Proof. unfold style_lookup, dataset_set. now rewrite inline_of_insert_eq. Qed.

Lemma style_lookup_dataset_delete w el key prop :
  style_lookup (dataset_delete el key w) el prop = style_lookup w el prop.
Proof. unfold style_lookup, dataset_delete. now rewrite inline_of_insert_eq. Qed.

Lemma style_lookup_setProperty_eq w el prop value :
  JS.truthy value = true ->
  style_lookup (style_setProperty el prop value w) el prop = Some value.
Proof.
  intros Hv. unfold style_lookup, style_setProperty.
  rewrite inline_of_insert_eq; simpl. unfold CSSStyleDeclaration.setProperty.
  unfold JS.truthy in Hv. destruct (bool_decide (value = "")); [discriminate|].
  apply lookup_insert_eq.
Qed.

Lemma style_lookup_setProperty_ne w el prop value p :
  p <> prop ->
  style_lookup (style_setProperty el prop value w) el p = style_lookup w el p.
Proof.
  intros Hne. unfold style_lookup, style_setProperty.
  rewrite inline_of_insert_eq; simpl. unfold CSSStyleDeclaration.setProperty.
  destruct (bool_decide (value = "")).
  - rewrite lookup_delete_ne; auto.
  - rewrite lookup_insert_ne; auto.
Qed.

Lemma style_lookup_removeProperty_eq w el prop :
  style_lookup (style_removeProperty el prop w) el prop = None.
Proof.
  unfold style_lookup, style_removeProperty.
  rewrite inline_of_insert_eq; simpl. apply lookup_delete_eq.
Qed.

Lemma style_lookup_removeProperty_ne w el prop p :
  p <> prop ->
  style_lookup (style_removeProperty el prop w) el p = style_lookup w el p.
Proof.
  intros Hne. unfold style_lookup, style_removeProperty.
  rewrite inline_of_insert_eq; simpl.
  unfold CSSStyleDeclaration.removeProperty. rewrite lookup_delete_ne; auto.
Qed.

(** Frames *)
Lemma only_el_refl el w : only_el el w w.
Proof. split; [now destruct w | auto]. Qed.

Lemma only_el_trans el w1 w2 w3 :
  only_el el w1 w2 -> only_el el w2 w3 -> only_el el w1 w3.
Proof.
  intros [E12 F12] [E23 F23]. split.
  - rewrite E23 at 1. rewrite E12 at 1. reflexivity.
  - intros e Hne. rewrite F23, F12; auto.
Qed.

Lemma only_el_insert el w i :
  only_el el w (set_inline (<[el := i]> (inline w)) w).
Proof.
  split; [now destruct w|].
  intros e Hne; simpl. rewrite lookup_insert_ne; auto.
Qed.

Lemma only_el_backgroundColor el w c : only_el el w (set_backgroundColor c w).
Proof. split; [now destruct w | auto]. Qed.

Lemma only_el_dataset_set el key value w : only_el el w (dataset_set el key value w).
Proof. apply only_el_insert. Qed.

Lemma only_el_dataset_delete el key w : only_el el w (dataset_delete el key w).
Proof. apply only_el_insert. Qed.

Lemma only_el_setProperty el prop value w :
  only_el el w (style_setProperty el prop value w).
Proof. apply only_el_insert. Qed.

Lemma only_el_removeProperty el prop w : only_el el w (style_removeProperty el prop w).
Proof. apply only_el_insert. Qed.

Lemma only_el_inline_of el e w w' :
  only_el el w w' -> e <> el -> inline_of w' e = inline_of w e.
Proof. intros [_ F] Hne. unfold inline_of. now rewrite F. Qed.

End Write_facts.

Create HintDb frame.

#[global] Hint Resolve only_el_refl only_el_backgroundColor only_el_dataset_set
  only_el_dataset_delete only_el_setProperty only_el_removeProperty : frame.

(** ** [#darken] and [#undarken] on one element *)

(** The themed marker: [el.dataset.lightsOut === 'true']. *)
Definition marked (w : World) (el : nat) : bool :=
  bool_decide (dataset_get w el "lightsOut" = Some "true").

Section Darken_facts.

Context (H : Host).

Implicit Types (w : World) (el e : nat).

(** The test [#darken] uses to recognise the theming root. *)
Definition is_root_tag w el : bool :=
  bool_decide (JS.toLowerCase (tagName H el)
               = JS.toLowerCase (tagName H (node_id (pageRoot w)))).

Lemma darkBackground_snd w el :
  snd (darkBackground H w el)
  = if is_root_tag w el && negb (JS.truthy (backgroundColor w))
    then set_backgroundColor (fst (darkBackground H w el)) w
    else w.
Proof.
  unfold darkBackground, is_root_tag.
  destruct (bool_decide (JS.toLowerCase (tagName H el) = _)); simpl.
  - now destruct (JS.truthy (backgroundColor w)).
  - now destruct (c_isDark H _).
Qed.

Lemma darkBackground_only_el w el : only_el el w (snd (darkBackground H w el)).
Proof.
  rewrite darkBackground_snd. destruct (_ && _); auto with frame.
Qed.

Lemma darkBackground_inline w el : inline (snd (darkBackground H w el)) = inline w.
Proof. rewrite darkBackground_snd. now destruct (_ && _). Qed.

Lemma darkBackground_cached w el :
  is_root_tag w el = true ->
  JS.truthy (backgroundColor (snd (darkBackground H w el))) = true.
Proof.
  intros Hr. rewrite darkBackground_snd, Hr; simpl.
  destruct (JS.truthy (backgroundColor w)) eqn:E; simpl; auto.
  unfold darkBackground. unfold is_root_tag in Hr. rewrite Hr; simpl.
  apply c_toHex_truthy.
Qed.

Lemma darken_border_only_el el a c w : only_el el w (darken_border H el a c w).
Proof.
  unfold darken_border.
  destruct (negb _); auto with frame.
  destruct (hoverRule H w el); auto with frame.
  eapply only_el_trans; [|apply only_el_setProperty].
  destruct (JS.truthy _); auto with frame.
Qed.

Lemma darken_gradient_only_el el w : only_el el w (darken_gradient H el w).
Proof.
  unfold darken_gradient.
  destruct (_ && _); auto with frame.
  eapply only_el_trans; [|apply only_el_dataset_set].
  eapply only_el_trans; [|apply only_el_setProperty].
  destruct (JS.truthy _); auto with frame.
Qed.

Lemma darken_apply_only_el el a c bg w : only_el el w (darken_apply H el a c bg w).
Proof.
  unfold darken_apply.
  eapply only_el_trans; [|apply only_el_dataset_set].
  eapply only_el_trans; [|apply only_el_setProperty].
  eapply only_el_trans; [|apply only_el_setProperty].
  eapply only_el_trans; [|apply darken_gradient_only_el].
  eapply only_el_trans; [|apply darken_border_only_el].
  assert (only_el el w
            (if JS.truthy (style_get w el "color")
             then dataset_set el "originalColor" (style_get w el "color") w
             else w)) as H1.
  { destruct (JS.truthy _); auto with frame. }
  eapply only_el_trans; [exact H1|].
  destruct (JS.truthy (style_get w el "background-color")); auto with frame.
Qed.

Lemma darken_apply_marked el a c bg w :
  marked (darken_apply H el a c bg w) el = true.
Proof.
  unfold marked, darken_apply. rewrite dataset_get_set_eq.
  now apply bool_decide_eq_true_2.
Qed.

(** [#darken] writes to its element and to the cache only. *)
Lemma darken_only_el w el : only_el el w (darken H w el).
Proof.
  unfold darken.
  destruct (negb (filtered H w el)); auto with frame.
  pose proof (darkBackground_only_el w el) as Hbg.
  destruct (darkBackground H w el) as [d w1]; simpl in Hbg.
  destruct (negb _); auto.
  eapply only_el_trans; [exact Hbg|apply darken_apply_only_el].
Qed.

Lemma darken_filtered w el : filtered H w el = true -> darken H w el = w.
Proof. intros Hf. unfold darken. now rewrite Hf. Qed.

(** An element is settled when a further [#darken] finds nothing to do:
    it carries the marker, and the cache is filled if the element is
    treated as the theming root. *)
Definition settled w el : Prop :=
  marked w el = true
  /\ (is_root_tag w el = true -> JS.truthy (backgroundColor w) = true).

Lemma darken_settled w el : settled w el -> darken H w el = w.
Proof.
  intros [Hm Hc]. unfold darken.
  destruct (negb (filtered H w el)); auto.
  pose proof (darkBackground_snd w el) as Hs.
  destruct (darkBackground H w el) as [d w1]; simpl in Hs.
  assert (w1 = w) as ->.
  { rewrite Hs. destruct (is_root_tag w el); simpl; auto.
    now rewrite Hc. }
  unfold marked in Hm. now rewrite Hm.
Qed.

Lemma only_el_pageRoot el w w' : only_el el w w' -> pageRoot w' = pageRoot w.
Proof. intros [E _]. now rewrite E. Qed.

Lemma only_el_config el w w' : only_el el w w' -> config w' = config w.
Proof. intros [E _]. now rewrite E. Qed.

Lemma only_el_is_root_tag el w w' e :
  only_el el w w' -> is_root_tag w' e = is_root_tag w e.
Proof. intros Ho. unfold is_root_tag. now rewrite (only_el_pageRoot _ _ _ Ho). Qed.

(** The element writes leave the cache alone. *)
Definition same_cache (w w' : World) : Prop :=
  backgroundColor w' = backgroundColor w.

Lemma darken_border_cache el a c w : same_cache w (darken_border H el a c w).
Proof.
  unfold darken_border, same_cache.
  destruct (negb _); [|reflexivity].
  destruct (hoverRule H w el); [reflexivity|].
  now destruct (JS.truthy _).
Qed.

Lemma darken_gradient_cache el w : same_cache w (darken_gradient H el w).
Proof.
  unfold darken_gradient, same_cache.
  destruct (_ && _); [|reflexivity].
  now destruct (JS.truthy _).
Qed.

Lemma darken_apply_backgroundColor el a c bg w :
  backgroundColor (darken_apply H el a c bg w) = backgroundColor w.
Proof.
  unfold darken_apply.
  change (backgroundColor (dataset_set el "lightsOut" "true" ?x))
    with (backgroundColor x).
  change (backgroundColor (style_setProperty el "background-color" bg ?x))
    with (backgroundColor x).
  change (backgroundColor (style_setProperty el "color" ?v ?x))
    with (backgroundColor x).
  rewrite darken_gradient_cache, darken_border_cache.
  destruct (JS.truthy (style_get w el "background-color"));
    destruct (JS.truthy (style_get w el "color")); reflexivity.
Qed.

Lemma darken_settles w el :
  filtered H w el = false -> settled (darken H w el) el.
Proof.
  intros Hf. unfold darken. rewrite Hf; simpl.
  pose proof (darkBackground_cached w el) as Hc.
  pose proof (darkBackground_only_el w el) as Hbg.
  destruct (darkBackground H w el) as [d w1]; simpl in *.
  destruct (bool_decide (dataset_get w1 el "lightsOut" = Some "true")) eqn:Em; simpl.
  - split; [exact Em|]. now rewrite (only_el_is_root_tag _ _ _ el Hbg).
  - split; [apply darken_apply_marked|].
    rewrite darken_apply_backgroundColor.
    rewrite (only_el_is_root_tag el w1 _ el (darken_apply_only_el _ _ _ _ _)).
    now rewrite (only_el_is_root_tag _ _ _ el Hbg).
Qed.

End Darken_facts.

(** ** The element tree *)

(** [node] followed by its descendants, in document order. *)
Fixpoint inclusiveDescendants (node : Node) : list Node :=
  match node with
  | Element id children sr =>
      Element id children sr :: flat_map inclusiveDescendants children
  end.

(** [root.querySelectorAll('*')] for a root whose children are [children]. *)
Definition querySelectorAll (children : list Node) : list Node :=
  flat_map inclusiveDescendants children.

(** The identifiers of a node and of its shadow-including descendants. *)
Fixpoint tree_ids (node : Node) : list nat :=
  match node with
  | Element id children sr =>
      id :: flat_map tree_ids children
         ++ match sr with
            | Some (Shadow _ _ content) => flat_map tree_ids content
            | None => []
            end
  end.

Section Node_induction.

Variable P : Node -> Prop.

Hypothesis step :
  forall id children sr,
    Forall P children ->
    match sr with
    | Some s => Forall P (shadow_content s)
    | None => True
    end ->
    P (Element id children sr).

Fixpoint Node_induction (node : Node) : P node :=
  match node with
  | Element id children sr =>
      step id children sr
        ((fix all (l : list Node) : Forall P l :=
            match l with
            | [] => @List.Forall_nil Node P
            | c :: l' => @List.Forall_cons Node P c l' (Node_induction c) (all l')
            end) children)
        (match sr with
         | Some (Shadow sid ss content) =>
             (fix all (l : list Node) : Forall P l :=
                match l with
                | [] => @List.Forall_nil Node P
                | c :: l' => @List.Forall_cons Node P c l' (Node_induction c) (all l')
                end) content
         | None => I
         end)
  end.

End Node_induction.

(** ** Indexing as a sequence of visits *)

Inductive Visit : Type :=
| VisitElement (el : nat)
| VisitShadow (host sr : nat) (sheets : list CSSStyleSheet).

Section Index_facts.

Context (H : Host).

(** What [#traverse] does to the indices for one visit: the element is
    added to [#elements]; a shadow root gets its observer, is added to
    [#shadowRoots] and contributes its same-origin sheets. *)
Definition apply_visit (w : World) (v : Visit) : World :=
  match v with
  | VisitElement el => set_elements (set_add el (elements w)) w
  | VisitShadow host sr sheets =>
      let w2 :=
        if bool_decide (is_Some (observers w !! host)) then w
        else set_observers
               (<[host := mkObserver [ObservedShadowRoot sr]]> (observers w)) w in
      let w3 := set_shadowRoots (set_add sr (shadowRoots w2)) w2 in
      fold_left (fun w' s => set_shadowSheets (sheet_add s (shadowSheets w')) w')
                (List.filter (sameOrigin H) sheets) w3
  end.

(** The visits [#traverse] makes on a node and its descendants. *)
Fixpoint trace (node : Node) : list Visit :=
  match node with
  | Element id children sr =>
      (if isHTMLElement H id then
         VisitElement id
         :: match sr with
            | Some (Shadow sid sheets content) =>
                VisitShadow id sid sheets :: flat_map trace content
            | None => []
            end
       else [])
      ++ flat_map trace children
  end.

Lemma fold_left_flat_map {A B C : Type} (f : A -> B -> A) (g : C -> list B)
      (l : list C) (a : A) :
  fold_left f (flat_map g l) a = fold_left (fun a' c => fold_left f (g c) a') l a.
Proof.
  revert a. induction l as [|c l IH]; intros a; simpl; [reflexivity|].
  now rewrite fold_left_app, IH.
Qed.

Lemma fold_left_ext_Forall {A B : Type} (f g : A -> B -> A) (l : list B) :
  Forall (fun b => forall a, f a b = g a b) l ->
  forall a, fold_left f l a = fold_left g l a.
Proof.
  induction 1 as [|b l Hb _ IH]; intros a; simpl; [reflexivity|].
  now rewrite Hb, IH.
Qed.

(** [#traverse] on a tree is the fold of its visits. *)
Lemma traverse_tree_trace (node : Node) :
  forall w, traverse_tree H node w = fold_left apply_visit (trace node) w.
Proof.
  induction node as [id children sr IHc IHs] using Node_induction.
  intros w. simpl.
  rewrite fold_left_app, fold_left_flat_map.
  rewrite (fold_left_ext_Forall _ (fun a c => fold_left apply_visit (trace c) a) children)
    by exact IHc.
  f_equal.
  unfold traverse_body; simpl.
  destruct (isHTMLElement H id); [|reflexivity].
  destruct sr as [[sid sheets content]|]; [|reflexivity].
  simpl in *.
  rewrite fold_left_flat_map.
  rewrite (fold_left_ext_Forall _ (fun a c => fold_left apply_visit (trace c) a) content)
    by exact IHs.
  reflexivity.
Qed.

Lemma traverse_descendants_trace (l : list Node) (w : World) :
  traverse_descendants H l w = fold_left apply_visit (flat_map trace l) w.
Proof.
  unfold traverse_descendants. rewrite fold_left_flat_map.
  apply fold_left_ext_Forall, Forall_forall.
  intros c _ a. apply traverse_tree_trace.
Qed.

(** The recursion of the source: [#traverse] is run on every element
    [querySelectorAll('*')] returns. *)
Lemma traverse_tree_unfold (node : Node) (w : World) :
  traverse_tree H node w
  = traverse_descendants H (node_children node) (traverse H node w).
Proof. destruct node; reflexivity. Qed.

Lemma traverse_descendants_forEach (l : list Node) :
  forall w,
    traverse_descendants H l w
    = fold_left (fun w' el => traverse H el w') (querySelectorAll l) w.
Proof.
  induction l as [|c l IH]; intros w; [reflexivity|].
  unfold traverse_descendants, querySelectorAll in *; simpl.
  rewrite fold_left_app, <- IH. f_equal.
  clear IH l. revert w.
  induction c as [id children sr IHc _] using Node_induction. intros w.
  rewrite traverse_tree_unfold. simpl.
  unfold traverse_descendants.
  generalize (traverse H (Element id children sr) w). clear w.
  induction IHc as [|c l Hc _ IHl]; intros w; simpl; [reflexivity|].
  now rewrite fold_left_app, <- Hc, IHl.
Qed.

(** *** The indices after a sequence of visits *)

Definition visit_elements (l : list nat) (v : Visit) : list nat :=
  match v with
  | VisitElement el => set_add el l
  | VisitShadow _ _ _ => l
  end.

Definition visit_observers (m : gmap nat MutationObserver) (v : Visit)
  : gmap nat MutationObserver :=
  match v with
  | VisitElement _ => m
  | VisitShadow host sr _ =>
      if bool_decide (is_Some (m !! host)) then m
      else <[host := mkObserver [ObservedShadowRoot sr]]> m
  end.

Definition visit_shadowRoots (l : list nat) (v : Visit) : list nat :=
  match v with
  | VisitElement _ => l
  | VisitShadow _ sr _ => set_add sr l
  end.

Definition visit_shadowSheets (l : list CSSStyleSheet) (v : Visit)
  : list CSSStyleSheet :=
  match v with
  | VisitElement _ => l
  | VisitShadow _ _ sheets =>
      fold_left (fun l' s => sheet_add s l') (List.filter (sameOrigin H) sheets) l
  end.

(** [w'] differs from [w] at most in the four indices [#traverse]
    maintains. *)
Definition index_only (w w' : World) : Prop :=
  w' = set_elements (elements w')
         (set_observers (observers w')
            (set_shadowRoots (shadowRoots w')
               (set_shadowSheets (shadowSheets w') w))).

Lemma index_only_refl w : index_only w w.
Proof. now destruct w. Qed.

Lemma index_only_trans w1 w2 w3 :
  index_only w1 w2 -> index_only w2 w3 -> index_only w1 w3.
Proof.
  unfold index_only. intros E12 E23.
  rewrite E23 at 1. rewrite E12 at 1. reflexivity.
Qed.

Lemma fold_sheets_spec (sheets : list CSSStyleSheet) :
  forall w,
    fold_left (fun w' s => set_shadowSheets (sheet_add s (shadowSheets w')) w') sheets w
    = set_shadowSheets (fold_left (fun l' s => sheet_add s l') sheets (shadowSheets w)) w.
Proof.
  induction sheets as [|s sheets IH]; intros w; simpl.
  - now destruct w.
  - rewrite IH. reflexivity.
Qed.

Lemma apply_visit_spec w v :
  apply_visit w v
  = set_elements (visit_elements (elements w) v)
      (set_observers (visit_observers (observers w) v)
         (set_shadowRoots (visit_shadowRoots (shadowRoots w) v)
            (set_shadowSheets (visit_shadowSheets (shadowSheets w) v) w))).
Proof.
  destruct v as [el|host sr sheets]; simpl.
  - now destruct w.
  - rewrite fold_sheets_spec.
    destruct (bool_decide (is_Some (observers w !! host))); now destruct w.
Qed.

Lemma index_spec (t : list Visit) :
  forall w,
    fold_left apply_visit t w
    = set_elements (fold_left visit_elements t (elements w))
        (set_observers (fold_left visit_observers t (observers w))
           (set_shadowRoots (fold_left visit_shadowRoots t (shadowRoots w))
              (set_shadowSheets (fold_left visit_shadowSheets t (shadowSheets w)) w))).
Proof.
  induction t as [|v t IH]; intros w; simpl.
  - now destruct w.
  - rewrite IH, apply_visit_spec. reflexivity.
Qed.

(** *** [#walk] as a sequence of visits *)

Definition walk_scope (root : Node) : list Node :=
  match node_shadowRoot root with
  | Some sr => shadow_content sr
  | None => node_children root
  end.

Definition walk_visits (root : Node) : list Visit :=
  (if isHTMLElement H (node_id root) then [VisitElement (node_id root)] else [])
  ++ flat_map trace (walk_scope root).

(** The hover rules found with the shadow sheets [sheets]. *)
Definition hover_rules_from (sheets : list CSSStyleSheet)
                            (m : list (string * string)) : list (string * string) :=
  fold_left (fun m' rule => map_set (fst rule) (snd rule) m')
            (hoverBorderRules H (document_styleSheets H ++ sheets)%list) m.

Lemma getHoverBorderColorRules_spec w :
  getHoverBorderColorRules H w
  = set_hoverColorRules (hover_rules_from (shadowSheets w) (hoverColorRules w)) w.
Proof.
  unfold getHoverBorderColorRules, hover_rules_from.
  generalize (hoverBorderRules H (document_styleSheets H ++ shadowSheets w)%list).
  intros rules. revert w.
  induction rules as [|r rules IH]; intros w; simpl.
  - now destruct w.
  - rewrite IH. reflexivity.
Qed.

Lemma walk_spec (root : Node) (w : World) :
  walk H root w
  = let w2 := fold_left apply_visit (walk_visits root) w in
    if preserveHoverBorderColor (config w)
    then set_hoverColorRules
           (hover_rules_from (shadowSheets w2) (hoverColorRules w)) w2
    else w2.
Proof.
  unfold walk, walk_visits. fold (walk_scope root).
  rewrite traverse_descendants_trace, fold_left_app.
  assert (forall w0,
             (if isHTMLElement H (node_id root)
              then set_elements (set_add (node_id root) (elements w0)) w0 else w0)
             = fold_left apply_visit
                 (if isHTMLElement H (node_id root)
                  then [VisitElement (node_id root)] else []) w0) as ->.
  { intros w0. now destruct (isHTMLElement H (node_id root)). }
  cbv zeta. rewrite <- fold_left_app.
  rewrite getHoverBorderColorRules_spec.
  rewrite !index_spec. reflexivity.
Qed.

End Index_facts.

(** ** Theming passes *)

(** Selector matching that does not look at the inline declarations and
    data attributes of the document, the only things the engine writes. *)
Definition stable_matching (H : Host) : Prop :=
  forall st st' el selector, matches H st el selector = matches H st' el selector.

(** The same for the selectors of a Filter Policy only: whether an element
    matches one of them does not depend on inline declarations and data
    attributes.  Type selectors, as in the default policy, are of this
    kind on every host. *)
Definition filter_stable (H : Host) (c : Config) : Prop :=
  forall st st' el selector,
    In selector (htmlFilterSet c) ->
    matches H st el selector = matches H st' el selector.

Lemma stable_filter (H : Host) (c : Config) : stable_matching H -> filter_stable H c.
Proof. intros Hst st st' el selector _. apply Hst. Qed.

Section Pass_facts.

Context (H : Host).

Implicit Types (w : World) (el e x y : nat).

Lemma only_el_marked y w w' x : only_el y w w' -> x <> y -> marked w' x = marked w x.
Proof.
  intros Ho Hne. unfold marked, dataset_get.
  now rewrite (only_el_inline_of _ _ _ _ Ho Hne).
Qed.

Lemma filtered_local w w' x :
  filter_stable H (config w) -> config w' = config w ->
  filtered H w' x = filtered H w x.
Proof.
  intros Hs Hc. unfold filtered. rewrite Hc. unfold filter_stable in Hs.
  induction (htmlFilterSet (config w)) as [|sel l IH]; simpl; [reflexivity|].
  rewrite IH by (intros st st' el s Hin; apply Hs; now right).
  now rewrite (Hs (inline w') (inline w) x sel) by now left.
Qed.

Lemma filtered_stable w w' x :
  stable_matching H -> config w' = config w -> filtered H w' x = filtered H w x.
Proof. intros Hs. apply filtered_local. now apply stable_filter. Qed.

Lemma darken_config w y : config (darken H w y) = config w.
Proof. apply (only_el_config y), darken_only_el. Qed.

(** A pass writes to the elements it goes through only. *)
Lemma pass_frame (els : list nat) e :
  ~ In e els ->
  forall w, inline (fold_left (darken H) els w) !! e = inline w !! e.
Proof.
  induction els as [|x els IH]; intros Hn w; simpl; [reflexivity|].
  rewrite IH by (intros Hin; apply Hn; now right).
  destruct (darken_only_el H w x) as [_ F]. apply F.
  intros ->. apply Hn. now left.
Qed.

Lemma darken_marked_mono w x y : marked w x = true -> marked (darken H w y) x = true.
Proof.
  intros Hm. destruct (decide (x = y)) as [-> |Hne].
  - unfold darken. destruct (negb (filtered H w y)); auto.
    pose proof (darkBackground_inline H w y) as Hi.
    destruct (darkBackground H w y) as [d w1]; simpl in Hi.
    assert (marked w1 y = true) as Hm1.
    { unfold marked, dataset_get, inline_of in *. now rewrite Hi. }
    unfold marked in Hm1. rewrite Hm1; simpl. exact Hm1.
  - now rewrite (only_el_marked y w _ x (darken_only_el H w y) Hne).
Qed.

Lemma darken_cache_mono w y :
  JS.truthy (backgroundColor w) = true ->
  backgroundColor (darken H w y) = backgroundColor w.
Proof.
  intros Hc. unfold darken. destruct (negb (filtered H w y)); auto.
  pose proof (darkBackground_snd H w y) as Hs.
  destruct (darkBackground H w y) as [d w1]; simpl in Hs.
  rewrite Hc, andb_false_r in Hs. subst w1.
  destruct (negb _); auto. apply darken_apply_backgroundColor.
Qed.

Lemma darken_settled_mono w x y : settled H w x -> settled H (darken H w y) x.
Proof.
  intros [Hm Hc]. split; [now apply darken_marked_mono|].
  rewrite (only_el_is_root_tag H y w _ x (darken_only_el H w y)).
  intros Hr. rewrite darken_cache_mono; auto.
Qed.

(** A pass over elements that are all filtered out or settled changes
    nothing. *)
Lemma pass_fixpoint (els : list nat) w :
  (forall x, In x els -> filtered H w x = true \/ settled H w x) ->
  fold_left (darken H) els w = w.
Proof.
  induction els as [|x els IH]; intros Hall; simpl; [reflexivity|].
  assert (darken H w x = w) as ->.
  { destruct (Hall x) as [Hf|Hs]; [now left| |].
    - now apply darken_filtered.
    - now apply darken_settled. }
  apply IH. intros y Hy. apply Hall. now right.
Qed.

Lemma pass_only (els : list nat) :
  forall w,
    fold_left (darken H) els w
    = set_inline (inline (fold_left (darken H) els w))
        (set_backgroundColor (backgroundColor (fold_left (darken H) els w)) w).
Proof.
  induction els as [|x els IH]; intros w; simpl.
  - now destruct w.
  - rewrite IH at 1. destruct (darken_only_el H w x) as [E _].
    rewrite E at 3. reflexivity.
Qed.

Lemma pass_preserves (els : list nat) :
  forall w x,
    filter_stable H (config w) ->
    filtered H w x = true \/ settled H w x ->
    filtered H (fold_left (darken H) els w) x = true
    \/ settled H (fold_left (darken H) els w) x.
Proof.
  induction els as [|y els IH]; intros w x Hst Hx; simpl; [exact Hx|].
  apply IH; [now rewrite darken_config|]. destruct Hx as [Hf|Hs].
  - left. rewrite (filtered_local w (darken H w y)); auto.
    apply darken_config.
  - right. now apply darken_settled_mono.
Qed.

(** After a pass every element it went through is filtered out or
    settled. *)
Lemma pass_settles (els : list nat) :
  forall w x,
    filter_stable H (config w) ->
    In x els ->
    filtered H (fold_left (darken H) els w) x = true
    \/ settled H (fold_left (darken H) els w) x.
Proof.
  induction els as [|y els IH]; intros w x Hst Hin; simpl; [destruct Hin|].
  destruct Hin as [-> |Hin]; [|apply IH; [now rewrite darken_config|exact Hin]].
  apply pass_preserves; [now rewrite darken_config|].
  destruct (filtered H w x) eqn:Hf.
  - left. now rewrite darken_filtered.
  - right. now apply darken_settles.
Qed.

(** An element the Filter Policy excludes is not written by a pass. *)
Lemma pass_filtered (els : list nat) :
  forall w e,
    filter_stable H (config w) ->
    filtered H w e = true ->
    inline (fold_left (darken H) els w) !! e = inline w !! e.
Proof.
  induction els as [|y els IH]; intros w e Hst Hf; simpl; [reflexivity|].
  rewrite IH.
  - destruct (decide (e = y)) as [-> |Hne].
    + now rewrite darken_filtered.
    + destruct (darken_only_el H w y) as [_ F]. now apply F.
  - now rewrite darken_config.
  - rewrite (filtered_local w (darken H w y)); auto.
    apply darken_config.
Qed.

(** The pass treats a member once: an element that matches the Filter
    Policy when the pass reaches it is not written, before or after. *)
Lemma pass_excludes (before after : list nat) e :
  ~ In e before -> ~ In e after ->
  forall w,
    filtered H (fold_left (darken H) before w) e = true ->
    inline (fold_left (darken H) (before ++ e :: after) w) !! e = inline w !! e.
Proof.
  intros Hb Ha w Hf. rewrite fold_left_app. cbn [fold_left].
  rewrite pass_frame by exact Ha.
  rewrite darken_filtered by exact Hf.
  now apply pass_frame.
Qed.

(** [#update] adopts the engine sheet in every shadow root. *)
Lemma adopt_only (srs : list nat) :
  forall w,
    fold_left adopt srs w
    = set_shadow_adoptedStyleSheets
        (shadow_adoptedStyleSheets (fold_left adopt srs w)) w.
Proof.
  induction srs as [|sr srs IH]; intros w; simpl.
  - now destruct w.
  - rewrite IH at 1. reflexivity.
Qed.

End Pass_facts.

(** ** Restoring *)

Section Undarken_facts.

Implicit Types (w : World) (el e : nat) (key prop k p : string).

(** What the snapshot [key] restores: its value, or nothing. *)
Definition snapshot (w : World) (el : nat) (key : string) : option string :=
  if JS.truthy_opt (dataset_get w el key) then dataset_get w el key else None.

Lemma truthy_opt_Some (o : option string) :
  JS.truthy_opt o = true -> exists v, o = Some v /\ JS.truthy v = true.
Proof. destruct o as [v|]; simpl; [eauto|discriminate]. Qed.

Lemma restore_only_el el key prop w : only_el el w (restore el key prop w).
Proof.
  unfold restore. destruct (JS.truthy_opt _); auto with frame.
  eapply only_el_trans; [apply only_el_setProperty|apply only_el_dataset_delete].
Qed.

Lemma restore_backgroundColor el key prop w :
  backgroundColor (restore el key prop w) = backgroundColor w.
Proof. unfold restore. now destruct (JS.truthy_opt _). Qed.

Lemma restore_dataset_ne el key prop k w :
  k <> key -> dataset_get (restore el key prop w) el k = dataset_get w el k.
Proof.
  intros Hne. unfold restore. destruct (JS.truthy_opt _).
  - rewrite dataset_get_delete_ne, dataset_get_setProperty; auto.
  - apply dataset_get_removeProperty.
Qed.

Lemma restore_style_ne el key prop p w :
  p <> prop -> style_lookup (restore el key prop w) el p = style_lookup w el p.
Proof.
  intros Hne. unfold restore. destruct (JS.truthy_opt _).
  - rewrite style_lookup_dataset_delete, style_lookup_setProperty_ne; auto.
  - rewrite style_lookup_removeProperty_ne; auto.
Qed.

Lemma restore_style_eq el key prop w :
  style_lookup (restore el key prop w) el prop = snapshot w el key.
Proof.
  unfold restore, snapshot. destruct (JS.truthy_opt _) eqn:Et.
  - destruct (truthy_opt_Some _ Et) as (v & Ev & Hv). rewrite Ev; simpl.
    rewrite style_lookup_dataset_delete. now apply style_lookup_setProperty_eq.
  - apply style_lookup_removeProperty_eq.
Qed.

Lemma undarken_unmarked w el : marked w el = false -> undarken w el = w.
Proof. intros Hm. unfold undarken. unfold marked in Hm. now rewrite Hm. Qed.

Lemma undarken_only_el w el : only_el el w (undarken w el).
Proof.
  unfold undarken. destruct (bool_decide _); auto with frame.
  assert (only_el el w
            (restore el "originalBorderColor" "border-color"
               (restore el "originalBgColor" "background-color"
                  (restore el "originalColor" "color"
                     (dataset_delete el "lightsOut" w))))) as H4.
  { repeat (eapply only_el_trans; [|apply restore_only_el]). auto with frame. }
  destruct (JS.truthy_opt _); [|exact H4].
  eapply only_el_trans; [exact H4|].
  eapply only_el_trans; [apply only_el_dataset_delete|apply restore_only_el].
Qed.

Lemma undarken_backgroundColor w el :
  backgroundColor (undarken w el) = backgroundColor w.
Proof.
  unfold undarken. destruct (bool_decide _); auto.
  assert (forall k w0, backgroundColor (dataset_delete el k w0) = backgroundColor w0)
    as Hd by reflexivity.
  destruct (JS.truthy_opt _);
    repeat first [rewrite restore_backgroundColor | rewrite Hd ]; reflexivity.
Qed.

(** [#undarken] removes the marker. *)
Lemma undarken_unmarks w el : marked (undarken w el) el = false.
Proof.
  destruct (marked w el) eqn:Hm; [|now rewrite undarken_unmarked].
  unfold undarken. unfold marked in Hm. rewrite Hm. unfold marked.
  apply bool_decide_eq_false_2.
  destruct (JS.truthy_opt _).
  - rewrite restore_dataset_ne, dataset_get_delete_ne by discriminate.
    rewrite !restore_dataset_ne by discriminate.
    now rewrite dataset_get_delete_eq.
  - rewrite !restore_dataset_ne by discriminate.
    now rewrite dataset_get_delete_eq.
Qed.

(** The three colour declarations after [#undarken] of a marked element:
    each is what its snapshot holds, and is removed when there is no
    snapshot. *)
Lemma undarken_style w el :
  marked w el = true ->
  style_lookup (undarken w el) el "color" = snapshot w el "originalColor"
  /\ style_lookup (undarken w el) el "background-color"
     = snapshot w el "originalBgColor"
  /\ style_lookup (undarken w el) el "border-color"
     = snapshot w el "originalBorderColor".
Proof.
  intros Hm. unfold undarken. unfold marked in Hm. rewrite Hm.
  set (w1 := dataset_delete el "lightsOut" w).
  assert (forall k, k <> "lightsOut" -> dataset_get w1 el k = dataset_get w el k) as Hd.
  { intros k Hk. unfold w1. now rewrite dataset_get_delete_ne. }
  assert (forall key, key <> "lightsOut" -> snapshot w1 el key = snapshot w el key) as Hs.
  { intros key Hk. unfold snapshot. now rewrite Hd. }
  assert (forall p,
             p <> "background-image" ->
             style_lookup
               (if JS.truthy_opt
                     (dataset_get
                        (restore el "originalBorderColor" "border-color"
                           (restore el "originalBgColor" "background-color"
                              (restore el "originalColor" "color" w1)))
                        el "lightsOutGradient")
                then restore el "originalBgImage" "background-image"
                       (dataset_delete el "lightsOutGradient"
                          (restore el "originalBorderColor" "border-color"
                             (restore el "originalBgColor" "background-color"
                                (restore el "originalColor" "color" w1))))
                else restore el "originalBorderColor" "border-color"
                       (restore el "originalBgColor" "background-color"
                          (restore el "originalColor" "color" w1)))
               el p
             = style_lookup
                 (restore el "originalBorderColor" "border-color"
                    (restore el "originalBgColor" "background-color"
                       (restore el "originalColor" "color" w1))) el p) as Hg.
  { intros p Hp. destruct (JS.truthy_opt _); [|reflexivity].
    now rewrite restore_style_ne, style_lookup_dataset_delete. }
  rewrite !Hg by discriminate.
  repeat split.
  - rewrite !restore_style_ne by discriminate.
    rewrite restore_style_eq. now apply Hs.
  - rewrite restore_style_ne by discriminate.
    rewrite restore_style_eq. unfold snapshot.
    rewrite restore_dataset_ne by discriminate. now apply Hs.
  - rewrite restore_style_eq. unfold snapshot.
    rewrite !restore_dataset_ne by discriminate. now apply Hs.
Qed.

(** Restoring a list of elements leaves none of them marked, and does
    nothing when none was marked. *)
Lemma unpass_fixpoint (els : list nat) w :
  (forall x, In x els -> marked w x = false) ->
  fold_left undarken els w = w.
Proof.
  induction els as [|x els IH]; intros Hall; simpl; [reflexivity|].
  rewrite undarken_unmarked by (apply Hall; now left).
  apply IH. intros y Hy. apply Hall. now right.
Qed.

Lemma undarken_unmarked_mono w x y :
  marked w x = false -> marked (undarken w y) x = false.
Proof.
  intros Hm. destruct (decide (x = y)) as [-> |Hne].
  - apply undarken_unmarks.
  - now rewrite (only_el_marked y w _ x (undarken_only_el w y) Hne).
Qed.

Lemma unpass_unmarks (els : list nat) :
  forall w x,
    (In x els \/ marked w x = false) ->
    marked (fold_left undarken els w) x = false.
Proof.
  induction els as [|y els IH]; intros w x Hx; simpl.
  - destruct Hx as [[]|Hm]; exact Hm.
  - apply IH. destruct Hx as [[-> |Hin]|Hm].
    + right. apply undarken_unmarks.
    + now left.
    + right. now apply undarken_unmarked_mono.
Qed.

Lemma unpass_only (els : list nat) :
  forall w,
    fold_left undarken els w = set_inline (inline (fold_left undarken els w)) w.
Proof.
  induction els as [|x els IH]; intros w; simpl.
  - now destruct w.
  - rewrite IH at 1. destruct (undarken_only_el w x) as [E _].
    rewrite E at 2. rewrite undarken_backgroundColor.
    now destruct w.
Qed.

End Undarken_facts.

(** ** The observer registry *)

Section Observer_facts.

Context (H : Host).

Implicit Types (m : gmap nat MutationObserver) (t : list Visit) (k : nat).

(** The hosts whose shadow root a sequence of visits reaches. *)
Definition visit_hosts (t : list Visit) : list nat :=
  flat_map (fun v => match v with
                     | VisitElement _ => []
                     | VisitShadow host _ _ => [host]
                     end) t.

Lemma visit_observers_union m v :
  visit_observers m v = m ∪ visit_observers ∅ v.
Proof.
  destruct v as [el|host sr sheets]; simpl.
  - now rewrite (right_id_L ∅ (∪)).
  - rewrite lookup_empty.
    rewrite (bool_decide_eq_false_2 (is_Some None)) by (intros [? ?]; discriminate).
    rewrite insert_empty.
    destruct (bool_decide (is_Some (m !! host))) eqn:E.
    + apply bool_decide_eq_true_1 in E. apply map_eq. intros i.
      destruct (decide (i = host)) as [-> |Hne].
      * now rewrite lookup_union_l'.
      * rewrite lookup_union_l; auto. now apply lookup_singleton_ne.
    + apply bool_decide_eq_false_1 in E.
      apply insert_union_singleton_r.
      destruct (m !! host) eqn:El; auto. exfalso. apply E. eauto.
Qed.

Lemma fold_observers_union t :
  forall m n,
    fold_left visit_observers t (m ∪ n) = m ∪ fold_left visit_observers t n.
Proof.
  induction t as [|v t IH]; intros m n; simpl; [reflexivity|].
  rewrite (visit_observers_union (m ∪ n)), (visit_observers_union n).
  rewrite <- (assoc_L (∪)). apply IH.
Qed.

(** The registry after indexing: what was registered, and then the
    observers of the shadow roots reached. *)
Lemma fold_observers_split t m :
  fold_left visit_observers t m = m ∪ fold_left visit_observers t ∅.
Proof.
  rewrite <- (right_id_L ∅ (∪) m) at 1. apply fold_observers_union.
Qed.

Lemma fold_observers_hosts t :
  forall m k,
    is_Some (fold_left visit_observers t m !! k) ->
    is_Some (m !! k) \/ In k (visit_hosts t).
Proof.
  induction t as [|v t IH]; intros m k Hk; simpl in *; [now left|].
  destruct (IH _ _ Hk) as [Hm|Hin].
  - destruct v as [el|host sr sheets]; simpl in *; [now left|].
    destruct (bool_decide (is_Some (m !! host))); [now left|].
    destruct (decide (k = host)) as [-> |Hne]; [right; now left|].
    left. now rewrite lookup_insert_ne in Hm.
  - right. apply in_or_app. now right.
Qed.

(** [#clear] keeps the observers of connected hosts. *)
Definition gc (m : gmap nat MutationObserver) : gmap nat MutationObserver :=
  filter (fun entry => isConnected H (fst entry) = true) m.

Lemma gc_lookup m k :
  gc m !! k = if isConnected H k then m !! k else None.
Proof.
  unfold gc. destruct (isConnected H k) eqn:Ec.
  - destruct (m !! k) as [o|] eqn:Em.
    + apply map_lookup_filter_Some. auto.
    + apply map_lookup_filter_None. left. exact Em.
  - apply map_lookup_filter_None. right. intros o _. simpl. congruence.
Qed.

(** Collecting garbage and indexing again rebuilds the same registry. *)
Lemma gc_reindex m n : gc (gc m ∪ n) ∪ n = gc m ∪ n.
Proof.
  apply map_eq. intros k.
  rewrite !lookup_union, !gc_lookup, lookup_union, gc_lookup.
  destruct (isConnected H k); [|reflexivity].
  destruct (m !! k), (n !! k); reflexivity.
Qed.

(** The hosts a traversal reaches belong to the tree. *)
Lemma visit_hosts_app t1 t2 : visit_hosts (t1 ++ t2) = (visit_hosts t1 ++ visit_hosts t2)%list.
Proof. unfold visit_hosts. apply flat_map_app. Qed.

Lemma visit_hosts_flat_map {A : Type} (f : A -> list Visit) (g : A -> list nat)
      (l : list A) k :
  Forall (fun a => In k (visit_hosts (f a)) -> In k (g a)) l ->
  In k (visit_hosts (flat_map f l)) -> In k (flat_map g l).
Proof.
  induction 1 as [|a l Ha _ IH]; simpl; [auto|].
  rewrite visit_hosts_app. intros Hin. apply in_app_or in Hin.
  apply in_or_app. destruct Hin; auto.
Qed.

Lemma trace_hosts (node : Node) k :
  In k (visit_hosts (trace H node)) -> In k (tree_ids node).
Proof.
  induction node as [id children sr IHc IHs] using Node_induction.
  simpl. rewrite visit_hosts_app. intros Hin.
  apply in_app_or in Hin. destruct Hin as [Hin|Hin].
  - destruct (isHTMLElement H id); [|destruct Hin].
    destruct sr as [[sid sheets content]|]; [|destruct Hin].
    simpl in Hin. destruct Hin as [-> |Hin]; [now left|].
    right. apply in_or_app. right.
    now apply (visit_hosts_flat_map (trace H) tree_ids).
  - right. apply in_or_app. left.
    now apply (visit_hosts_flat_map (trace H) tree_ids).
Qed.

Lemma walk_hosts (root : Node) k :
  In k (visit_hosts (walk_visits H root)) -> In k (tree_ids root).
Proof.
  unfold walk_visits, walk_scope. rewrite visit_hosts_app. intros Hin.
  apply in_app_or in Hin. destruct Hin as [Hin|Hin].
  - destruct (isHTMLElement H (node_id root)); destruct Hin as [].
  - destruct root as [id children sr]; simpl in *.
    right. apply in_or_app.
    destruct sr as [[sid sheets content]|]; simpl in *.
    + right. apply (visit_hosts_flat_map (trace H) tree_ids); auto.
      apply Forall_forall. intros n _. apply trace_hosts.
    + left. apply (visit_hosts_flat_map (trace H) tree_ids); auto.
      apply Forall_forall. intros n _. apply trace_hosts.
Qed.

End Observer_facts.

(** ** The Membership Set *)

Section Membership_facts.

Context (H : Host).

Implicit Types (t : list Visit) (l : list nat) (x : nat).

Lemma set_add_In x y l : In x (set_add y l) <-> In x l \/ x = y.
Proof.
  unfold set_add. destruct (bool_decide (y ∈ l)) eqn:E.
  - apply bool_decide_eq_true_1, list_elem_of_In in E.
    split; [auto|]. intros [Hx| ->]; auto.
  - rewrite in_app_iff. simpl. split.
    + intros [Hx|[-> |[]]]; auto.
    + intros [Hx| ->]; auto.
Qed.

Lemma fold_elements_In t :
  forall l x,
    In x (fold_left visit_elements t l) <-> In x l \/ In (VisitElement x) t.
Proof.
  induction t as [|v t IH]; intros l x; simpl.
  - split; [auto|]. intros [Hx|[]]; auto.
  - rewrite IH. destruct v as [el|host sr sheets]; simpl.
    + rewrite set_add_In. split.
      * intros [[Hx| ->]|Hx]; auto.
      * intros [Hx|[E|Hx]]; auto. injection E as ->. auto.
    + split.
      * intros [Hx|Hx]; auto.
      * intros [Hx|[E|Hx]]; auto. discriminate.
Qed.

Lemma set_add_NoDup x l : NoDup l -> NoDup (set_add x l).
Proof.
  intros Hl. unfold set_add. destruct (bool_decide (x ∈ l)) eqn:E; [exact Hl|].
  apply bool_decide_eq_false_1 in E.
  apply NoDup_app. split; [exact Hl|]. split.
  - intros y Hy Hy'. apply list_elem_of_singleton in Hy'. now subst.
  - apply NoDup_singleton.
Qed.

Lemma fold_elements_NoDup t : forall l, NoDup l -> NoDup (fold_left visit_elements t l).
Proof.
  induction t as [|v t IH]; intros l Hl; simpl; [exact Hl|].
  apply IH. destruct v; simpl; [now apply set_add_NoDup|exact Hl].
Qed.

Lemma In_flat_map_Forall {A B : Type} (f : A -> list B) (P : B -> Prop) (l : list A) :
  Forall (fun a => forall b, In b (f a) -> P b) l ->
  forall b, In b (flat_map f l) -> P b.
Proof.
  induction 1 as [|a l Ha _ IH]; simpl; intros b Hb; [destruct Hb|].
  apply in_app_or in Hb. destruct Hb; auto.
Qed.

(** Only HTML elements of the tree are visited as elements. *)
Lemma trace_elements (node : Node) x :
  In (VisitElement x) (trace H node) ->
  isHTMLElement H x = true /\ In x (tree_ids node).
Proof.
  revert x.
  induction node as [id children sr IHc IHs] using Node_induction.
  intros x. simpl. intros Hin. apply in_app_or in Hin.
  destruct Hin as [Hin|Hin].
  - destruct (isHTMLElement H id) eqn:Eh; [|destruct Hin].
    destruct Hin as [E|Hin]; [injection E as <-; auto|].
    destruct sr as [[sid sheets content]|]; [|destruct Hin].
    destruct Hin as [E|Hin]; [discriminate|].
    simpl in IHs.
    assert (isHTMLElement H x = true /\ In x (flat_map tree_ids content)) as [Hh Ht].
    { revert Hin. generalize x. clear x.
      induction IHs as [|c l Hc _ IHl]; simpl; intros x Hin; [destruct Hin|].
      apply in_app_or in Hin. destruct Hin as [Hin|Hin].
      - destruct (Hc _ Hin). split; auto. apply in_or_app. now left.
      - destruct (IHl _ Hin). split; auto. apply in_or_app. now right. }
    split; auto. right. apply in_or_app. now right.
  - assert (isHTMLElement H x = true /\ In x (flat_map tree_ids children)) as [Hh Ht].
    { revert Hin. generalize x. clear x.
      induction IHc as [|c l Hc _ IHl]; simpl; intros x Hin; [destruct Hin|].
      apply in_app_or in Hin. destruct Hin as [Hin|Hin].
      - destruct (Hc _ Hin). split; auto. apply in_or_app. now left.
      - destruct (IHl _ Hin). split; auto. apply in_or_app. now right. }
    split; auto. right. apply in_or_app. now left.
Qed.

(** Every HTML element among a node and its descendants is visited. *)
Lemma trace_complete (node : Node) :
  forall n,
    In n (inclusiveDescendants node) ->
    isHTMLElement H (node_id n) = true ->
    In (VisitElement (node_id n)) (trace H node).
Proof.
  induction node as [id children sr IHc _] using Node_induction.
  intros n Hin Hh. simpl in Hin. destruct Hin as [<-|Hin].
  - simpl in *. rewrite Hh. now left.
  - simpl. apply in_or_app. right.
    induction IHc as [|c l Hc _ IHl]; simpl in *; [destruct Hin|].
    apply in_app_or in Hin. apply in_or_app. destruct Hin as [Hin|Hin]; auto.
Qed.

Lemma walk_visits_elements (root : Node) x :
  In (VisitElement x) (walk_visits H root) ->
  isHTMLElement H x = true /\ In x (tree_ids root).
Proof.
  unfold walk_visits, walk_scope. intros Hin. apply in_app_or in Hin.
  destruct root as [id children sr]; simpl in *.
  destruct Hin as [Hin|Hin].
  - destruct (isHTMLElement H id) eqn:Eh; [|destruct Hin].
    destruct Hin as [E|[]]. injection E as <-. auto.
  - assert (forall cs : list Node,
               In (VisitElement x) (flat_map (trace H) cs) ->
               isHTMLElement H x = true /\ In x (flat_map tree_ids cs)) as Hl.
    { induction cs as [|c cs IHl]; simpl; intros Hx; [destruct Hx|].
      apply in_app_or in Hx. destruct Hx as [Hx|Hx].
      - destruct (trace_elements c x Hx). split; auto. apply in_or_app. now left.
      - destruct (IHl Hx). split; auto. apply in_or_app. now right. }
    destruct sr as [[sid sheets content]|]; simpl in *.
    + destruct (Hl _ Hin). split; auto. right. apply in_or_app. now right.
    + destruct (Hl _ Hin). split; auto. right. apply in_or_app. now left.
Qed.

Lemma walk_visits_complete (root : Node) (n : Node) :
  n = root \/ In n (querySelectorAll (walk_scope root)) ->
  isHTMLElement H (node_id n) = true ->
  In (VisitElement (node_id n)) (walk_visits H root).
Proof.
  intros Hn Hh. unfold walk_visits. apply in_or_app.
  destruct Hn as [-> |Hn].
  - left. rewrite Hh. now left.
  - right. unfold querySelectorAll in Hn.
    induction (walk_scope root) as [|c l IHl]; simpl in *; [destruct Hn|].
    apply in_app_or in Hn. apply in_or_app. destruct Hn as [Hn|Hn]; auto.
    left. now apply trace_complete.
Qed.

End Membership_facts.

(** ** Lifecycle *)

(** The engine and the inline state of the document: everything but the
    lists of adopted style sheets. *)
Definition engine_view (w : World) : World :=
  set_document_adoptedStyleSheets [] (set_shadow_adoptedStyleSheets ∅ w).

Section Lifecycle_facts.

Context (H : Host).

Implicit Types (w : World) (root : Node) (x : nat).

Lemma filtered_ext w w' x :
  inline w' = inline w -> config w' = config w -> filtered H w' x = filtered H w x.
Proof. intros Hi Hc. unfold filtered. now rewrite Hi, Hc. Qed.

Lemma settled_ext w w' x :
  inline w' = inline w -> backgroundColor w' = backgroundColor w ->
  pageRoot w' = pageRoot w -> settled H w x -> settled H w' x.
Proof.
  intros Hi Hb Hp [Hm Hc]. unfold settled, marked, is_root_tag, dataset_get, inline_of in *.
  now rewrite Hi, Hb, Hp.
Qed.

Lemma marked_ext w w' x : inline w' = inline w -> marked w' x = marked w x.
Proof. intros Hi. unfold marked, dataset_get, inline_of. now rewrite Hi. Qed.

(** The world after [#clear] and [#walk]. *)
Definition indexed root w : World :=
  let t := walk_visits H root in
  let sheets := fold_left (visit_shadowSheets H) t [] in
  set_elements (fold_left visit_elements t [])
    (set_observers (fold_left visit_observers t (gc H (observers w)))
       (set_shadowRoots (fold_left visit_shadowRoots t [])
          (set_shadowSheets sheets
             (set_hoverColorRules
                (if preserveHoverBorderColor (config w)
                 then hover_rules_from H sheets [] else []) w)))).

Lemma walk_clear root w : walk H root (clear H w) = indexed root w.
Proof.
  rewrite walk_spec. cbv zeta. rewrite index_spec.
  unfold indexed, clear, gc.
  destruct w as [c e s els obs srs sss hov pr po bg inl da sa]; simpl.
  now destruct (preserveHoverBorderColor c).
Qed.

(** The world after the theming pass of [#update]. *)
Definition themed root w : World :=
  fold_left (darken H) (elements (indexed root w)) (indexed root w).

Lemma update_themed root w :
  update H root w = fold_left adopt (shadowRoots (themed root w)) (themed root w).
Proof. unfold update, themed. cbv zeta. now rewrite walk_clear. Qed.

Lemma update_shape root w :
  update H root w
  = set_shadow_adoptedStyleSheets (shadow_adoptedStyleSheets (update H root w))
      (set_inline (inline (themed root w))
         (set_backgroundColor (backgroundColor (themed root w)) (indexed root w))).
Proof.
  rewrite update_themed at 1. rewrite adopt_only, <- update_themed.
  unfold themed at 1. now rewrite pass_only.
Qed.

Lemma observe_idempotent (t : ObservedNode) (o : MutationObserver) :
  observe t (observe t o) = observe t o.
Proof.
  unfold observe at 2.
  destruct (existsb _ (observing o)) eqn:E.
  - unfold observe. now rewrite E.
  - unfold observe. simpl. rewrite existsb_app. simpl.
    replace (match t with
             | ObservedElement a =>
                 match t with
                 | ObservedElement b => bool_decide (a = b)
                 | ObservedShadowRoot _ => false
                 end
             | ObservedShadowRoot a =>
                 match t with
                 | ObservedElement _ => false
                 | ObservedShadowRoot b => bool_decide (a = b)
                 end
             end) with true.
    + rewrite E. reflexivity.
    + destruct t; symmetry; now apply bool_decide_eq_true_2.
Qed.

Lemma themed_shape root w :
  themed root w
  = set_inline (inline (themed root w))
      (set_backgroundColor (backgroundColor (themed root w)) (indexed root w)).
Proof. unfold themed at 1. now rewrite pass_only. Qed.

Lemma themed_config root w : config (themed root w) = config (indexed root w).
Proof. now rewrite themed_shape. Qed.

Lemma themed_pageRoot root w : pageRoot (themed root w) = pageRoot (indexed root w).
Proof. now rewrite themed_shape. Qed.

(** Every element of the Membership Set is filtered out or settled once
    [#update] has run. *)
Lemma update_settles root w x :
  filter_stable H (config w) ->
  In x (elements (update H root w)) ->
  filtered H (update H root w) x = true \/ settled H (update H root w) x.
Proof.
  intros Hst. rewrite update_shape.
  set (sa := shadow_adoptedStyleSheets (update H root w)).
  intros Hin.
  assert (In x (elements (indexed root w))) as Hin' by exact Hin.
  destruct (pass_settles H (elements (indexed root w)) (indexed root w) x Hst Hin')
    as [Hf|Hs]; fold (themed root w) in *.
  - left. rewrite <- Hf. apply filtered_ext; [reflexivity|].
    symmetry. apply themed_config.
  - right. revert Hs. apply settled_ext; try reflexivity.
    symmetry. apply themed_pageRoot.
Qed.

(** A second [#update] of the same root, whatever was adopted in
    between, finds the indices as they are. *)
Lemma update_reindex root w (adopted : list SheetRef) :
  indexed root (set_document_adoptedStyleSheets adopted (update H root w))
  = set_document_adoptedStyleSheets adopted (update H root w).
Proof.
  set (U := update H root w).
  set (U' := set_document_adoptedStyleSheets adopted U).
  { unfold U', U. rewrite update_shape.
    generalize (shadow_adoptedStyleSheets (update H root w)) as sa.
    generalize (inline (themed root w)) as inl.
    generalize (backgroundColor (themed root w)) as bg.
    intros bg inl sa. unfold indexed. cbv zeta.
    change (observers
              (set_document_adoptedStyleSheets adopted
                 (set_shadow_adoptedStyleSheets sa
                    (set_inline inl (set_backgroundColor bg _)))))
      with (fold_left visit_observers (walk_visits H root) (gc H (observers w))).
    rewrite (fold_observers_split _ (gc H (fold_left _ _ _))).
    rewrite (fold_observers_split _ (gc H (observers w))).
    rewrite gc_reindex.
    generalize (fold_left visit_elements (walk_visits H root) []).
    generalize (gc H (observers w) ∪ fold_left visit_observers (walk_visits H root) ∅).
    generalize (fold_left visit_shadowRoots (walk_visits H root) []).
    generalize (hover_rules_from H
                  (fold_left (visit_shadowSheets H) (walk_visits H root) []) []).
    generalize (fold_left (visit_shadowSheets H) (walk_visits H root) []).
    intros sheets hov srs obs els. clear U U'.
    destruct w; world_simpl; reflexivity. }
Qed.

(** It can differ from the first in the inline state of the document,
    the cache and the adopted sheets only. *)
Lemma update_twice_frame root w (adopted : list SheetRef) :
  let U := update H root w in
  let U2 := update H root (set_document_adoptedStyleSheets adopted U) in
  engine_view U2
  = engine_view (set_inline (inline U2) (set_backgroundColor (backgroundColor U2) U)).
Proof.
  intros U U2. unfold U2. rewrite update_shape. unfold themed.
  pose proof (update_reindex root w adopted) as E. fold U in E. rewrite E. clear E.
  generalize (inline
                (fold_left (darken H)
                   (elements (set_document_adoptedStyleSheets adopted U))
                   (set_document_adoptedStyleSheets adopted U))).
  generalize (backgroundColor
                (fold_left (darken H)
                   (elements (set_document_adoptedStyleSheets adopted U))
                   (set_document_adoptedStyleSheets adopted U))).
  generalize (shadow_adoptedStyleSheets
                (update H root (set_document_adoptedStyleSheets adopted U))).
  intros sa b i. clear U2. generalize U. clear U. intros U.
  unfold engine_view. destruct U; world_simpl; reflexivity.
Qed.

(** With a Filter Policy that does not look at inline state, it finds
    nothing left to theme. *)
Lemma update_twice root w (adopted : list SheetRef) :
  filter_stable H (config w) ->
  engine_view
    (update H root (set_document_adoptedStyleSheets adopted (update H root w)))
  = engine_view (update H root w).
Proof.
  intros Hst.
  set (U := update H root w).
  set (U' := set_document_adoptedStyleSheets adopted U).
  assert (indexed root U' = U') as Hidx by apply update_reindex.
  assert (themed root U' = U') as Hth.
  { unfold themed. rewrite Hidx. apply pass_fixpoint.
    intros x Hx.
    destruct (update_settles root w x Hst Hx) as [Hf|Hs]; fold U in Hf || fold U in Hs.
    - left. rewrite <- Hf. now apply filtered_ext.
    - right. revert Hs. now apply settled_ext. }
  rewrite update_themed, Hth, adopt_only.
  unfold U'. reflexivity.
Qed.

End Lifecycle_facts.

(** * Example documents *)

Module Examples.

(** [LightsOut.defaultFilterSelectors] *)
Definition defaultFilterSelectors : list string :=
  [ "html"; "head"; "title"; "meta"; "script"; "style"; "link"; "iframe";
    "svg"; "img"; "canvas"; "video"; "audio" ].

(** [<body>] with a [<div>], an [<img>], a [<div>] hosting a shadow root
    with one [<span>], and an [<svg>]. *)
Definition page : Node :=
  Element 1
    [ Element 2 [] None;
      Element 3 [] None;
      Element 4 [] (Some (Shadow 40 [] [Element 5 [] None]));
      Element 6 [] None ] None.

(** A tree that is not attached to the document: a [<div>] whose child
    hosts a shadow root. *)
Definition detached : Node :=
  Element 7 [ Element 8 [] (Some (Shadow 80 [] [Element 9 [] None])) ] None.

(** A theming root that is a [<div>], with a [<div>] child. *)
Definition app : Node := Element 2 [ Element 4 [] None ] None.

Definition config0 : Config :=
  mkConfig false 1 true defaultFilterSelectors "" None.

(** A freshly constructed engine on a document with inline state [st]. *)
Definition fresh (root : Node) (st : gmap nat Inline) : World :=
  mkWorld config0 false "" [] ∅ [] [] [] root (mkObserver []) "" st [] ∅.

Definition declared (l : list (string * string)) : Inline :=
  mkInline (list_to_map l) ∅.

Lemma demo_stable : stable_matching Demo.host.
Proof. intros st st' el sel. reflexivity. Qed.

(** The attribute-aware host looks at inline state, but not for the
    selectors of the default Filter Policy. *)
Lemma attr_unstable : ~ stable_matching Demo.host_attr.
Proof.
  intros Hst.
  specialize (Hst ∅ {[ 2 := mkInline ∅ {[ "lightsOut" := "true" ]} ]} 2 "[data-lights-out]").
  vm_compute in Hst. discriminate.
Qed.

Lemma attr_filter_stable : filter_stable Demo.host_attr config0.
Proof.
  intros st st' el sel Hin. unfold config0, defaultFilterSelectors in Hin.
  cbn [htmlFilterSet In] in Hin.
  repeat (destruct Hin as [<-|Hin]; [reflexivity|]). destruct Hin.
Qed.

End Examples.

(** * The claims *)

(** ** Contrast repair (C2) *)

(** The bound and postcondition as the specification words them. *)
Definition repair_claim (H : Host) (color darkBgColor : string) : Prop :=
  let r := repair H color darkBgColor in
  (readableAttempts r <= 10)%nat
  /\ (c_isReadable H (colored r) darkBgColor AAA = true
      \/ readableAttempts r = 10%nat).

(** C2, counterexample: mid-grey text on black passes the first test, made
    at level AA, so the loop never runs; yet the colour is not
    AAA-readable. *)
Lemma repair_claim_counterexample :
  ~ repair_claim Demo.host "#777777" "#000000".
Proof.
  unfold repair_claim. intros [_ [Hr|Hn]].
  - vm_compute in Hr. discriminate.
  - vm_compute in Hn. discriminate.
Qed.

(** C2, as amended: the repair loop exits, after at most 10 lightening
    steps of 0.05 each; on exit either no step was taken and the original
    colour is readable at the default level (AA), or steps were taken and
    the resulting colour is AAA-readable, or exactly 10 steps were
    taken. *)
Theorem repair_bounded (H : Host) (color darkBgColor : string) :
  let r := repair H color darkBgColor in
  repair_while H 10 darkBgColor (repair_init H color darkBgColor) = Some r
  /\ (readableAttempts r <= 10)%nat
  /\ colored r = lightened H (readableAttempts r) (colord H color)
  /\ ((readableAttempts r = 0%nat
       /\ c_isReadable H (colord H color) darkBgColor AA = true)
      \/ ((0 < readableAttempts r)%nat
          /\ c_isReadable H (colored r) darkBgColor AAA = true)
      \/ readableAttempts r = 10%nat).
Proof.
  intros r.
  pose proof (repair_while_total H color darkBgColor) as Htot. fold r in Htot.
  destruct (repair_while_exit H darkBgColor 10 (repair_init H color darkBgColor))
    as (r' & Hr & Hb & Hex & Hsame & Hlast & Hcol); simpl; try lia.
  rewrite Htot in Hr. injection Hr as <-. simpl in *.
  split; [exact Htot|]. split; [lia|]. split.
  - rewrite Hcol. now rewrite Nat.sub_0_r.
  - destruct Hex as [Hread|Hten]; [|now right; right].
    destruct (readableAttempts r) as [|n] eqn:En.
    + left. split; [reflexivity|]. rewrite (Hsame eq_refl) in Hread. exact Hread.
    + right. left. split; [lia|]. rewrite <- Hlast by lia. exact Hread.
Qed.

(** ** Idempotence of theming (C4) *)

(** C4: a second [#darken] of the same element, with no restore in
    between, changes nothing: the world (inline styles, snapshots, marker
    and cache) is the one the first call left. *)
Theorem darken_idempotent (H : Host) (w : World) (el : nat) :
  darken H (darken H w el) el = darken H w el.
Proof.
  destruct (filtered H w el) eqn:Hf.
  - now rewrite !(darken_filtered H w el Hf).
  - apply darken_settled, darken_settles, Hf.
Qed.

(** ** Exclusion (C5) *)

(** C5: an element that matches the Filter Policy is not written by a
    theming pass.  [#darken] leaves such an element, and the whole world,
    untouched.  A pass ([#update]) treats every member once: an element
    that matches the policy when the pass reaches it has the same inline
    styles and data attributes (snapshots and marker) after the pass as
    before it, on every host.  When the selectors of the policy do not
    look at inline state, it is enough that the element matches before the
    pass. *)
Theorem exclusion_invariant (H : Host) (w : World) (e : nat) :
  (filtered H w e = true -> darken H w e = w)
  /\ (forall root (before after : list nat),
         elements (walk H root (clear H w)) = (before ++ e :: after)%list ->
         filtered H (fold_left (darken H) before (walk H root (clear H w))) e = true ->
         inline (update H root w) !! e = inline w !! e)
  /\ (filter_stable H (config w) ->
      filtered H w e = true ->
      forall root, inline (update H root w) !! e = inline w !! e).
Proof.
  split; [apply darken_filtered|]. split.
  - intros root before after. rewrite walk_clear. intros Hels Hf.
    assert (NoDup (elements (indexed H root w))) as Hnd.
    { change (elements (indexed H root w))
        with (fold_left visit_elements (walk_visits H root) []).
      apply fold_elements_NoDup, NoDup_nil_2. }
    rewrite Hels in Hnd. apply NoDup_app in Hnd. destruct Hnd as (_ & Hdis & Hnd).
    apply NoDup_cons in Hnd. destruct Hnd as [Ha _].
    rewrite update_shape.
    change (inline (themed H root w) !! e = inline w !! e).
    unfold themed. rewrite Hels. rewrite pass_excludes; [reflexivity| | |exact Hf].
    + intros Hin. apply (Hdis e); [now apply list_elem_of_In|apply list_elem_of_here].
    + intros Hin. apply Ha. now apply list_elem_of_In.
  - intros Hst Hf root. rewrite update_shape.
    change (inline (themed H root w) !! e = inline w !! e).
    unfold themed. rewrite pass_filtered; [reflexivity|exact Hst|exact Hf].
Qed.

Lemma exclusion_invariant_witness :
  elements (walk Demo.host_attr Examples.page
              (clear Demo.host_attr (Examples.fresh Examples.page ∅)))
  = [1; 2; 3; 4; 5]
  /\ filtered Demo.host_attr
       (fold_left (darken Demo.host_attr) [1; 2]
          (walk Demo.host_attr Examples.page
             (clear Demo.host_attr (Examples.fresh Examples.page ∅)))) 3 = true
  /\ inline (update Demo.host_attr Examples.page (Examples.fresh Examples.page ∅)) !! 3
     = inline (Examples.fresh Examples.page ∅) !! 3.
Proof.
  split; [vm_compute; reflexivity|]. split; [vm_compute; reflexivity|].
  destruct (exclusion_invariant Demo.host_attr (Examples.fresh Examples.page ∅) 3)
    as (_ & Hp & _).
  apply (Hp Examples.page [1; 2] [4; 5]); vm_compute; reflexivity.
Defined.

(** ** The [pageRoot] setter (C9) *)

(** C9: assigning a value that is not an [HTMLElement] throws, and the
    engine and the document are as they were. *)
Theorem pageRoot_rejects (H : Host) (v : JSValue) (w : World) :
  instanceof_HTMLElement H v = false ->
  pageRoot_setter H v w = (Throw "pageRoot must be an instance of HTMLElement", w).
Proof.
  intros Hv. destruct v as [n|d]; simpl in *; [|reflexivity].
  now rewrite Hv.
Qed.

Lemma pageRoot_rejects_witness :
  instanceof_HTMLElement Demo.host (JSElement (Element 6 [] None)) = false
  /\ pageRoot_setter Demo.host (JSElement (Element 6 [] None))
       (Examples.fresh Examples.page ∅)
     = (Throw "pageRoot must be an instance of HTMLElement",
        Examples.fresh Examples.page ∅).
Proof.
  split; [reflexivity|]. apply (pageRoot_rejects Demo.host). reflexivity.
Defined.

(** ** The Membership Set (C6) *)

(** The invariant as the specification words it: after a re-index no
    member matches the Filter Policy. *)
Definition membership_claim (H : Host) (root : Node) (w : World) : Prop :=
  forall e, In e (elements (walk H root (clear H w))) -> filtered H w e = false.

(** C6, counterexample: with the default filter set, the [<img>] of the
    example page is inserted although it matches the selector [img]. *)
Lemma membership_claim_counterexample :
  ~ membership_claim Demo.host Examples.page (Examples.fresh Examples.page ∅).
Proof.
  intros Hc. specialize (Hc 3).
  assert (In 3 (elements (walk Demo.host Examples.page
                            (clear Demo.host (Examples.fresh Examples.page ∅)))))
    as Hin by (vm_compute; auto).
  apply Hc in Hin. vm_compute in Hin. discriminate.
Qed.

(** C6, as amended: what a re-index inserts into the Membership Set are
    HTML elements of the walked tree (shadow trees included); the Filter
    Policy is not consulted, and every HTML element among the root and the
    elements [querySelectorAll('*')] returns is a member afterwards,
    whether or not it matches a filter selector. *)
Theorem membership_html (H : Host) (root : Node) (w : World) :
  (forall e,
      In e (elements (walk H root w)) ->
      In e (elements w) \/ (isHTMLElement H e = true /\ In e (tree_ids root)))
  /\ (forall n,
         n = root \/ In n (querySelectorAll (walk_scope root)) ->
         isHTMLElement H (node_id n) = true ->
         In (node_id n) (elements (walk H root w))).
Proof.
  assert (elements (walk H root w)
          = fold_left visit_elements (walk_visits H root) (elements w)) as E.
  { rewrite walk_spec. cbv zeta. rewrite index_spec.
    now destruct (preserveHoverBorderColor (config w)). }
  rewrite E. split.
  - intros e He. apply fold_elements_In in He. destruct He as [He|He]; [now left|].
    right. now apply walk_visits_elements.
  - intros n Hn Hh. apply fold_elements_In. right.
    now apply walk_visits_complete.
Qed.

Lemma membership_html_witness :
  isHTMLElement Demo.host 3 = true
  /\ filtered Demo.host (Examples.fresh Examples.page ∅) 3 = true
  /\ In 3 (elements (walk Demo.host Examples.page (Examples.fresh Examples.page ∅))).
Proof.
  split; [reflexivity|]. split; [reflexivity|].
  destruct (membership_html Demo.host Examples.page (Examples.fresh Examples.page ∅))
    as [_ Hin].
  apply (Hin (Element 3 [] None)); [|reflexivity].
  right. simpl. auto.
Defined.

(** ** Observer cleanup (C7) *)

(** No registered sub-tree observer is bound to a detached host. *)
Definition no_detached_observer (H : Host) (w : World) : Prop :=
  forall k, is_Some (observers w !! k) -> isConnected H k = true.

(** The root is attached to the document, and so are the elements of its
    tree. *)
Definition attached (H : Host) (root : Node) : Prop :=
  forall id, In id (tree_ids root) -> isConnected H id = true.

(** C7, counterexample: a re-theme pass rooted at an element that is not
    attached registers an observer for the shadow host below it, after
    [#clear] has already run. *)
Lemma observer_cleanup_counterexample :
  ~ no_detached_observer Demo.host
      (update Demo.host Examples.detached (Examples.fresh Examples.detached ∅)).
Proof.
  intros Hc. specialize (Hc 8).
  assert (is_Some (observers (update Demo.host Examples.detached
                                (Examples.fresh Examples.detached ∅)) !! 8)) as Hs.
  { vm_compute. eauto. }
  apply Hc in Hs. vm_compute in Hs. discriminate.
Qed.

(** C7, as amended: after [disable()] the registry of sub-tree observers is
    empty and the root observer observes nothing; after a re-theme pass
    rooted at an element attached to the document, no registered observer
    is bound to a detached host. *)
Theorem observer_cleanup (H : Host) (w : World) :
  observers (disable H w) = ∅
  /\ observing (pageObserver (disable H w)) = []
  /\ (forall root, attached H root -> no_detached_observer H (update H root w)).
Proof.
  split; [|split].
  - unfold disable, clear. cbv zeta.
    change (filter (fun entry => isConnected H entry.1 = true)
              (∅ : gmap nat MutationObserver) = ∅).
    apply map_filter_empty.
  - reflexivity.
  - intros root Hatt k Hk. rewrite update_shape in Hk.
    change (is_Some (fold_left visit_observers (walk_visits H root)
                       (gc H (observers w)) !! k)) in Hk.
    apply fold_observers_hosts in Hk. destruct Hk as [Hk|Hk].
    + rewrite gc_lookup in Hk. destruct (isConnected H k); [reflexivity|].
      destruct Hk as [? Hk]. discriminate.
    + apply Hatt. now apply (walk_hosts H).
Qed.

Lemma observer_cleanup_witness :
  attached Demo.host Examples.page
  /\ no_detached_observer Demo.host
       (update Demo.host Examples.page (Examples.fresh Examples.page ∅)).
Proof.
  assert (attached Demo.host Examples.page) as Hatt.
  { intros id Hin. simpl in Hin.
    repeat (destruct Hin as [<-|Hin]; [reflexivity|]). destruct Hin. }
  split; [exact Hatt|].
  destruct (observer_cleanup Demo.host (Examples.fresh Examples.page ∅))
    as (_ & _ & Hu).
  exact (Hu Examples.page Hatt).
Defined.

(** ** Lifecycle idempotence (C8) *)

Section Lifecycle_twice.

Context (H : Host).

Implicit Types (w : World).

Lemma update_frame root w :
  config (update H root w) = config w
  /\ isEnabled (update H root w) = isEnabled w
  /\ sheet (update H root w) = sheet w
  /\ pageRoot (update H root w) = pageRoot w
  /\ pageObserver (update H root w) = pageObserver w
  /\ document_adoptedStyleSheets (update H root w) = document_adoptedStyleSheets w.
Proof. rewrite update_shape. repeat split. Qed.

Lemma world_eta w b s o :
  isEnabled w = b -> sheet w = s -> pageObserver w = o ->
  set_sheet s (set_pageObserver o (set_isEnabled b w)) = w.
Proof. intros <- <- <-. now destruct w. Qed.

(** The world [enable()] hands to [#update]. *)
Definition enabling w : World :=
  set_document_adoptedStyleSheets
    (document_adoptedStyleSheets w ++ [EngineSheet])%list
    (set_sheet (cssRules (config w))
       (set_pageObserver
          (observe (ObservedElement (node_id (pageRoot w))) (pageObserver w))
          (set_isEnabled true w))).

Lemma enable_update w : enable H w = update H (pageRoot w) (enabling w).
Proof. reflexivity. Qed.

(** On an enabled engine [enable()] comes down to a further [#update]
    with the engine's sheet adopted once more. *)
Lemma enable_again w :
  enable H (enable H w)
  = update H (pageRoot w)
      (set_document_adoptedStyleSheets
         (document_adoptedStyleSheets (enable H w) ++ [EngineSheet])%list
         (enable H w)).
Proof.
  set (E := enable H w).
  destruct (update_frame (pageRoot w) (enabling w)) as (Hc & He & Hs & Hp & Ho & _).
  change (config E = config w) in Hc.
  change (isEnabled E = true) in He.
  change (sheet E = cssRules (config w)) in Hs.
  change (pageRoot E = pageRoot w) in Hp.
  change (pageObserver E
          = observe (ObservedElement (node_id (pageRoot w))) (pageObserver w)) in Ho.
  unfold enable at 1. cbv zeta.
  change (update H (pageRoot E)
            (set_document_adoptedStyleSheets
               (document_adoptedStyleSheets E ++ [EngineSheet])%list
               (set_sheet (cssRules (config E))
                  (set_pageObserver
                     (observe (ObservedElement (node_id (pageRoot E))) (pageObserver E))
                     (set_isEnabled true E))))
          = update H (pageRoot w)
              (set_document_adoptedStyleSheets
                 (document_adoptedStyleSheets E ++ [EngineSheet])%list E)).
  rewrite (world_eta E true (cssRules (config E))
             (observe (ObservedElement (node_id (pageRoot E))) (pageObserver E))); auto.
  - now rewrite Hp.
  - now rewrite Hs, Hc.
  - rewrite Ho, Hp. now rewrite observe_idempotent.
Qed.

(** A second [enable()] can differ from the first in the inline state of
    the document, the cache and the adopted sheets only. *)
Lemma enable_twice_frame w :
  engine_view (enable H (enable H w))
  = engine_view
      (set_inline (inline (enable H (enable H w)))
         (set_backgroundColor (backgroundColor (enable H (enable H w))) (enable H w))).
Proof.
  rewrite enable_again. rewrite (enable_update w).
  apply (update_twice_frame H (pageRoot w) (enabling w)).
Qed.

Lemma enable_twice w :
  filter_stable H (config w) ->
  engine_view (enable H (enable H w)) = engine_view (enable H w).
Proof.
  intros Hst. rewrite enable_again. rewrite (enable_update w).
  apply update_twice. exact Hst.
Qed.

Lemma enable_isEnabled w : isEnabled (enable H w) = true.
Proof.
  unfold enable. cbv zeta.
  match goal with
  | |- isEnabled (update H ?r ?x) = _ =>
      destruct (update_frame r x) as (_ & E & _); rewrite E
  end.
  reflexivity.
Qed.

(** The world [disable()] leaves, given the inline state it restored. *)
Definition reset (i : gmap nat Inline) w : World :=
  mkWorld (config w) false "" [] ∅ [] [] [] (pageRoot w) (mkObserver []) "" i
          (document_adoptedStyleSheets w) (shadow_adoptedStyleSheets w).

(** The world of [disable()] once every member has been restored. *)
Definition restored w : World :=
  let w4 :=
    set_backgroundColor "" (set_sheet "" (walk H (pageRoot w) (set_isEnabled false w))) in
  fold_left undarken (elements w4) w4.

Lemma walk_frame root w :
  inline (walk H root w) = inline w
  /\ elements (walk H root w)
     = fold_left visit_elements (walk_visits H root) (elements w)
  /\ walk H root w
     = set_elements (elements (walk H root w))
         (set_observers (observers (walk H root w))
            (set_shadowRoots (shadowRoots (walk H root w))
               (set_shadowSheets (shadowSheets (walk H root w))
                  (set_hoverColorRules (hoverColorRules (walk H root w)) w)))).
Proof.
  rewrite walk_spec. cbv zeta. rewrite index_spec.
  destruct (preserveHoverBorderColor (config w)); repeat split; now destruct w.
Qed.

Lemma disable_shape w : disable H w = reset (inline (restored w)) w.
Proof.
  unfold disable, clear. cbv zeta.
  change (filter _ (observers (set_observers ∅ ?x)))
    with (filter (fun entry : nat * MutationObserver => isConnected H entry.1 = true)
                 (∅ : gmap nat MutationObserver)).
  rewrite map_filter_empty.
  change (fold_left undarken _ _) with (restored w).
  unfold restored. cbv zeta. rewrite unpass_only.
  generalize (inline
                (fold_left undarken
                   (elements
                      (set_backgroundColor ""
                         (set_sheet "" (walk H (pageRoot w) (set_isEnabled false w)))))
                   (set_backgroundColor ""
                      (set_sheet "" (walk H (pageRoot w) (set_isEnabled false w)))))).
  intros i.
  destruct (walk_frame (pageRoot w) (set_isEnabled false w)) as (_ & _ & Ew).
  rewrite Ew. unfold reset. destruct w; world_simpl; reflexivity.
Qed.

Lemma disable_twice w : disable H (disable H w) = disable H w.
Proof.
  rewrite (disable_shape (disable H w)).
  rewrite (disable_shape w) at 2 3.
  assert (restored (disable H w)
          = set_backgroundColor ""
              (set_sheet ""
                 (walk H (pageRoot (disable H w)) (set_isEnabled false (disable H w)))))
    as Hre.
  { unfold restored. cbv zeta. apply unpass_fixpoint. intros x Hx.
    destruct (walk_frame (pageRoot (disable H w)) (set_isEnabled false (disable H w)))
      as (Hi & He & _).
    change (In x (elements (walk H (pageRoot (disable H w))
                              (set_isEnabled false (disable H w))))) in Hx.
    rewrite He in Hx. apply fold_elements_In in Hx.
    rewrite (marked_ext (disable H w)) by exact Hi.
    rewrite disable_shape in Hx |- *.
    destruct Hx as [[]|Hx].
    rewrite (marked_ext (restored w)) by reflexivity.
    unfold restored. cbv zeta. apply unpass_unmarks. left.
    destruct (walk_frame (pageRoot w) (set_isEnabled false w)) as (_ & He' & _).
    change (In x (elements (walk H (pageRoot w) (set_isEnabled false w)))).
    rewrite He'. apply fold_elements_In. now right. }
  rewrite Hre.
  destruct (walk_frame (pageRoot (disable H w)) (set_isEnabled false (disable H w)))
    as (Hi & _ & _).
  change (inline (set_backgroundColor "" (set_sheet "" ?x))) with (inline x).
  rewrite Hi. rewrite disable_shape. reflexivity.
Qed.

End Lifecycle_twice.

(** C8: [enable()] on an enabled engine and [disable()] on a disabled one
    are safe and idempotent at the level of state, on every host.  The
    engine is enabled after one [enable()] and after two, and disabled
    after [disable()]; a second [disable()] leaves the whole world as the
    first did; a second [enable()] leaves the configuration, the sheet, the
    theming root, the observers and all the indices as the first did: it
    re-runs the traversal and the pass, and can differ from the first in
    the inline state of the document and the cache (and in the adopted
    lists, which get the engine's sheet once more).  When the selectors of
    the Filter Policy do not look at inline state, the second pass finds
    nothing to theme, and the inline state and the cache are those of the
    first [enable()] too. *)
Theorem lifecycle_idempotent (H : Host) (w : World) :
  isEnabled (enable H w) = true
  /\ isEnabled (enable H (enable H w)) = true
  /\ isEnabled (disable H w) = false
  /\ disable H (disable H w) = disable H w
  /\ engine_view (enable H (enable H w))
     = engine_view
         (set_inline (inline (enable H (enable H w)))
            (set_backgroundColor (backgroundColor (enable H (enable H w)))
               (enable H w)))
  /\ (filter_stable H (config w) ->
      engine_view (enable H (enable H w)) = engine_view (enable H w)).
Proof.
  split; [apply enable_isEnabled|].
  split; [apply enable_isEnabled|].
  split; [now rewrite disable_shape|].
  split; [apply disable_twice|].
  split; [apply enable_twice_frame|apply enable_twice].
Qed.

Lemma lifecycle_idempotent_witness :
  ~ stable_matching Demo.host_attr
  /\ engine_view
       (enable Demo.host_attr (enable Demo.host_attr (Examples.fresh Examples.page ∅)))
     = engine_view (enable Demo.host_attr (Examples.fresh Examples.page ∅)).
Proof.
  split; [exact Examples.attr_unstable|].
  destruct (lifecycle_idempotent Demo.host_attr (Examples.fresh Examples.page ∅))
    as (_ & _ & _ & _ & _ & Hen).
  apply Hen. exact Examples.attr_filter_stable.
Defined.

(** ** The border and the preserved hover rules (C10) *)

Section Border_facts.

Context (H : Host).

Implicit Types (w : World) (el : nat) (p k : string).

(** The hover rule found depends on the index and on the inline state of
    the document only. *)
Lemma hoverRule_local w w' el :
  inline w' = inline w -> hoverColorRules w' = hoverColorRules w ->
  hoverRule H w' el = hoverRule H w el.
Proof. intros Hi Hh. unfold hoverRule. now rewrite Hi, Hh. Qed.

Lemma darken_border_kept el a c w :
  hoverRule H w el <> None -> darken_border H el a c w = w.
Proof.
  intros Hh. unfold darken_border.
  destruct (negb _); [|reflexivity].
  destruct (hoverRule H w el); [reflexivity|congruence].
Qed.

Lemma darken_gradient_style_ne el p w :
  p <> "background-image" ->
  style_lookup (darken_gradient H el w) el p = style_lookup w el p.
Proof.
  intros Hp. unfold darken_gradient.
  destruct (_ && _); [|reflexivity].
  rewrite style_lookup_dataset_set, style_lookup_setProperty_ne by exact Hp.
  destruct (JS.truthy _); [apply style_lookup_dataset_set|reflexivity].
Qed.

Lemma darken_gradient_dataset_ne el k w :
  k <> "originalBgImage" -> k <> "lightsOutGradient" ->
  dataset_get (darken_gradient H el w) el k = dataset_get w el k.
Proof.
  intros Hk1 Hk2. unfold darken_gradient.
  destruct (_ && _); [|reflexivity].
  rewrite dataset_get_set_ne, dataset_get_setProperty by exact Hk2.
  destruct (JS.truthy _); [now apply dataset_get_set_ne|reflexivity].
Qed.

(** The element with the snapshots of its text and background colours
    (lines 298-307): [#darken] looks for a hover rule in this state. *)
Definition snapshotted el w : World :=
  let w1 :=
    if JS.truthy (style_get w el "color")
    then dataset_set el "originalColor" (style_get w el "color") w else w in
  if JS.truthy (style_get w el "background-color")
  then dataset_set el "originalBgColor" (style_get w el "background-color") w1 else w1.

Lemma snapshotted_style el p w :
  style_lookup (snapshotted el w) el p = style_lookup w el p.
Proof.
  unfold snapshotted.
  destruct (JS.truthy (style_get w el "background-color"));
    destruct (JS.truthy (style_get w el "color"));
    now rewrite ?style_lookup_dataset_set.
Qed.

Lemma snapshotted_hoverColorRules el w :
  hoverColorRules (snapshotted el w) = hoverColorRules w.
Proof.
  unfold snapshotted.
  destruct (JS.truthy (style_get w el "background-color"));
    destruct (JS.truthy (style_get w el "color")); reflexivity.
Qed.

Lemma snapshotted_color el w :
  dataset_get (snapshotted el w) el "originalColor"
  = if JS.truthy (style_get w el "color")
    then Some (style_get w el "color") else dataset_get w el "originalColor".
Proof.
  unfold snapshotted.
  destruct (JS.truthy (style_get w el "background-color"));
    destruct (JS.truthy (style_get w el "color"));
    rewrite ?dataset_get_set_ne by discriminate;
    rewrite ?dataset_get_set_eq; reflexivity.
Qed.

Lemma snapshotted_background el w :
  dataset_get (snapshotted el w) el "originalBgColor"
  = if JS.truthy (style_get w el "background-color")
    then Some (style_get w el "background-color")
    else dataset_get w el "originalBgColor".
Proof.
  unfold snapshotted.
  destruct (JS.truthy (style_get w el "background-color"));
    destruct (JS.truthy (style_get w el "color"));
    rewrite ?dataset_get_set_eq; rewrite ?dataset_get_set_ne by discriminate;
    reflexivity.
Qed.

Lemma snapshotted_dataset_ne el k w :
  k <> "originalColor" -> k <> "originalBgColor" ->
  dataset_get (snapshotted el w) el k = dataset_get w el k.
Proof.
  intros H1 H2. unfold snapshotted.
  destruct (JS.truthy (style_get w el "background-color"));
    destruct (JS.truthy (style_get w el "color"));
    now rewrite ?dataset_get_set_ne by assumption.
Qed.

Lemma darken_apply_eq el a c d w :
  darken_apply H el a c d w
  = dataset_set el "lightsOut" "true"
      (style_setProperty el "background-color" d
         (style_setProperty el "color" (c_toHex H c)
            (darken_gradient H el (darken_border H el a c (snapshotted el w))))).
Proof. reflexivity. Qed.

Lemma snapshotted_inline el w w1 :
  inline w1 = inline w -> inline (snapshotted el w1) = inline (snapshotted el w).
Proof.
  intros E.
  assert (forall k v (x y : World),
             inline y = inline x ->
             inline (dataset_set el k v y) = inline (dataset_set el k v x)) as Hset.
  { intros k v x y Exy. unfold dataset_set, inline_of. cbn [inline set_inline].
    now rewrite Exy. }
  unfold snapshotted, style_get, inline_of. rewrite E.
  destruct (JS.truthy _); destruct (JS.truthy _); auto.
Qed.

Lemma hoverRule_snapshotted w w1 el :
  inline w1 = inline w -> hoverColorRules w1 = hoverColorRules w ->
  hoverRule H (snapshotted el w1) el = hoverRule H (snapshotted el w) el.
Proof.
  intros Hi Hh. apply hoverRule_local.
  - now apply snapshotted_inline.
  - now rewrite !snapshotted_hoverColorRules.
Qed.

Lemma darken_apply_border el a c d w :
  let w' := darken_apply H el a c d w in
  style_lookup w' el "border-color"
  = style_lookup (darken_border H el a c (snapshotted el w)) el "border-color"
  /\ dataset_get w' el "originalBorderColor"
     = dataset_get (darken_border H el a c (snapshotted el w)) el "originalBorderColor".
Proof.
  intros w'. unfold w'. rewrite darken_apply_eq. split.
  - rewrite style_lookup_dataset_set.
    rewrite !style_lookup_setProperty_ne by discriminate.
    now rewrite darken_gradient_style_ne by discriminate.
  - rewrite dataset_get_set_ne by discriminate. rewrite !dataset_get_setProperty.
    now rewrite darken_gradient_dataset_ne by discriminate.
Qed.

End Border_facts.

(** C10: an element that is themed (it does not match the Filter Policy)
    and matches a preserved [:hover] border rule when [#darken] looks for
    one, that is, with the snapshots of its text and background colours
    written, with a non-transparent border and no border snapshot:
    [#darken] leaves its inline border-color and the snapshot slot as they
    are, and the following [#undarken] removes the inline border-color
    declaration, whatever it was. *)
Theorem hover_border_cleared (H : Host) (w : World) (el : nat) :
  filtered H w el = false ->
  Qle_bool (c_alpha H (colord H (cs_borderColor (getComputedStyle H (inline w) el)))) 0
  = false ->
  hoverRule H (snapshotted el w) el <> None ->
  JS.truthy_opt (dataset_get w el "originalBorderColor") = false ->
  style_lookup (darken H w el) el "border-color" = style_lookup w el "border-color"
  /\ dataset_get (darken H w el) el "originalBorderColor"
     = dataset_get w el "originalBorderColor"
  /\ style_lookup (undarken (darken H w el) el) el "border-color" = None.
Proof.
  intros Hf _ Hh Hsnap.
  assert (marked (darken H w el) el = true) as Hm
    by (apply darken_settles; exact Hf).
  assert (style_lookup (darken H w el) el "border-color" = style_lookup w el "border-color"
          /\ dataset_get (darken H w el) el "originalBorderColor"
             = dataset_get w el "originalBorderColor") as [Hs Hd].
  { unfold darken. rewrite Hf. cbv [negb].
    pose proof (darkBackground_inline H w el) as Hi.
    pose proof (darkBackground_only_el H w el) as [Hshape _].
    destruct (darkBackground H w el) as [d w1]. cbv [snd] in *.
    assert (style_lookup w1 el "border-color" = style_lookup w el "border-color") as Es
      by (unfold style_lookup, inline_of; now rewrite Hi).
    assert (dataset_get w1 el "originalBorderColor"
            = dataset_get w el "originalBorderColor") as Ed
      by (unfold dataset_get, inline_of; now rewrite Hi).
    assert (hoverRule H (snapshotted el w1) el <> None) as Hh1.
    { rewrite (hoverRule_snapshotted H w w1 el Hi); [exact Hh|].
      rewrite Hshape. reflexivity. }
    destruct (bool_decide (dataset_get w1 el "lightsOut" = Some "true")); cbv [negb].
    - now split.
    - match goal with
      | |- context [darken_apply H el ?a ?c d w1] =>
          destruct (darken_apply_border H el a c d w1) as (As & Ad);
          rewrite (darken_border_kept H el a c (snapshotted el w1) Hh1) in As, Ad
      end.
      rewrite As, Ad, snapshotted_style.
      rewrite snapshotted_dataset_ne by discriminate.
      now split. }
  split; [exact Hs|]. split; [exact Hd|].
  destruct (undarken_style (darken H w el) el Hm) as (_ & _ & Hb).
  rewrite Hb. unfold snapshot. now rewrite Hd, Hsnap.
Qed.

Module Cases.

Import Examples.

(** The example page indexed with its hover rules, the [<span>] in the
    shadow tree carrying an inline border colour. *)
Definition hovered : World :=
  walk Demo.host page
    (fresh page {[ 5 := declared [("border-color", "#ff0000")] ]}).

(** A [<div>] with inline text, background and (transparent) border
    colours. *)
Definition bordered : World :=
  fresh page
    {[ 2 := declared [ ("color", "#000000"); ("background-color", "#ffffff");
                       ("border-color", "transparent") ] ]}.

(** A theming root that is a [<div>]; its [<div>] child has a dark
    background. *)
Definition nested_divs : World :=
  fresh app {[ 4 := declared [("background-color", "#222222")] ]}.

(** The example page indexed on the attribute-aware host, a [<div>]
    carrying inline text and border colours: the hover rule of that host
    matches the element once its text colour is snapshotted. *)
Definition hovered_attr : World :=
  walk Demo.host_attr page
    (fresh page {[ 2 := declared [("color", "#000000"); ("border-color", "#ff0000")] ]}).

End Cases.

Lemma hover_border_cleared_witness :
  hoverRule Demo.host_attr Cases.hovered_attr 2 = None
  /\ hoverRule Demo.host_attr (snapshotted 2 Cases.hovered_attr) 2 <> None
  /\ style_lookup Cases.hovered_attr 2 "border-color" = Some "#ff0000"
  /\ style_lookup (darken Demo.host_attr Cases.hovered_attr 2) 2 "border-color"
     = Some "#ff0000"
  /\ style_lookup (undarken (darken Demo.host_attr Cases.hovered_attr 2) 2) 2
       "border-color" = None.
Proof.
  assert (hoverRule Demo.host_attr (snapshotted 2 Cases.hovered_attr) 2 <> None) as Hh
    by (vm_compute; discriminate).
  split; [vm_compute; reflexivity|]. split; [exact Hh|]. split; [reflexivity|].
  destruct (hover_border_cleared Demo.host_attr Cases.hovered_attr 2)
    as (Hs & _ & Hu); [reflexivity|reflexivity|exact Hh|reflexivity|].
  split; [exact Hs|exact Hu].
Defined.

(** ** Round trip (C1) *)

(** C1, at the failing input: a [<div>] with inline [color: #000000],
    [background-color: #ffffff] and [border-color: transparent].  Its
    computed border has alpha 0, so [#darken] neither snapshots nor writes
    the border colour; [#undarken] restores the text and background
    colours and removes the border-color declaration the element had. *)
Theorem roundtrip_border_lost :
  let w := Cases.bordered in
  let w' := undarken (darken Demo.host w 2) 2 in
  filtered Demo.host w 2 = false
  /\ marked w 2 = false
  /\ style_lookup w 2 "border-color" = Some "transparent"
  /\ style_lookup (darken Demo.host w 2) 2 "border-color" = Some "transparent"
  /\ style_lookup w' 2 "color" = Some "#000000"
  /\ style_lookup w' 2 "background-color" = Some "#ffffff"
  /\ style_lookup w' 2 "border-color" = None.
Proof. vm_compute. repeat split. Qed.

(** ** Background policy (C3) *)

(** C3, at the failing input: the theming root is a [<div>] (element 2)
    and its child (element 4) is another [<div>] whose background is
    already dark.  [#darken] recognises the root by tag name, so the child
    is treated as the root: its background is forced to the darkened value
    instead of being left as it is. *)
Theorem root_tag_forces_background :
  let w := Cases.nested_divs in
  node_id (pageRoot w) = 2
  /\ filtered Demo.host w 4 = false
  /\ c_isDark Demo.host
       (colord Demo.host (cs_backgroundColor (getComputedStyle Demo.host (inline w) 4)))
     = true
  /\ style_lookup w 4 "background-color" = Some "#222222"
  /\ style_lookup (darken Demo.host w 4) 4 "background-color" = Some "#000000"
  /\ style_lookup (enable Demo.host w) 4 "background-color" = Some "#000000".
Proof. vm_compute. repeat split. Qed.

(** * Further properties of the engine *)

(** ** What [#darken] writes and [#undarken] restores *)

(** The value [el.style] reports for [prop] when it is not empty. *)
Definition inline_value (w : World) (el : nat) (prop : string) : option string :=
if JS.truthy (style_get w el prop) then Some (style_get w el prop) else None.

(** The declaration [setProperty] leaves for a value: none for the empty
    string. *)
Definition inline_value_of (value : string) : option string :=
if JS.truthy value then Some value else None.

Section Patch_facts.

Context (H : Host).

Implicit Types (w : World) (el : nat) (p k : string).

Lemma darken_border_style_ne el a c p w :
  p <> "border-color" ->
  style_lookup (darken_border H el a c w) el p = style_lookup w el p.
Proof.
  intros Hp. unfold darken_border.
  destruct (negb _); [|reflexivity].
  destruct (hoverRule H w el); [reflexivity|].
  rewrite style_lookup_setProperty_ne by exact Hp.
  destruct (JS.truthy _); [apply style_lookup_dataset_set|reflexivity].
Qed.

Lemma darken_border_dataset_ne el a c k w :
  k <> "originalBorderColor" ->
  dataset_get (darken_border H el a c w) el k = dataset_get w el k.
Proof.
  intros Hk. unfold darken_border.
  destruct (negb _); [|reflexivity].
  destruct (hoverRule H w el); [reflexivity|].
  rewrite dataset_get_setProperty.
  destruct (JS.truthy _); [now apply dataset_get_set_ne|reflexivity].
Qed.

(** The border step when it applies: the inline border colour is
    snapshotted if there is one, and overwritten. *)
Lemma darken_border_themed el a c w :
  Qle_bool a 0 = false -> hoverRule H w el = None ->
  style_lookup (darken_border H el a c w) el "border-color"
  = Some (c_toHex H (c_darken H c 0.45))
  /\ dataset_get (darken_border H el a c w) el "originalBorderColor"
     = if JS.truthy (style_get w el "border-color")
       then Some (style_get w el "border-color")
       else dataset_get w el "originalBorderColor".
Proof.
  intros Ha Hh. unfold darken_border. rewrite Ha, Hh. cbv [negb].
  split.
  - apply style_lookup_setProperty_eq, c_toHex_truthy.
  - rewrite dataset_get_setProperty.
    destruct (JS.truthy _); [apply dataset_get_set_eq|reflexivity].
Qed.

(** What the patch leaves in the snapshot slots of the text and
    background colours, and in the two declarations. *)
Lemma darken_apply_colors el a c d w :
  let w' := darken_apply H el a c d w in
  dataset_get w' el "originalColor"
  = (if JS.truthy (style_get w el "color")
     then Some (style_get w el "color") else dataset_get w el "originalColor")
  /\ dataset_get w' el "originalBgColor"
     = (if JS.truthy (style_get w el "background-color")
        then Some (style_get w el "background-color")
        else dataset_get w el "originalBgColor")
  /\ style_lookup w' el "color" = Some (c_toHex H c)
  /\ style_lookup w' el "background-color" = (if JS.truthy d then Some d else None).
Proof.
  intros w'. unfold w'. rewrite darken_apply_eq. repeat split.
  - rewrite dataset_get_set_ne by discriminate. rewrite !dataset_get_setProperty.
    rewrite darken_gradient_dataset_ne by discriminate.
    rewrite darken_border_dataset_ne by discriminate.
    apply snapshotted_color.
  - rewrite dataset_get_set_ne by discriminate. rewrite !dataset_get_setProperty.
    rewrite darken_gradient_dataset_ne by discriminate.
    rewrite darken_border_dataset_ne by discriminate.
    apply snapshotted_background.
  - rewrite style_lookup_dataset_set.
    rewrite style_lookup_setProperty_ne by discriminate.
    apply style_lookup_setProperty_eq, c_toHex_truthy.
  - rewrite style_lookup_dataset_set.
    destruct (JS.truthy d) eqn:Ed.
    + now apply style_lookup_setProperty_eq.
    + unfold style_setProperty at 1, style_lookup.
      rewrite inline_of_insert_eq.
      unfold CSSStyleDeclaration.setProperty. unfold JS.truthy in Ed.
      destruct (bool_decide (d = "")); [|discriminate].
      cbv [style]. apply lookup_delete_eq.
Qed.

(** [#darken] on an element that is themed for the first time. *)
Lemma darken_fresh w el :
  filtered H w el = false -> marked w el = false ->
  exists d w1,
    darkBackground H w el = (d, w1)
    /\ inline w1 = inline w
    /\ hoverColorRules w1 = hoverColorRules w
    /\ darken H w el
       = darken_apply H el
           (c_alpha H (colord H (cs_borderColor (getComputedStyle H (inline w) el))))
           (colored (repair H (cs_color (getComputedStyle H (inline w) el)) d))
           d w1.
Proof.
  intros Hf Hm. unfold darken. rewrite Hf. cbv [negb].
  pose proof (darkBackground_inline H w el) as Hi.
  pose proof (darkBackground_only_el H w el) as [Hs _].
  destruct (darkBackground H w el) as [d w1]. cbv [snd] in *.
  exists d, w1. split; [reflexivity|]. split; [exact Hi|].
  split; [rewrite Hs; reflexivity|].
  assert (marked w1 el = false) as Hm1 by (rewrite <- Hm; now apply marked_ext).
  unfold marked in Hm1. now rewrite Hm1.
Qed.

Lemma restore_dataset_eq el key prop w :
  dataset_get (restore el key prop w) el key
  = if JS.truthy_opt (dataset_get w el key) then None else dataset_get w el key.
Proof.
  unfold restore. destruct (JS.truthy_opt _).
  - apply dataset_get_delete_eq.
  - apply dataset_get_removeProperty.
Qed.

(** The snapshot slots after [#undarken] of a marked element: a snapshot
    that was used is deleted. *)
Lemma undarken_dataset w el :
  marked w el = true ->
  forall key,
    key = "originalColor" \/ key = "originalBgColor" \/ key = "originalBorderColor" ->
    dataset_get (undarken w el) el key
    = if JS.truthy_opt (dataset_get w el key) then None else dataset_get w el key.
Proof.
  intros Hm key Hkey. unfold undarken. unfold marked in Hm. rewrite Hm.
  set (w1 := dataset_delete el "lightsOut" w).
  assert (dataset_get w1 el key = dataset_get w el key) as Hd.
  { unfold w1. apply dataset_get_delete_ne.
    destruct Hkey as [-> | [-> | ->]]; discriminate. }
  set (w4 := restore el "originalBorderColor" "border-color" _).
  assert (dataset_get w4 el key
          = if JS.truthy_opt (dataset_get w el key) then None else dataset_get w el key)
    as H4.
  { unfold w4. rewrite <- Hd. destruct Hkey as [-> | [-> | ->]].
    - rewrite !restore_dataset_ne by discriminate. apply restore_dataset_eq.
    - rewrite restore_dataset_ne by discriminate. rewrite restore_dataset_eq.
      now rewrite restore_dataset_ne by discriminate.
    - rewrite restore_dataset_eq. now rewrite !restore_dataset_ne by discriminate. }
  destruct (JS.truthy_opt (dataset_get w4 el "lightsOutGradient")); [|exact H4].
  rewrite restore_dataset_ne by (destruct Hkey as [-> | [-> | ->]]; discriminate).
  rewrite dataset_get_delete_ne by (destruct Hkey as [-> | [-> | ->]]; discriminate).
  exact H4.
Qed.

End Patch_facts.

(** X1.  Text and background colour survive the round trip: for an element
    that is themed for the first time (not filtered, not marked) and has no
    stale snapshot, [#darken] followed by [#undarken] leaves the inline
    [color] and [background-color] exactly as declared before (absent if
    they were absent), removes the marker and empties both snapshot
    slots. *)
Theorem roundtrip_color_background (H : Host) (w : World) (el : nat) :
  filtered H w el = false ->
  marked w el = false ->
  dataset_get w el "originalColor" = None ->
  dataset_get w el "originalBgColor" = None ->
  let w' := undarken (darken H w el) el in
  style_lookup w' el "color" = inline_value w el "color"
  /\ style_lookup w' el "background-color" = inline_value w el "background-color"
  /\ marked w' el = false
  /\ dataset_get w' el "originalColor" = None
  /\ dataset_get w' el "originalBgColor" = None.
Proof.
  intros Hf Hm Hc Hb w'. unfold w'. clear w'.
  destruct (darken_fresh H w el Hf Hm) as (d & w1 & _ & Hi & _ & ->).
  set (a := c_alpha H _). set (c := colored _).
  assert (forall p, style_get w1 el p = style_get w el p) as Hsg
    by (intros p; unfold style_get, inline_of; now rewrite Hi).
  assert (forall k, dataset_get w1 el k = dataset_get w el k) as Hdg
    by (intros k; unfold dataset_get, inline_of; now rewrite Hi).
  destruct (darken_apply_colors H el a c d w1) as (Dc & Db & _ & _).
  rewrite !Hsg, !Hdg, ?Hc, ?Hb in Dc, Db.
  pose proof (darken_apply_marked H el a c d w1) as Hmk.
  destruct (undarken_style _ el Hmk) as (Sc & Sb & _).
  split; [|split; [|split; [|split]]].
  - rewrite Sc. unfold snapshot, inline_value. rewrite Dc.
    destruct (JS.truthy (style_get w el "color")) eqn:E;
      cbv [JS.truthy_opt]; rewrite ?E, ?Hc; reflexivity.
  - rewrite Sb. unfold snapshot, inline_value. rewrite Db.
    destruct (JS.truthy (style_get w el "background-color")) eqn:E;
      cbv [JS.truthy_opt]; rewrite ?E, ?Hb; reflexivity.
  - apply undarken_unmarks.
  - rewrite (undarken_dataset _ el Hmk) by auto. rewrite Dc.
    destruct (JS.truthy (style_get w el "color")) eqn:E;
      cbv [JS.truthy_opt]; rewrite ?E, ?Hc; reflexivity.
  - rewrite (undarken_dataset _ el Hmk) by auto. rewrite Db.
    destruct (JS.truthy (style_get w el "background-color")) eqn:E;
      cbv [JS.truthy_opt]; rewrite ?E, ?Hb; reflexivity.
Qed.

Lemma roundtrip_color_background_witness :
  style_lookup (undarken (darken Demo.host Cases.bordered 2) 2) 2 "color"
  = Some "#000000"
  /\ style_lookup (undarken (darken Demo.host Cases.bordered 2) 2) 2 "background-color"
     = Some "#ffffff".
Proof.
  destruct (roundtrip_color_background Demo.host Cases.bordered 2
              eq_refl eq_refl eq_refl eq_refl) as (Hc & Hb & _).
  split; [exact Hc|exact Hb].
Defined.

(** X2.  The border colour survives the round trip when the border was
    themed: with a border that is not transparent and no preserved hover
    rule matching the element when [#darken] looks for one (with the
    colour snapshots written), [#darken] overwrites the inline border-color
    with the darkened foreground, and [#undarken] puts back what was
    declared (or removes the declaration if there was none). *)
Theorem roundtrip_border (H : Host) (w : World) (el : nat) :
  filtered H w el = false ->
  marked w el = false ->
  dataset_get w el "originalBorderColor" = None ->
  Qle_bool (c_alpha H (colord H (cs_borderColor (getComputedStyle H (inline w) el)))) 0
  = false ->
  hoverRule H (snapshotted el w) el = None ->
  style_lookup (darken H w el) el "border-color"
  = Some (c_toHex H
            (c_darken H
               (colored (repair H (cs_color (getComputedStyle H (inline w) el))
                                  (fst (darkBackground H w el))))
               0.45))
  /\ style_lookup (undarken (darken H w el) el) el "border-color"
     = inline_value w el "border-color".
Proof.
  intros Hf Hm Hb Ha Hh.
  destruct (darken_fresh H w el Hf Hm) as (d & w1 & Hdb & Hi & Hhr & ->).
  rewrite Hdb. cbv [fst].
  set (a := c_alpha H _) in *. set (c := colored _).
  assert (hoverRule H (snapshotted el w1) el = None) as Hh'
    by now rewrite (hoverRule_snapshotted H w w1 el Hi Hhr).
  destruct (darken_border_themed H el a c (snapshotted el w1) Ha Hh') as (Bs & Bd).
  destruct (darken_apply_border H el a c d w1) as (As & Ad).
  rewrite Bs in As. rewrite Bd in Ad.
  split; [exact As|].
  pose proof (darken_apply_marked H el a c d w1) as Hmk.
  destruct (undarken_style _ el Hmk) as (_ & _ & Sb).
  rewrite Sb. unfold snapshot. rewrite Ad.
  rewrite snapshotted_dataset_ne by discriminate.
  assert (style_get (snapshotted el w1) el "border-color" = style_get w el "border-color")
    as ->.
  { rewrite !style_get_lookup, snapshotted_style.
    unfold style_lookup, inline_of. now rewrite Hi. }
  assert (dataset_get w1 el "originalBorderColor" = None) as ->
    by (unfold dataset_get, inline_of in *; now rewrite Hi).
  unfold inline_value.
  destruct (JS.truthy (style_get w el "border-color")) eqn:E;
    cbv [JS.truthy_opt]; rewrite ?E; reflexivity.
Qed.

(** X3.  [#undarken] is idempotent, and does nothing to an element that
    does not carry the marker. *)
Theorem undarken_idempotent (w : World) (el : nat) :
  undarken (undarken w el) el = undarken w el
  /\ (marked w el = false -> undarken w el = w).
Proof.
  split; [|apply undarken_unmarked].
  apply undarken_unmarked, undarken_unmarks.
Qed.

(** X4.  [#darken] and [#undarken] write to their element only: the inline
    state of every other element, the configuration and the indices are
    untouched; [#darken] may fill the cache, [#undarken] leaves it. *)
Theorem element_frame (H : Host) (w : World) (el : nat) :
  (darken H w el
   = set_inline (inline (darken H w el))
       (set_backgroundColor (backgroundColor (darken H w el)) w)
   /\ forall e, e <> el -> inline (darken H w el) !! e = inline w !! e)
  /\ (undarken w el = set_inline (inline (undarken w el)) w
      /\ forall e, e <> el -> inline (undarken w el) !! e = inline w !! e).
Proof.
  split; [apply darken_only_el|].
  destruct (undarken_only_el w el) as [E F]. split; [|exact F].
  rewrite E at 1. rewrite undarken_backgroundColor.
  destruct w; reflexivity.
Qed.

Module More.

Import Examples.

(** A [<div>] with inline text and border colours. *)
Definition red_border : World :=
  fresh page {[ 2 := declared [("color", "#000000"); ("border-color", "#ff0000")] ]}.

End More.

Lemma roundtrip_border_witness :
  style_lookup More.red_border 2 "border-color" = Some "#ff0000"
  /\ style_lookup (darken Demo.host More.red_border 2) 2 "border-color"
     = Some "#060606"
  /\ style_lookup (undarken (darken Demo.host More.red_border 2) 2) 2 "border-color"
     = Some "#ff0000".
Proof.
  split; [reflexivity|].
  exact (roundtrip_border Demo.host More.red_border 2
           eq_refl eq_refl eq_refl eq_refl eq_refl).
Defined.

Lemma element_frame_witness :
  inline (darken Demo.host Cases.bordered 2) !! 3 = inline Cases.bordered !! 3
  /\ inline (undarken (darken Demo.host Cases.bordered 2) 2) !! 3
     = inline (darken Demo.host Cases.bordered 2) !! 3.
Proof.
  split.
  - apply (element_frame Demo.host Cases.bordered 2). discriminate.
  - apply (element_frame Demo.host (darken Demo.host Cases.bordered 2) 2). discriminate.
Defined.

(** X5.  The background [#darken] writes on a first theming, as the code
    decides it: an element whose tag name is the theming root's gets the
    darkened colour at the configured alpha, and that value fills the cache
    if the cache is empty; any other element gets the darkened colour if
    its background is not dark, and otherwise has its computed background
    written back inline. *)
Theorem darken_background (H : Host) (w : World) (el : nat) :
  filtered H w el = false ->
  marked w el = false ->
  let bg := cs_backgroundColor (getComputedStyle H (inline w) el) in
  let forced :=
    c_toHex H (c_withAlpha H (c_darken H (colord H bg) 0.9) (pageRootAlpha (config w))) in
  let w' := darken H w el in
  marked w' el = true
  /\ (is_root_tag H w el = true ->
      style_lookup w' el "background-color" = Some forced
      /\ backgroundColor w'
         = if JS.truthy (backgroundColor w) then backgroundColor w else forced)
  /\ (is_root_tag H w el = false ->
      backgroundColor w' = backgroundColor w
      /\ style_lookup w' el "background-color"
         = if c_isDark H (colord H bg)
           then inline_value_of bg
           else Some (c_toHex H (c_darken H (colord H bg) 0.9))).
Proof.
  intros Hf Hm bg forced w'. unfold w'. clear w'.
  destruct (darken_fresh H w el Hf Hm) as (d & w1 & Hdb & _ & _ & ->).
  set (a := c_alpha H _). set (c := colored _).
  destruct (darken_apply_colors H el a c d w1) as (_ & _ & _ & Sb).
  split; [apply darken_apply_marked|].
  rewrite darken_apply_backgroundColor, Sb.
  pose proof (darkBackground_snd H w el) as Hs. rewrite Hdb in Hs. cbv [fst snd] in Hs.
  unfold darkBackground in Hdb. fold bg in Hdb. fold (is_root_tag H w el) in Hdb.
  split.
  - intros Hr. rewrite Hr in Hdb, Hs. fold forced in Hdb.
    injection Hdb as <- _. cbv [andb] in Hs.
    assert (JS.truthy forced = true) as -> by apply c_toHex_truthy.
    split; [reflexivity|].
    rewrite Hs. now destruct (JS.truthy (backgroundColor w)).
  - intros Hr. rewrite Hr in Hdb, Hs. cbv [andb] in Hs.
    split; [now rewrite Hs|].
    destruct (c_isDark H (colord H bg)); cbv [negb] in Hdb; injection Hdb as <- _.
    + reflexivity.
    + now rewrite c_toHex_truthy.
Qed.

Lemma darken_background_witness :
  style_lookup (darken Demo.host Cases.bordered 2) 2 "background-color"
  = Some "#1a1a1a"
  /\ backgroundColor (darken Demo.host Cases.bordered 2) = "".
Proof.
  destruct (darken_background Demo.host Cases.bordered 2 eq_refl eq_refl)
    as (_ & _ & Hn).
  destruct (Hn eq_refl) as [Hc Hs]. split; [exact Hs|exact Hc].
Defined.

(** ** The repair loop stops at the first readable colour *)

Section Repair_minimal.

Context (H : Host).

Lemma repair_while_minimal (bg : string) (fuel : nat) :
  forall s r : Repair H,
    repair_while H fuel bg s = Some r ->
    ((readableAttempts s < readableAttempts r)%nat -> readable s = false)
    /\ forall j,
        (0 < j)%nat -> (readableAttempts s + j < readableAttempts r)%nat ->
        c_isReadable H (lightened H j (colored s)) bg AAA = false.
Proof.
  induction fuel as [|fuel IH]; intros s r Hr; simpl in Hr.
  - destruct (negb (readable s) && (readableAttempts s <? 10)%nat); [discriminate|].
    injection Hr as <-. split; intros; lia.
  - destruct (readable s) eqn:Er; simpl in Hr.
    { injection Hr as <-. split; intros; lia. }
    destruct (readableAttempts s <? 10)%nat; simpl in Hr;
      [|injection Hr as <-; split; intros; lia].
    destruct (IH _ _ Hr) as [Hfirst Hrest]. simpl in *.
    split; [reflexivity|].
    intros j Hj Hlt. destruct j as [|[|j]]; [lia| |].
    + apply Hfirst. lia.
    + rewrite lightened_S. apply Hrest; lia.
Qed.

End Repair_minimal.

(** X6.  The repair loop lightens no more than needed: if it took any
    step, the original colour failed the first (AA) test, and every colour
    it went through before the last one failed the AAA test. *)
Theorem repair_minimal (H : Host) (color darkBgColor : string) :
  let r := repair H color darkBgColor in
  ((0 < readableAttempts r)%nat ->
   c_isReadable H (colord H color) darkBgColor AA = false)
  /\ forall j,
      (0 < j < readableAttempts r)%nat ->
      c_isReadable H (lightened H j (colord H color)) darkBgColor AAA = false.
Proof.
  intros r.
  destruct (repair_while_minimal H darkBgColor 10 _ _
              (repair_while_total H color darkBgColor)) as [Hfirst Hrest].
  fold r in Hfirst, Hrest. simpl in *.
  split; [exact Hfirst|]. intros j [Hj Hlt]. now apply Hrest.
Qed.

Lemma repair_minimal_witness :
  readableAttempts (repair Demo.host "#000000" "#000000") = 10%nat
  /\ c_isReadable Demo.host (lightened Demo.host 9 (colord Demo.host "#000000"))
       "#000000" AAA = false.
Proof.
  assert (readableAttempts (repair Demo.host "#000000" "#000000") = 10%nat) as E
    by (vm_compute; reflexivity).
  split; [exact E|].
  destruct (repair_minimal Demo.host "#000000" "#000000") as [_ Hr].
  apply Hr. rewrite E. lia.
Defined.

(** ** Indexing *)

Section Index_more.

Context (H : Host).

Implicit Types (t : list Visit) (l : list nat) (x : nat).

Lemma fold_shadowRoots_NoDup t :
  forall l, NoDup l -> NoDup (fold_left visit_shadowRoots t l).
Proof.
  induction t as [|v t IH]; intros l Hl; simpl; [exact Hl|].
  apply IH. destruct v; simpl; [exact Hl|now apply set_add_NoDup].
Qed.

Lemma fold_shadowRoots_In t :
  forall l host sr sheets,
    In (VisitShadow host sr sheets) t -> In sr (fold_left visit_shadowRoots t l).
Proof.
  induction t as [|v t IH]; intros l host sr sheets Hin; simpl; [destruct Hin|].
  destruct Hin as [->|Hin]; [|now apply (IH _ host sr sheets)].
  simpl. clear IH.
  assert (forall l', In sr l' -> In sr (fold_left visit_shadowRoots t l')) as Hkeep.
  { induction t as [|v t IH]; intros l' Hl'; simpl; [exact Hl'|].
    apply IH. destruct v; simpl; [exact Hl'|]. apply set_add_In. now left. }
  apply Hkeep, set_add_In. now right.
Qed.

Lemma fold_observers_In t :
  forall m host sr sheets,
    In (VisitShadow host sr sheets) t ->
    is_Some (fold_left visit_observers t m !! host).
Proof.
  assert (forall t' m k, is_Some (m !! k) -> is_Some (fold_left visit_observers t' m !! k))
    as Hkeep.
  { intros t' m k. rewrite fold_observers_split. intros Hk. now rewrite lookup_union_l'. }
  induction t as [|v t IH]; intros m host sr sheets Hin; simpl; [destruct Hin|].
  destruct Hin as [->|Hin]; [|now apply (IH _ host sr sheets)].
  apply Hkeep. simpl.
  destruct (bool_decide (is_Some (m !! host))) eqn:E.
  - now apply bool_decide_eq_true_1 in E.
  - rewrite lookup_insert_eq. eauto.
Qed.

(** The nodes [#traverse] is called on during [#walk]: the elements
    [querySelectorAll('*')] finds under the root, or in the root's shadow
    root if it has one, and those it finds in the shadow root of an HTML
    element that is traversed, at any depth.  The root itself is not
    traversed. *)
Inductive traversed (root : Node) : Node -> Prop :=
| traversed_scope n :
    In n (querySelectorAll (walk_scope root)) -> traversed root n
| traversed_shadow host sr n :
    traversed root host ->
    isHTMLElement H (node_id host) = true ->
    node_shadowRoot host = Some sr ->
    In n (querySelectorAll (shadow_content sr)) ->
    traversed root n.

Lemma trace_incl (node : Node) :
  forall n, In n (inclusiveDescendants node) -> incl (trace H n) (trace H node).
Proof.
  induction node as [id children sr0 IHc _] using Node_induction.
  intros n Hin. simpl in Hin. destruct Hin as [<-|Hin]; [apply incl_refl|].
  intros v Hv. simpl. apply in_or_app. right.
  induction IHc as [|c cs Hc _ IHl]; simpl in *; [destruct Hin|].
  apply in_app_or in Hin. apply in_or_app.
  destruct Hin as [Hin|Hin]; [left; now apply (Hc n)|right; now apply IHl].
Qed.

Lemma trace_incl_list (scope : list Node) n :
  In n (querySelectorAll scope) -> incl (trace H n) (flat_map (trace H) scope).
Proof.
  unfold querySelectorAll.
  induction scope as [|c cs IHl]; simpl; intros Hin v Hv; [destruct Hin|].
  apply in_app_or in Hin. apply in_or_app.
  destruct Hin as [Hin|Hin]; [left; now apply (trace_incl c n)|right; now apply IHl].
Qed.

Lemma trace_host (host : Node) (sr : ShadowRoot) :
  isHTMLElement H (node_id host) = true ->
  node_shadowRoot host = Some sr ->
  In (VisitShadow (node_id host) (shadow_id sr) (shadow_styleSheets sr)) (trace H host)
  /\ incl (flat_map (trace H) (shadow_content sr)) (trace H host).
Proof.
  destruct host as [id ch s]. simpl. intros Hh ->. rewrite Hh.
  destruct sr as [sid sheets content]. simpl. split; [right; now left|].
  intros v Hv. right. right. apply in_or_app. now left.
Qed.

Lemma trace_self (n : Node) :
  isHTMLElement H (node_id n) = true -> In (VisitElement (node_id n)) (trace H n).
Proof. destruct n as [id ch s]. simpl. intros ->. now left. Qed.

(** Every visit [#traverse] makes from a traversed node is a visit of the
    walk. *)
Lemma traversed_visits root n :
  traversed root n -> incl (trace H n) (walk_visits H root).
Proof.
  induction 1 as [n Hn|host sr n _ IH Hh Hs Hn].
  - intros v Hv. unfold walk_visits. apply in_or_app. right.
    now apply (trace_incl_list _ n).
  - intros v Hv. apply IH. apply (trace_host host sr Hh Hs).
    now apply (trace_incl_list _ n).
Qed.

Lemma walk_elements root w :
  elements (walk H root w) = fold_left visit_elements (walk_visits H root) (elements w).
Proof. apply walk_frame. Qed.

Lemma walk_indices root w :
  shadowRoots (walk H root w)
  = fold_left visit_shadowRoots (walk_visits H root) (shadowRoots w)
  /\ observers (walk H root w)
     = fold_left visit_observers (walk_visits H root) (observers w).
Proof.
  rewrite walk_spec. cbv zeta. rewrite index_spec.
  destruct (preserveHoverBorderColor (config w)); split; reflexivity.
Qed.

End Index_more.

(** X7.  The Membership Set [#update] builds holds no element twice, and
    holds only HTML elements of the tree it was given: members of earlier
    passes are gone. *)
Theorem update_membership (H : Host) (root : Node) (w : World) :
  NoDup (elements (update H root w))
  /\ forall e,
      In e (elements (update H root w)) ->
      isHTMLElement H e = true /\ In e (tree_ids root).
Proof.
  rewrite update_shape.
  change (elements _) with (fold_left visit_elements (walk_visits H root) []).
  split.
  - apply fold_elements_NoDup, NoDup_nil_2.
  - intros e He. apply fold_elements_In in He. destruct He as [[]|He].
    now apply walk_visits_elements.
Qed.

(** X8.  Indexing reaches into shadow trees, at any depth: for an HTML
    element that [#traverse] is called on during the walk (the root itself
    is not one) and that hosts a shadow root, the shadow root is
    registered, an observer is bound for the host, and every HTML element
    inside the shadow root becomes a member. *)
Theorem walk_shadow_tree (H : Host) (root : Node) (w : World)
        (host : Node) (sr : ShadowRoot) :
  traversed H root host ->
  isHTMLElement H (node_id host) = true ->
  node_shadowRoot host = Some sr ->
  In (shadow_id sr) (shadowRoots (walk H root w))
  /\ is_Some (observers (walk H root w) !! node_id host)
  /\ forall n,
      In n (querySelectorAll (shadow_content sr)) ->
      isHTMLElement H (node_id n) = true ->
      In (node_id n) (elements (walk H root w)).
Proof.
  intros Ht Hh Hs.
  pose proof (traversed_visits H root host Ht) as Hincl.
  destruct (trace_host H host sr Hh Hs) as [Hv _].
  apply Hincl in Hv.
  destruct (walk_indices H root w) as [-> ->]. rewrite walk_elements.
  split; [now apply (fold_shadowRoots_In _ _ (node_id host) _ (shadow_styleSheets sr))|].
  split; [now apply (fold_observers_In _ _ _ (shadow_id sr) (shadow_styleSheets sr))|].
  intros n Hn Hhn. apply fold_elements_In. right.
  apply (traversed_visits H root n).
  - now apply (traversed_shadow H root host sr n).
  - now apply trace_self.
Qed.

Module Nested.

(** [<body>] with a [<div>] hosting a shadow root, in which a second
    [<div>] hosts a shadow root with one [<span>]. *)
Definition inner : Node := Element 2 [] (Some (Shadow 41 [] [Element 5 [] None])).

Definition outer : Node := Element 4 [] (Some (Shadow 40 [] [inner])).

Definition body : Node := Element 1 [outer] None.

End Nested.

Lemma walk_shadow_tree_witness :
  traversed Demo.host Nested.body Nested.inner
  /\ In 41 (shadowRoots (walk Demo.host Nested.body (Examples.fresh Nested.body ∅)))
  /\ In 5 (elements (walk Demo.host Nested.body (Examples.fresh Nested.body ∅))).
Proof.
  assert (traversed Demo.host Nested.body Nested.inner) as Ht.
  { apply (traversed_shadow Demo.host Nested.body Nested.outer
             (Shadow 40 [] [Nested.inner])).
    - apply traversed_scope. simpl. auto.
    - reflexivity.
    - reflexivity.
    - simpl. auto. }
  split; [exact Ht|].
  destruct (walk_shadow_tree Demo.host Nested.body (Examples.fresh Nested.body ∅)
              Nested.inner (Shadow 41 [] [Element 5 [] None]) Ht eq_refl eq_refl)
    as (Hs & _ & He).
  split; [exact Hs|]. apply (He (Element 5 [] None)); [simpl; auto|reflexivity].
Defined.

(** X9.  Observer creation is idempotent per host: indexing never replaces
    or drops an observer that is already registered. *)
Theorem walk_keeps_observers (H : Host) (root : Node) (w : World)
        (k : nat) (o : MutationObserver) :
  observers w !! k = Some o -> observers (walk H root w) !! k = Some o.
Proof.
  intros Hk. destruct (walk_indices H root w) as [_ ->].
  rewrite fold_observers_split, lookup_union_l'; [exact Hk|eauto].
Qed.

Lemma walk_keeps_observers_witness :
  observers (walk Demo.host Examples.page
               (walk Demo.host Examples.page (Examples.fresh Examples.page ∅))) !! 4
  = Some (mkObserver [ObservedShadowRoot 40]).
Proof.
  apply (walk_keeps_observers Demo.host). reflexivity.
Defined.

(** X10.  When the root of a walk hosts a shadow root, the walk goes
    through the shadow root instead of the root's own children: starting
    from an empty set, the members are the root and elements of its shadow
    tree. *)
Theorem walk_shadow_root (H : Host) (root : Node) (sr : ShadowRoot) (w : World) :
  node_shadowRoot root = Some sr ->
  forall e,
    In e (elements (walk H root (clear H w))) ->
    e = node_id root \/ In e (flat_map tree_ids (shadow_content sr)).
Proof.
  intros Hs e He. rewrite walk_elements in He.
  change (elements (clear H w)) with (@nil nat) in He.
  apply fold_elements_In in He. destruct He as [[]|He].
  unfold walk_visits, walk_scope in He. rewrite Hs in He.
  apply in_app_or in He. destruct He as [He|He].
  - destruct (isHTMLElement H (node_id root)); [|destruct He].
    destruct He as [E|[]]. injection E as <-. now left.
  - right. clear Hs.
    induction (shadow_content sr) as [|c cs IHl]; simpl in *; [destruct He|].
    apply in_app_or in He. apply in_or_app. destruct He as [He|He]; [|auto].
    left. now apply (trace_elements H c e).
Qed.

Module Hosted.

(** A root that hosts a shadow root and also has a child of its own. *)
Definition root : Node :=
  Element 4 [Element 2 [] None] (Some (Shadow 40 [] [Element 5 [] None])).

End Hosted.

Lemma walk_shadow_root_witness :
  ~ In 2 (elements (walk Demo.host Hosted.root
                      (clear Demo.host (Examples.fresh Hosted.root ∅)))).
Proof.
  intros Hin.
  destruct (walk_shadow_root Demo.host Hosted.root (Shadow 40 [] [Element 5 [] None])
              (Examples.fresh Hosted.root ∅) eq_refl 2 Hin) as [E|E].
  - discriminate.
  - simpl in E. destruct E as [E|[]]. discriminate.
Defined.

(** ** The hover rule index *)

Section Hover_facts.

Context (H : Host).

Implicit Types (m : list (string * string)) (entry : string * string).

Lemma map_set_In key value m entry :
  In entry (map_set key value m) -> entry = (key, value) \/ In entry m.
Proof.
  induction m as [|[k v] m IH]; simpl.
  - intros [<-|[]]. now left.
  - destruct (bool_decide (k = key)) eqn:E.
    + apply bool_decide_eq_true_1 in E. subst k.
      intros [<-|Hin]; [now left|right; now right].
    + intros [<-|Hin]; [right; now left|].
      destruct (IH Hin) as [->|Hm]; [now left|right; now right].
Qed.

Lemma map_set_keys key value m :
  map fst (map_set key value m)
  = if bool_decide (key ∈ map fst m) then map fst m else (map fst m ++ [key])%list.
Proof.
  induction m as [|[k v] m IH]; simpl; [reflexivity|].
  destruct (bool_decide (k = key)) eqn:E.
  - apply bool_decide_eq_true_1 in E. subst k. simpl.
    rewrite bool_decide_eq_true_2; [reflexivity|]. apply list_elem_of_here.
  - apply bool_decide_eq_false_1 in E. simpl. rewrite IH.
    destruct (bool_decide (key ∈ map fst m)) eqn:Em.
    + apply bool_decide_eq_true_1 in Em.
      rewrite bool_decide_eq_true_2; [reflexivity|]. now apply list_elem_of_further.
    + apply bool_decide_eq_false_1 in Em.
      rewrite bool_decide_eq_false_2; [reflexivity|].
      intros Hin. apply elem_of_cons in Hin. destruct Hin as [->|Hin]; auto.
Qed.

Lemma map_set_NoDup key value m :
  NoDup (map fst m) -> NoDup (map fst (map_set key value m)).
Proof.
  intros Hm. rewrite map_set_keys.
  destruct (bool_decide (key ∈ map fst m)) eqn:E; [exact Hm|].
  apply bool_decide_eq_false_1 in E.
  apply NoDup_app. split; [exact Hm|]. split; [|apply NoDup_singleton].
  intros y Hy Hy'. apply list_elem_of_singleton in Hy'. now subst.
Qed.

Lemma hover_rules_from_In sheets :
  forall m entry,
    In entry (hover_rules_from H sheets m) ->
    In entry m
    \/ In entry (hoverBorderRules H (document_styleSheets H ++ sheets)%list).
Proof.
  unfold hover_rules_from.
  induction (hoverBorderRules H (document_styleSheets H ++ sheets)%list)
    as [|r rules IH]; intros m entry Hin; simpl in *; [now left|].
  destruct (IH _ _ Hin) as [Hm|Hr]; [|right; now right].
  apply map_set_In in Hm. destruct Hm as [->|Hm]; [|now left].
  right. left. now destruct r.
Qed.

Lemma hover_rules_from_NoDup sheets :
  forall m, NoDup (map fst m) -> NoDup (map fst (hover_rules_from H sheets m)).
Proof.
  unfold hover_rules_from.
  induction (hoverBorderRules H (document_styleSheets H ++ sheets)%list)
    as [|r rules IH]; intros m Hm; simpl; [exact Hm|].
  apply IH. now apply map_set_NoDup.
Qed.

Lemma hoverBorderRules_In (sheets : list CSSStyleSheet) entry :
  In entry (hoverBorderRules H sheets) ->
  JS.test ":hover" (fst entry) = true
  /\ JS.test "border" (snd entry) = true
  /\ exists sh,
      In sh sheets /\ sameOrigin H sh = true
      /\ In entry (flat_map styleRules_of (sheet_rules sh)).
Proof.
  unfold hoverBorderRules. intros Hin.
  apply in_flat_map in Hin. destruct Hin as (sh & Hsh & Hin).
  apply filter_In in Hsh. destruct Hsh as [Hsh Ho].
  apply filter_In in Hin. destruct Hin as [Hin Ht].
  apply andb_true_iff in Ht. destruct Ht as [Ht1 Ht2].
  split; [exact Ht1|]. split; [exact Ht2|]. exists sh. auto.
Qed.

Lemma update_hoverColorRules root w :
  hoverColorRules (update H root w)
  = if preserveHoverBorderColor (config w)
    then hover_rules_from H (shadowSheets (update H root w)) []
    else [].
Proof. rewrite update_shape. reflexivity. Qed.

End Hover_facts.

(** X11.  The hover rule index after a re-theme pass is empty unless the
    preserve-hover option is set; it holds one rule per selector, and every
    rule in it comes from a same-origin sheet of the document or of an
    indexed shadow root, has [:hover] in its selector and [border] in its
    text. *)
Theorem hover_index (H : Host) (root : Node) (w : World) :
  NoDup (map fst (hoverColorRules (update H root w)))
  /\ forall entry,
      In entry (hoverColorRules (update H root w)) ->
      preserveHoverBorderColor (config w) = true
      /\ JS.test ":hover" (fst entry) = true
      /\ JS.test "border" (snd entry) = true
      /\ exists sh,
          In sh (document_styleSheets H ++ shadowSheets (update H root w))%list
          /\ sameOrigin H sh = true
          /\ In entry (flat_map styleRules_of (sheet_rules sh)).
Proof.
  rewrite update_hoverColorRules.
  destruct (preserveHoverBorderColor (config w)).
  - split; [apply hover_rules_from_NoDup, NoDup_nil_2|].
    intros entry Hin. apply hover_rules_from_In in Hin. destruct Hin as [[]|Hin].
    split; [reflexivity|]. now apply hoverBorderRules_In.
  - split; [apply NoDup_nil_2|]. intros entry [].
Qed.

Lemma hover_index_witness :
  In ("span:hover", "span:hover { border-color: #ff0000; }")
     (hoverColorRules (update Demo.host Examples.page (Examples.fresh Examples.page ∅)))
  /\ JS.test ":hover" "span:hover" = true.
Proof.
  assert (In ("span:hover", "span:hover { border-color: #ff0000; }")
            (hoverColorRules
               (update Demo.host Examples.page (Examples.fresh Examples.page ∅))))
    as Hin by (vm_compute; auto).
  split; [exact Hin|].
  destruct (hover_index Demo.host Examples.page (Examples.fresh Examples.page ∅))
    as [_ Hall].
  exact (proj1 (proj2 (Hall _ Hin))).
Defined.

(** ** Lifecycle operations *)

Section Lifecycle_more.

Context (H : Host).

Implicit Types (w : World) (root : Node).

Lemma disable_isEnabled w : isEnabled (disable H w) = false.
Proof. now rewrite disable_shape. Qed.

Lemma pass_cache_mono (els : list nat) :
  forall w,
    JS.truthy (backgroundColor w) = true ->
    backgroundColor (fold_left (darken H) els w) = backgroundColor w.
Proof.
  induction els as [|x els IH]; intros w Hc; simpl; [reflexivity|].
  rewrite IH; rewrite darken_cache_mono; auto.
Qed.

(** The cache after [#darken] of an element treated as the theming root,
    marked or not. *)
Lemma darken_cache_root w el :
  filtered H w el = false -> is_root_tag H w el = true ->
  backgroundColor (darken H w el)
  = if JS.truthy (backgroundColor w) then backgroundColor w
    else c_toHex H
           (c_withAlpha H
              (c_darken H
                 (colord H (cs_backgroundColor (getComputedStyle H (inline w) el))) 0.9)
              (pageRootAlpha (config w))).
Proof.
  intros Hf Hr. unfold darken. rewrite Hf. cbv [negb].
  pose proof (darkBackground_snd H w el) as Hs.
  assert (fst (darkBackground H w el)
          = c_toHex H
              (c_withAlpha H
                 (c_darken H
                    (colord H (cs_backgroundColor (getComputedStyle H (inline w) el))) 0.9)
                 (pageRootAlpha (config w)))) as Hd.
  { unfold darkBackground. fold (is_root_tag H w el). now rewrite Hr. }
  destruct (darkBackground H w el) as [d w1]. cbv [fst snd] in *. subst d.
  rewrite Hr in Hs. cbv [andb] in Hs.
  assert (backgroundColor w1
          = if JS.truthy (backgroundColor w) then backgroundColor w
            else c_toHex H
                   (c_withAlpha H
                      (c_darken H
                         (colord H
                            (cs_backgroundColor (getComputedStyle H (inline w) el))) 0.9)
                      (pageRootAlpha (config w)))) as Hb.
  { rewrite Hs. now destruct (JS.truthy (backgroundColor w)). }
  destruct (bool_decide (dataset_get w1 el "lightsOut" = Some "true")); [exact Hb|].
  now rewrite darken_apply_backgroundColor.
Qed.

Lemma fold_elements_head (t : list Visit) :
  forall x (l : list nat), exists l', fold_left visit_elements t (x :: l) = x :: l'.
Proof.
  induction t as [|v t IH]; intros x l; simpl; [eauto|].
  destruct v as [el|]; simpl; [|apply IH].
  unfold set_add. destruct (bool_decide (el ∈ x :: l)); apply IH.
Qed.

Lemma adopt_lookup_eq w (x : nat) :
  shadow_adoptedStyleSheets (adopt w x) !! x
  = Some (default [] (shadow_adoptedStyleSheets w !! x) ++ [EngineSheet])%list.
Proof. unfold adopt. world_simpl. apply lookup_insert_eq. Qed.

Lemma adopt_lookup_ne w (x sr : nat) :
  sr <> x -> shadow_adoptedStyleSheets (adopt w x) !! sr = shadow_adoptedStyleSheets w !! sr.
Proof. intros Hne. unfold adopt. world_simpl. rewrite lookup_insert_ne; auto. Qed.

Lemma fold_adopt_lookup (srs : list nat) :
  NoDup srs ->
  forall w sr,
    shadow_adoptedStyleSheets (fold_left adopt srs w) !! sr
    = if bool_decide (sr ∈ srs)
      then Some (default [] (shadow_adoptedStyleSheets w !! sr) ++ [EngineSheet])%list
      else shadow_adoptedStyleSheets w !! sr.
Proof.
  induction 1 as [|x srs Hx Hnd IH]; intros w sr; cbn [fold_left].
  - rewrite bool_decide_eq_false_2; [reflexivity|]. apply not_elem_of_nil.
  - rewrite IH.
    destruct (decide (sr = x)) as [->|Hne].
    + rewrite (bool_decide_eq_false_2 (x ∈ srs)) by exact Hx.
      rewrite (bool_decide_eq_true_2 (x ∈ x :: srs)) by apply list_elem_of_here.
      apply adopt_lookup_eq.
    + rewrite !adopt_lookup_ne by exact Hne.
      destruct (bool_decide (sr ∈ srs)) eqn:E.
      * apply bool_decide_eq_true_1 in E.
        rewrite bool_decide_eq_true_2; [reflexivity|]. now apply list_elem_of_further.
      * apply bool_decide_eq_false_1 in E.
        rewrite bool_decide_eq_false_2; [reflexivity|].
        intros Hin. apply elem_of_cons in Hin. destruct Hin; auto.
Qed.

End Lifecycle_more.

(** X12.  [toggle()] without an argument flips the enabled flag; with an
    argument it drives the engine to that state. *)
Theorem toggle_state (H : Host) (force : option bool) (w : World) :
  isEnabled (toggle H force w)
  = match force with
    | Some b => b
    | None => negb (isEnabled w)
    end.
Proof.
  unfold toggle. destruct force as [[|]|]; [| |destruct (isEnabled w)]; cbv [negb];
    first [apply enable_isEnabled | apply disable_isEnabled].
Qed.

(** X13.  The generated sheet is injected on every [enable()] and is only
    emptied, never removed, by [disable()]: [enable()] fills it with the
    configured rules and appends it to [document.adoptedStyleSheets];
    [disable()] empties its text and leaves every adopted list as it
    is. *)
Theorem sheet_lifecycle (H : Host) (w : World) :
  sheet (enable H w) = cssRules (config w)
  /\ document_adoptedStyleSheets (enable H w)
     = (document_adoptedStyleSheets w ++ [EngineSheet])%list
  /\ sheet (disable H w) = ""
  /\ document_adoptedStyleSheets (disable H w) = document_adoptedStyleSheets w
  /\ shadow_adoptedStyleSheets (disable H w) = shadow_adoptedStyleSheets w.
Proof.
  split; [|split].
  - unfold enable. cbv zeta.
    match goal with
    | |- sheet (update H ?r ?x) = _ =>
        destruct (update_frame H r x) as (_ & _ & E & _); rewrite E
    end. reflexivity.
  - unfold enable. cbv zeta.
    match goal with
    | |- document_adoptedStyleSheets (update H ?r ?x) = _ =>
        destruct (update_frame H r x) as (_ & _ & _ & _ & _ & E); rewrite E
    end. reflexivity.
  - rewrite disable_shape. repeat split.
Qed.

(** X14.  A re-theme pass adopts the engine's sheet once more in every
    shadow root it indexed, appending to what the shadow root had adopted,
    and touches the adopted list of no other shadow root. *)
Theorem update_adopts (H : Host) (root : Node) (w : World) (sr : nat) :
  shadow_adoptedStyleSheets (update H root w) !! sr
  = if bool_decide (sr ∈ shadowRoots (update H root w))
    then Some (default [] (shadow_adoptedStyleSheets w !! sr) ++ [EngineSheet])%list
    else shadow_adoptedStyleSheets w !! sr.
Proof.
  assert (shadowRoots (themed H root w)
          = fold_left visit_shadowRoots (walk_visits H root) []) as E.
  { rewrite themed_shape. unfold indexed. cbv zeta. world_simpl. reflexivity. }
  assert (shadow_adoptedStyleSheets (themed H root w) = shadow_adoptedStyleSheets w) as Ea.
  { rewrite themed_shape. unfold indexed. cbv zeta. world_simpl. reflexivity. }
  assert (shadowRoots (update H root w) = shadowRoots (themed H root w)) as ->.
  { rewrite update_themed, adopt_only. world_simpl. reflexivity. }
  rewrite update_themed, fold_adopt_lookup.
  - now rewrite Ea.
  - rewrite E. apply fold_shadowRoots_NoDup, NoDup_nil_2.
Qed.

(** X15.  [disable()] resets the engine and unthemes every member: the
    indices and the registry are empty, the cache and the sheet are
    emptied, the configuration and the theming root are kept, and no
    element that was a member, or that the final re-index found, keeps the
    marker. *)
Theorem disable_resets (H : Host) (w : World) :
  isEnabled (disable H w) = false
  /\ elements (disable H w) = []
  /\ shadowRoots (disable H w) = []
  /\ shadowSheets (disable H w) = []
  /\ hoverColorRules (disable H w) = []
  /\ backgroundColor (disable H w) = ""
  /\ config (disable H w) = config w
  /\ pageRoot (disable H w) = pageRoot w
  /\ forall e,
      In e (elements (walk H (pageRoot w) w)) -> marked (disable H w) e = false.
Proof.
  rewrite disable_shape. repeat split.
  intros e He.
  rewrite (marked_ext (restored H w)) by reflexivity.
  unfold restored. cbv zeta. apply unpass_unmarks. left.
  change (In e (elements (walk H (pageRoot w) (set_isEnabled false w)))).
  rewrite walk_elements in *. exact He.
Qed.

Lemma disable_resets_witness :
  marked (enable Demo.host Cases.bordered) 2 = true
  /\ marked (disable Demo.host (enable Demo.host Cases.bordered)) 2 = false.
Proof.
  split; [vm_compute; reflexivity|].
  apply (disable_resets Demo.host (enable Demo.host Cases.bordered)).
  vm_compute. auto.
Defined.

(** X16.  Assigning an HTML element to [pageRoot] succeeds and only
    re-binds: the element becomes the theming root; on an enabled engine
    the root observer is disconnected and observes the new root alone, on a
    disabled one it is left alone; nothing is re-indexed or re-themed. *)
Theorem pageRoot_accepts (H : Host) (root : Node) (w : World) :
  isHTMLElement H (node_id root) = true ->
  let w' := snd (pageRoot_setter H (JSElement root) w) in
  fst (pageRoot_setter H (JSElement root) w) = Normal
  /\ pageRoot w' = root
  /\ pageObserver w'
     = (if isEnabled w then mkObserver [ObservedElement (node_id root)]
        else pageObserver w)
  /\ w' = set_pageObserver (pageObserver w') (set_pageRoot root w).
Proof.
  intros Hh. unfold pageRoot_setter. rewrite Hh. cbv [negb].
  change (isEnabled (set_pageRoot root w)) with (isEnabled w).
  destruct (isEnabled w); cbv [fst snd]; repeat split.
Qed.

Lemma pageRoot_accepts_witness :
  pageRoot (snd (pageRoot_setter Demo.host (JSElement Examples.app)
                   (enable Demo.host (Examples.fresh Examples.page ∅))))
  = Examples.app
  /\ observing (pageObserver
                  (snd (pageRoot_setter Demo.host (JSElement Examples.app)
                          (enable Demo.host (Examples.fresh Examples.page ∅)))))
     = [ObservedElement 2].
Proof.
  destruct (pageRoot_accepts Demo.host Examples.app
              (enable Demo.host (Examples.fresh Examples.page ∅)) eq_refl)
    as (_ & Hp & Ho & _).
  split; [exact Hp|]. rewrite Ho, (enable_isEnabled Demo.host). reflexivity.
Defined.

(** X17.  The reported background colour is cached: once it is non-empty
    no re-theme pass changes it. *)
Theorem cache_sticky (H : Host) (root : Node) (w : World) :
  JS.truthy (backgroundColor w) = true ->
  backgroundColor (update H root w) = backgroundColor w.
Proof.
  intros Hc. rewrite update_shape.
  change (backgroundColor (themed H root w) = backgroundColor w).
  unfold themed. now rewrite pass_cache_mono.
Qed.

Lemma cache_sticky_witness :
  backgroundColor (update Demo.host Examples.page
                     (set_backgroundColor "#123456" (Examples.fresh Examples.page ∅)))
  = "#123456".
Proof.
  apply (cache_sticky Demo.host). reflexivity.
Defined.

(** X18.  [enable()] on an engine whose cache is empty reports the
    darkened background of the theming root: when the root is an HTML
    element the filter does not exclude, [backgroundColor] is the root's
    computed background darkened by 0.9 at the configured alpha, computed
    before anything was themed. *)
Theorem enable_caches_root (H : Host) (w : World) :
  isHTMLElement H (node_id (pageRoot w)) = true ->
  filtered H w (node_id (pageRoot w)) = false ->
  backgroundColor w = "" ->
  backgroundColor (enable H w)
  = c_toHex H
      (c_withAlpha H
         (c_darken H
            (colord H
               (cs_backgroundColor
                  (getComputedStyle H (inline w) (node_id (pageRoot w))))) 0.9)
         (pageRootAlpha (config w))).
Proof.
  intros Hh Hf Hb. unfold enable. cbv zeta.
  set (w4 := set_document_adoptedStyleSheets _ _).
  change (pageRoot w4) with (pageRoot w).
  rewrite update_shape.
  change (backgroundColor (set_shadow_adoptedStyleSheets _ _))
    with (backgroundColor (themed H (pageRoot w) w4)).
  unfold themed.
  set (k := indexed H (pageRoot w) w4).
  assert (exists l', elements k = node_id (pageRoot w) :: l') as [l' El].
  { change (elements k)
      with (fold_left visit_elements (walk_visits H (pageRoot w)) []).
    unfold walk_visits. rewrite Hh, fold_left_app. simpl.
    unfold set_add at 1.
    rewrite bool_decide_eq_false_2 by apply not_elem_of_nil.
    apply fold_elements_head. }
  rewrite El. simpl.
  assert (backgroundColor (darken H k (node_id (pageRoot w)))
          = c_toHex H
              (c_withAlpha H
                 (c_darken H
                    (colord H
                       (cs_backgroundColor
                          (getComputedStyle H (inline w) (node_id (pageRoot w))))) 0.9)
                 (pageRootAlpha (config w)))) as Hc.
  { rewrite darken_cache_root.
    - change (backgroundColor k) with (backgroundColor w). rewrite Hb. reflexivity.
    - rewrite <- Hf. apply filtered_ext; reflexivity.
    - unfold is_root_tag. change (pageRoot k) with (pageRoot w).
      now apply bool_decide_eq_true_2. }
  rewrite pass_cache_mono; [exact Hc|].
  rewrite Hc. apply c_toHex_truthy.
Qed.

Lemma enable_caches_root_witness :
  backgroundColor (enable Demo.host Cases.bordered) = "#000000".
Proof.
  exact (enable_caches_root Demo.host Cases.bordered eq_refl eq_refl eq_refl).
Defined.

(** X19.  A re-theme pass writes to members only: an element that is not
    in the Membership Set it built keeps its inline state. *)
Theorem update_frame_outside (H : Host) (root : Node) (w : World) (e : nat) :
  ~ In e (elements (update H root w)) ->
  inline (update H root w) !! e = inline w !! e.
Proof.
  rewrite update_shape.
  change (~ In e (elements (indexed H root w)) ->
          inline (themed H root w) !! e = inline w !! e).
  intros Hn. unfold themed. now rewrite pass_frame.
Qed.

Module Outside.

Import Examples.

(** The example page, its [<svg>] carrying an inline colour. *)
Definition drawn : World := fresh page {[ 6 := declared [("color", "#ff0000")] ]}.

End Outside.

Lemma update_frame_outside_witness :
  inline (update Demo.host Examples.page Outside.drawn) !! 6
  = Some (Examples.declared [("color", "#ff0000")]).
Proof.
  rewrite (update_frame_outside Demo.host Examples.page Outside.drawn 6).
  - reflexivity.
  - vm_compute. intros Hin.
    repeat (destruct Hin as [Hin|Hin]; [discriminate|]). exact Hin.
Defined.

(** X20.  After a re-theme pass every member is excluded by the Filter
    Policy or carries the themed marker. *)
Theorem update_marks_members (H : Host) (root : Node) (w : World) (x : nat) :
  stable_matching H ->
  In x (elements (update H root w)) ->
  filtered H (update H root w) x = true \/ marked (update H root w) x = true.
Proof.
  intros Hst Hin.
  destruct (update_settles H root w x (stable_filter H (config w) Hst) Hin)
    as [Hf|[Hm _]]; auto.
Qed.

Lemma update_marks_members_witness :
  filtered Demo.host (update Demo.host Examples.page Cases.bordered) 3 = true
  /\ marked (update Demo.host Examples.page Cases.bordered) 2 = true.
Proof.
  split; [vm_compute; reflexivity|].
  destruct (update_marks_members Demo.host Examples.page Cases.bordered 2
              Examples.demo_stable) as [Hf|Hm].
  - vm_compute. auto.
  - vm_compute in Hf. discriminate.
  - exact Hm.
Defined.
(** ** The constructor *)

(** The double quote character. *)
Definition dq : string := String (ascii_of_nat 34) EmptyString.

(** [LightsOut.defaultCssRules] *)
Definition defaultCssRules : string :=
"
    ::-webkit-scrollbar {
      background-color: #333;
    }
    ::-webkit-scrollbar-thumb {
      background-color: #555;
    }
    ::-webkit-scrollbar-track {
      background-color: #333;
    }
    ::-webkit-scrollbar-corner {
      background-color: #333;
    }
    ::-webkit-scrollbar-button {
      background-color: #333;
    }
    ::-webkit-scrollbar-thumb:hover {
      background-color: #777;
    }
    ::-webkit-scrollbar-thumb:active {
      background-color: #999;
    }
    ::-webkit-scrollbar-track:hover {
      background-color: #444;
    }
    ::-webkit-scrollbar-track:active {
      background-color: #555;
    }
    ::-webkit-scrollbar-button:hover {
      background-color: #444;
    }
    ::-webkit-scrollbar-button:active {
      background-color: #555;
    }
    ::-webkit-scrollbar-corner:hover {
      background-color: #444;
    }
    ::-webkit-scrollbar-corner:active {
      background-color: #555;
    }
    * {
      scrollbar-color: #333 #555 !important;
    }
    input[type=" ++ dq ++
"checkbox" ++ dq ++
"], input[type=" ++ dq ++
"radio" ++ dq ++
"] {
      filter: invert(100%) hue-rotate(180deg) brightness(95%) contrast(20%);
    }
    input[type=" ++ dq ++
"checkbox" ++ dq ++
"]:checked,
    input[type=" ++ dq ++
"radio" ++ dq ++
"]:checked {
      filter: none !important;
    }
    img[src$=" ++ dq ++
".png" ++ dq ++
"], img[src$=" ++ dq ++
".svg" ++ dq ++
"] {
      filter: invert(100%) hue-rotate(180deg) brightness(95%) contrast(70%);
    }
  ".

(** [String.prototype.replace] with a string pattern: the first occurrence
    of [pattern] is replaced by [replacement], in which [$$], [$&], [$`]
    and [$'] stand for a dollar sign, the match, and the text before and
    after it. *)
Module JSReplace.

Definition drop (n : nat) (s : string) : string :=
String.substring n (String.length s - n) s.

Fixpoint expand (matched before after replacement : string) : string :=
match replacement with
| EmptyString => EmptyString
| String c rest =>
    if Ascii.eqb c "$" then
      match rest with
      | EmptyString => String c EmptyString
      | String c' rest' =>
          if Ascii.eqb c' "$" then String "$" (expand matched before after rest')
          else if Ascii.eqb c' "&" then matched ++ expand matched before after rest'
          else if Ascii.eqb c' "`" then before ++ expand matched before after rest'
          else if Ascii.eqb c' "'" then after ++ expand matched before after rest'
          else String c (expand matched before after rest)
      end
    else String c (expand matched before after rest)
end.

(** [before] is what precedes [s] in the whole string. *)
Fixpoint replace_from (pattern replacement before s : string) : string :=
if String.prefix pattern s then
  before
  ++ expand pattern before (drop (String.length pattern) s) replacement
  ++ drop (String.length pattern) s
else
  match s with
  | EmptyString => before
  | String c s' => replace_from pattern replacement (before ++ String c EmptyString) s'
  end.

Definition replace (s pattern replacement : string) : string :=
replace_from pattern replacement EmptyString s.

End JSReplace.

(** The options object; an absent option is [None]. *)
Record LightsOutOptions : Type := mkOptions {
  opt_verbose : option bool;
  opt_pageRoot : option Node;
  opt_pageRootAlpha : option Q;
  opt_cssStyleSheet : option CSSStyleSheet;
  opt_filterSelectors : option (list string);
  opt_attributeFilter : option (list string);
  opt_preserveHoverBorderColor : option bool
}.

(** [new Set(array)] for strings, in insertion order. *)
Definition string_set_add (s : string) (l : list string) : list string :=
if bool_decide (s ∈ l) then l else (l ++ [s])%list.

Definition string_set (l : list string) : list string :=
fold_left (fun acc s => string_set_add s acc) l [].

(** [#htmlFilterSet]; [toLowerCase] is the platform's
    [String.prototype.toLowerCase], which the selectors of the options,
    arbitrary strings, go through. *)
Definition make_htmlFilterSet (toLowerCase : string -> string)
                              (filterSelectors : option (list string)) : list string :=
match filterSelectors with
| Some l => string_set (map toLowerCase l)
| None => string_set Examples.defaultFilterSelectors
end.

(** [#selector] *)
Definition make_selector (htmlFilterSet : list string) : string :=
String.concat ""
  (map (fun tag => ":not(" ++ tag ++ ")")
       (List.filter (fun tag => negb (JS.startsWith tag ":")) htmlFilterSet)).

(** [rule.cssText]; [serialize] is the browser's text of the rules that
    are not style rules. *)
Definition cssText_of (serialize : CSSRule -> string) (rule : CSSRule) : string :=
match rule with
| CSSStyleRule _ text => text
| _ => serialize rule
end.

(** [#cssRules] *)
Definition make_cssRules (serialize : CSSRule -> string)
                         (cssStyleSheet : option CSSStyleSheet)
                         (selector : string) : string :=
match cssStyleSheet with
| Some sh =>
    String.concat (String (ascii_of_nat 10) EmptyString)
                  (map (cssText_of serialize) (sheet_rules sh))
| None => JSReplace.replace defaultCssRules "*" selector
end.

(** The [attributeFilter] of [#mutationObserverOptions]; [None] when
    attributes are not observed. *)
Definition make_attributeFilter (attributeFilter : option (list string))
  : option (list string) :=
match attributeFilter with
| Some l => Some (List.filter (fun attr => negb (bool_decide (attr = "style"))) l)
| None => None
end.

(** The state of the document the engine is created in: whether the
    global [window] is truthy, [document.body], the inline state of the
    elements and the adopted sheets of the document and of its shadow
    roots. *)
Record Document : Type := mkDocument {
  doc_window : bool;
  doc_body : Node;
  doc_inline : gmap nat Inline;
  doc_adoptedStyleSheets : list SheetRef;
  doc_shadow_adoptedStyleSheets : gmap nat (list SheetRef)
}.

(** [new LightsOut(options)]: the message of the error thrown, or the new
    engine in its document.  [serialize] and [toLowerCase] are the
    platform's [rule.cssText] and [String.prototype.toLowerCase]. *)
Definition construct (doc : Document) (serialize : CSSRule -> string)
                     (toLowerCase : string -> string)
                     (options : LightsOutOptions) : string + World :=
if negb (doc_window doc) then inl "LightsOut requires a window to be initialized."
else
  let htmlFilterSet := make_htmlFilterSet toLowerCase (opt_filterSelectors options) in
  let selector := make_selector htmlFilterSet in
  inr (mkWorld
         (mkConfig (default false (opt_verbose options))
                   (default 1%Q (opt_pageRootAlpha options))
                   (default false (opt_preserveHoverBorderColor options))
                   htmlFilterSet
                   (make_cssRules serialize (opt_cssStyleSheet options) selector)
                   (make_attributeFilter (opt_attributeFilter options)))
         false "" [] ∅ [] [] []
         (default (doc_body doc) (opt_pageRoot options))
         (mkObserver []) ""
         (doc_inline doc) (doc_adoptedStyleSheets doc)
         (doc_shadow_adoptedStyleSheets doc)).

Section Constructor_facts.

Implicit Types (l : list string) (s : string).

Lemma string_set_add_In s x l : In s (string_set_add x l) <-> In s l \/ s = x.
Proof.
  unfold string_set_add. destruct (bool_decide (x ∈ l)) eqn:E.
  - apply bool_decide_eq_true_1, list_elem_of_In in E.
    split; [auto|]. intros [Hs| ->]; auto.
  - rewrite in_app_iff. simpl. split.
    + intros [Hs|[->|[]]]; auto.
    + intros [Hs| ->]; auto.
Qed.

Lemma string_set_add_NoDup x l : NoDup l -> NoDup (string_set_add x l).
Proof.
  intros Hl. unfold string_set_add. destruct (bool_decide (x ∈ l)) eqn:E; [exact Hl|].
  apply bool_decide_eq_false_1 in E.
  apply NoDup_app. split; [exact Hl|]. split; [|apply NoDup_singleton].
  intros y Hy Hy'. apply list_elem_of_singleton in Hy'. now subst.
Qed.

Lemma string_set_spec l :
  NoDup (string_set l) /\ forall s, In s (string_set l) <-> In s l.
Proof.
  unfold string_set.
  assert (forall acc,
             NoDup acc ->
             NoDup (fold_left (fun acc' x => string_set_add x acc') l acc)
             /\ forall s,
                 In s (fold_left (fun acc' x => string_set_add x acc') l acc)
                 <-> In s acc \/ In s l) as Hgen.
  { induction l as [|x l IH]; intros acc Hacc; simpl.
    - split; [exact Hacc|]. intros s. split; [auto|]. intros [Hs|[]]; auto.
    - destruct (IH (string_set_add x acc) (string_set_add_NoDup x acc Hacc)) as [Hn Hi].
      split; [exact Hn|]. intros s. rewrite Hi, string_set_add_In.
      split.
      + intros [[Hs| ->]|Hs]; auto.
      + intros [Hs|[->|Hs]]; auto. }
  destruct (Hgen [] (NoDup_nil_2 (A:=string))) as [Hn Hi]. split; [exact Hn|].
  intros s. rewrite Hi. split; [intros [[]|Hs]; exact Hs|auto].
Qed.

(** Filtering with either equality test gives the same list. *)
Lemma filter_style_eqb l :
  List.filter (fun attr => negb (bool_decide (attr = "style"))) l
  = List.filter (fun attr => negb (String.eqb attr "style")) l.
Proof.
  apply filter_ext. intros a. f_equal.
  destruct (String.eqb_spec a "style") as [-> |Hne].
  - now apply bool_decide_eq_true_2.
  - now apply bool_decide_eq_false_2.
Qed.

End Constructor_facts.

(** X21.  The engine never observes the [style] attribute: the observer's
    attribute filter is the configured list with every [style] entry
    removed and everything else in place, in order and with duplicates; a
    list without [style] is taken as it is; no attribute is observed when
    none is configured. *)
Theorem construct_attributeFilter (doc : Document) (serialize : CSSRule -> string)
        (toLowerCase : string -> string) (options : LightsOutOptions) (w : World) :
  construct doc serialize toLowerCase options = inr w ->
  attributeFilter (config w)
  = match opt_attributeFilter options with
    | Some l => Some (List.filter (fun attr => negb (String.eqb attr "style")) l)
    | None => None
    end
  /\ (forall l', attributeFilter (config w) = Some l' -> ~ In "style" l')
  /\ (forall l,
         opt_attributeFilter options = Some l ->
         ~ In "style" l ->
         attributeFilter (config w) = Some l).
Proof.
  unfold construct. destruct (negb (doc_window doc)); [discriminate|].
  intros E. injection E as <-.
  cbv [config attributeFilter make_attributeFilter].
  split; [|split].
  - destruct (opt_attributeFilter options) as [l|]; [|reflexivity].
    now rewrite filter_style_eqb.
  - intros l' Hl'. destruct (opt_attributeFilter options) as [l|]; [|discriminate].
    injection Hl' as <-. intros Hin. apply filter_In in Hin. destruct Hin as [_ Hs].
    rewrite bool_decide_eq_true_2 in Hs by reflexivity. discriminate.
  - intros l -> Hn. f_equal. clear -Hn.
    induction l as [|a l IH]; [reflexivity|]. cbn [List.filter].
    rewrite bool_decide_eq_false_2 by (intros ->; apply Hn; now left).
    cbv [negb]. f_equal. apply IH. intros Hin. apply Hn. now right.
Qed.

Module Built.

(** A document with a window, and options that ask for the observation
    of [class] (twice), [style] and [id], and give selectors in mixed
    case; the selectors are ASCII, and the platform lower-cases them as
    [JS.toLowerCase] does. *)
Definition document0 : Document :=
  mkDocument true Examples.page ∅ [] ∅.

Definition options0 : LightsOutOptions :=
  mkOptions None None None None (Some ["IMG"; "Svg"; "img"; ":hover"])
            (Some ["class"; "style"; "id"; "class"]) None.

Definition engine0 : World :=
  match construct document0 (fun _ => EmptyString) JS.toLowerCase options0 with
  | inr w => w
  | inl _ => Examples.fresh Examples.page ∅
  end.

End Built.

Lemma construct_attributeFilter_witness :
  construct Built.document0 (fun _ => EmptyString) JS.toLowerCase Built.options0
  = inr Built.engine0
  /\ attributeFilter (config Built.engine0) = Some ["class"; "id"; "class"].
Proof.
  split; [reflexivity|].
  destruct (construct_attributeFilter Built.document0 (fun _ => EmptyString)
              JS.toLowerCase Built.options0 Built.engine0 eq_refl) as (Hf & _).
  exact Hf.
Defined.

(** X22.  The Filter Policy the constructor builds holds the configured
    selectors as the platform lower-cases them, each once; it is the
    default list when none is configured. *)
Theorem construct_filter_set (doc : Document) (serialize : CSSRule -> string)
        (toLowerCase : string -> string) (options : LightsOutOptions) (w : World) :
  construct doc serialize toLowerCase options = inr w ->
  NoDup (htmlFilterSet (config w))
  /\ (forall l,
         opt_filterSelectors options = Some l ->
         forall s,
           In s (htmlFilterSet (config w)) <-> exists s', In s' l /\ toLowerCase s' = s)
  /\ (opt_filterSelectors options = None ->
      htmlFilterSet (config w) = Examples.defaultFilterSelectors).
Proof.
  unfold construct. destruct (negb (doc_window doc)); [discriminate|].
  intros E. injection E as <-.
  cbv [config htmlFilterSet]. fold Examples.defaultFilterSelectors.
  split; [|split].
  - unfold make_htmlFilterSet. destruct (opt_filterSelectors options); apply string_set_spec.
  - intros l ->. intros s. cbv [make_htmlFilterSet].
    rewrite (proj2 (string_set_spec _)), in_map_iff.
    split; intros (s' & A & B); exists s'; auto.
  - intros ->. reflexivity.
Qed.

Lemma construct_filter_set_witness :
  htmlFilterSet (config Built.engine0) = ["img"; "svg"; ":hover"]
  /\ NoDup (htmlFilterSet (config Built.engine0)).
Proof.
  split; [reflexivity|].
  apply (construct_filter_set Built.document0 (fun _ => EmptyString) JS.toLowerCase
           Built.options0).
  reflexivity.
Defined.

(** ** Gradients *)

(** The computed background image of [el] depends on the document only
    through the element's own inline [background-image]. *)
Definition local_image (H : Host) (el : nat) : Prop :=
forall st st',
  style (default no_inline (st !! el)) !! "background-image"
  = style (default no_inline (st' !! el)) !! "background-image" ->
  cs_backgroundImage (getComputedStyle H st el)
  = cs_backgroundImage (getComputedStyle H st' el).

(** The test [#darken] makes on the computed background image. *)
Definition is_gradient (image : string) : bool :=
negb (bool_decide (image = "none")) && JS.test "-gradient(" image.

(** The gradient with each colour token re-coloured. *)
Definition gradient_rewrite (H : Host) (image : string) : string :=
replaceAll_colorValue H image
  (fun match_ =>
     let color := colord H match_ in
     if c_isDark H color
     then c_toHex H (c_lighten H color 0.7)
     else c_toHex H (c_darken H color 0.7)).

Section Gradient_facts.

Context (H : Host).

Implicit Types (w : World) (el : nat).

Lemma darken_gradient_spec el w :
  let image := cs_backgroundImage (getComputedStyle H (inline w) el) in
  if is_gradient image then
    dataset_get (darken_gradient H el w) el "lightsOutGradient" = Some "true"
    /\ style_lookup (darken_gradient H el w) el "background-image"
       = inline_value_of (gradient_rewrite H image)
    /\ dataset_get (darken_gradient H el w) el "originalBgImage"
       = (if JS.truthy (style_get w el "background-image")
          then Some (style_get w el "background-image")
          else dataset_get w el "originalBgImage")
  else darken_gradient H el w = w.
Proof.
  intros image. unfold darken_gradient. fold image. fold (is_gradient image).
  destruct (is_gradient image); [|reflexivity].
  fold (gradient_rewrite H image).
  split; [apply dataset_get_set_eq|]. split.
  - rewrite style_lookup_dataset_set. unfold inline_value_of.
    destruct (JS.truthy (gradient_rewrite H image)) eqn:E.
    + now apply style_lookup_setProperty_eq.
    + unfold style_setProperty, style_lookup. rewrite inline_of_insert_eq.
      unfold CSSStyleDeclaration.setProperty. unfold JS.truthy in E.
      destruct (bool_decide (gradient_rewrite H image = "")); [|discriminate].
      cbv [style]. apply lookup_delete_eq.
  - rewrite dataset_get_set_ne by discriminate. rewrite dataset_get_setProperty.
    destruct (JS.truthy _); [apply dataset_get_set_eq|reflexivity].
Qed.

(** The background image and the gradient marker after [#undarken] of a
    marked element. *)
Lemma undarken_gradient w el :
  marked w el = true ->
  let g := JS.truthy_opt (dataset_get w el "lightsOutGradient") in
  style_lookup (undarken w el) el "background-image"
  = (if g then snapshot w el "originalBgImage"
     else style_lookup w el "background-image")
  /\ dataset_get (undarken w el) el "lightsOutGradient"
     = (if g then None else dataset_get w el "lightsOutGradient")
  /\ dataset_get (undarken w el) el "originalBgImage"
     = (if g && JS.truthy_opt (dataset_get w el "originalBgImage")
        then None else dataset_get w el "originalBgImage").
Proof.
  intros Hm g. unfold undarken. unfold marked in Hm. rewrite Hm.
  set (w4 := restore el "originalBorderColor" "border-color" _).
  assert (forall k, k = "lightsOutGradient" \/ k = "originalBgImage" ->
                    dataset_get w4 el k = dataset_get w el k) as Hd.
  { intros k Hk. unfold w4.
    rewrite !restore_dataset_ne by (destruct Hk as [-> | ->]; discriminate).
    apply dataset_get_delete_ne. destruct Hk as [-> | ->]; discriminate. }
  assert (style_lookup w4 el "background-image" = style_lookup w el "background-image")
    as Hs.
  { unfold w4. rewrite !restore_style_ne by discriminate.
    apply style_lookup_dataset_delete. }
  rewrite (Hd "lightsOutGradient") by auto. fold g.
  destruct g.
  - split; [|split].
    + rewrite restore_style_eq. unfold snapshot.
      rewrite dataset_get_delete_ne by discriminate. now rewrite Hd by auto.
    + rewrite restore_dataset_ne by discriminate. apply dataset_get_delete_eq.
    + rewrite restore_dataset_eq. rewrite dataset_get_delete_ne by discriminate.
      now rewrite Hd by auto.
  - split; [exact Hs|]. split; apply Hd; auto.
Qed.

End Gradient_facts.

(** X23.  Gradients survive the round trip.  For an element themed for the
    first time, with no stale gradient snapshot, whose computed background
    image depends on its own inline declaration only: if the image is a
    gradient, [#darken] marks the rewrite and writes the re-coloured
    gradient, and [#undarken] puts back the declared background image (or
    removes the declaration) and clears the marker; if it is not a
    gradient, neither operation touches the inline background image. *)
Theorem gradient_roundtrip (H : Host) (w : World) (el : nat) :
  local_image H el ->
  filtered H w el = false ->
  marked w el = false ->
  dataset_get w el "originalBgImage" = None ->
  dataset_get w el "lightsOutGradient" = None ->
  let image := cs_backgroundImage (getComputedStyle H (inline w) el) in
  let w1 := darken H w el in
  let w2 := undarken w1 el in
  if is_gradient image then
    dataset_get w1 el "lightsOutGradient" = Some "true"
    /\ style_lookup w1 el "background-image" = inline_value_of (gradient_rewrite H image)
    /\ style_lookup w2 el "background-image" = inline_value w el "background-image"
    /\ dataset_get w2 el "lightsOutGradient" = None
    /\ dataset_get w2 el "originalBgImage" = None
  else
    style_lookup w1 el "background-image" = style_lookup w el "background-image"
    /\ style_lookup w2 el "background-image" = style_lookup w el "background-image"
    /\ dataset_get w1 el "lightsOutGradient" = None.
Proof.
  intros Hloc Hf Hm Ho Hg image w1 w2. unfold w2, w1. clear w1 w2.
  destruct (darken_fresh H w el Hf Hm) as (d & w0 & _ & Hi & _ & ->).
  set (a := c_alpha H _). set (c := colored _).
  rewrite darken_apply_eq.
  set (w3 := darken_border H el a c (snapshotted el w0)).
  assert (style_lookup w3 el "background-image" = style_lookup w el "background-image")
    as Hs3.
  { unfold w3. rewrite darken_border_style_ne by discriminate.
    rewrite snapshotted_style. unfold style_lookup, inline_of. now rewrite Hi. }
  assert (forall k, k = "lightsOutGradient" \/ k = "originalBgImage" ->
                    dataset_get w3 el k = None) as Hd3.
  { intros k Hk. unfold w3.
    rewrite darken_border_dataset_ne by (destruct Hk as [-> | ->]; discriminate).
    rewrite snapshotted_dataset_ne by (destruct Hk as [-> | ->]; discriminate).
    unfold dataset_get, inline_of in *. rewrite Hi.
    destruct Hk as [-> | ->]; assumption. }
  assert (cs_backgroundImage (getComputedStyle H (inline w3) el) = image) as Himg.
  { unfold image. apply Hloc. exact Hs3. }
  pose proof (darken_gradient_spec H el w3) as Hspec. cbv zeta in Hspec.
  rewrite Himg in Hspec.
  set (w4 := darken_gradient H el w3) in *.
  set (w' := dataset_set el "lightsOut" "true" _).
  assert (forall p, p = "background-image" ->
                    style_lookup w' el p = style_lookup w4 el p) as Hs'.
  { intros p ->. unfold w'. rewrite style_lookup_dataset_set.
    now rewrite !style_lookup_setProperty_ne by discriminate. }
  assert (forall k, k = "lightsOutGradient" \/ k = "originalBgImage" ->
                    dataset_get w' el k = dataset_get w4 el k) as Hd'.
  { intros k Hk. unfold w'.
    rewrite dataset_get_set_ne by (destruct Hk as [-> | ->]; discriminate).
    now rewrite !dataset_get_setProperty. }
  assert (marked w' el = true) as Hmk
    by (unfold marked, w'; rewrite dataset_get_set_eq; now apply bool_decide_eq_true_2).
  destruct (undarken_gradient w' el Hmk) as (Us & Ug & Uo). cbv zeta in Us, Ug, Uo.
  rewrite (Hd' "lightsOutGradient") in Us, Ug, Uo by auto.
  rewrite (Hd' "originalBgImage") in Uo by auto.
  unfold snapshot in Us. rewrite (Hd' "originalBgImage") in Us by auto.
  rewrite (Hs' "background-image") in Us by reflexivity.
  rewrite (Hs' "background-image") by reflexivity.
  rewrite (Hd' "lightsOutGradient") by auto.
  destruct (is_gradient image).
  - destruct Hspec as (Gm & Gs & Go).
    rewrite Gm in Us, Ug, Uo. cbv [JS.truthy_opt] in Us, Ug, Uo.
    assert (JS.truthy "true" = true) as Ht by reflexivity.
    rewrite Ht in Us, Ug, Uo. rewrite Go in Us, Uo.
    rewrite (Hd3 "originalBgImage") in Us, Uo by auto.
    assert (style_get w3 el "background-image" = style_get w el "background-image") as Hsg
      by (rewrite !style_get_lookup; now rewrite Hs3).
    rewrite Hsg in Us, Uo.
    split; [exact Gm|]. split; [exact Gs|]. split; [|split; [exact Ug|]].
    + rewrite Us. unfold inline_value.
      destruct (JS.truthy (style_get w el "background-image")) eqn:E;
        cbv [JS.truthy_opt]; rewrite ?E; reflexivity.
    + rewrite Uo.
      destruct (JS.truthy (style_get w el "background-image")) eqn:E;
        cbv [JS.truthy_opt andb]; rewrite ?E; reflexivity.
  - rewrite Hspec in *.
    rewrite (Hd3 "lightsOutGradient") in Us by auto. cbv [JS.truthy_opt] in Us.
    split; [exact Hs3|]. split; [now rewrite Us|]. apply Hd3. auto.
Qed.

Module Gradients.

Import Examples.

(** A [<div>] with an inline two-stop gradient. *)
Definition striped : World :=
  fresh page
    {[ 2 := declared [("background-image", "linear-gradient(#ffffff, #000000)")] ]}.

End Gradients.

Lemma demo_local_image (el : nat) : local_image Demo.host el.
Proof.
  intros st st' E. cbv [Demo.host getComputedStyle Demo.getComputedStyle cs_backgroundImage].
  now rewrite E.
Qed.

Lemma gradient_roundtrip_witness :
  style_lookup (darken Demo.host Gradients.striped 2) 2 "background-image"
  = Some "linear-gradient(#4d4d4d, #b2b2b2)"
  /\ style_lookup (undarken (darken Demo.host Gradients.striped 2) 2) 2 "background-image"
     = Some "linear-gradient(#ffffff, #000000)".
Proof.
  pose proof (gradient_roundtrip Demo.host Gradients.striped 2 (demo_local_image 2)
                eq_refl eq_refl eq_refl eq_refl) as Hg.
  cbv zeta in Hg.
  assert (is_gradient
            (cs_backgroundImage
               (getComputedStyle Demo.host (inline Gradients.striped) 2)) = true) as E
    by (vm_compute; reflexivity).
  rewrite E in Hg. destruct Hg as (_ & Hs & Hr & _).
  split; [rewrite Hs; vm_compute; reflexivity|].
  rewrite Hr. vm_compute. reflexivity.
Defined.

(** ** The whole round trip *)

Section Roundtrip_facts.

Context (H : Host).

Implicit Types (w : World) (el e x : nat).

(** What [#darken] leaves in the snapshot slots of an element themed for
    the first time. *)
Lemma darken_snapshots w el :
  filtered H w el = false -> marked w el = false ->
  dataset_get w el "originalColor" = None ->
  dataset_get w el "originalBgColor" = None ->
  marked (darken H w el) el = true
  /\ snapshot (darken H w el) el "originalColor" = inline_value w el "color"
  /\ snapshot (darken H w el) el "originalBgColor" = inline_value w el "background-color".
Proof.
  intros Hf Hm Hc Hb.
  destruct (darken_fresh H w el Hf Hm) as (d & w1 & _ & Hi & _ & ->).
  set (a := c_alpha H _). set (c := colored _).
  assert (forall p, style_get w1 el p = style_get w el p) as Hsg
    by (intros p; unfold style_get, inline_of; now rewrite Hi).
  assert (forall k, dataset_get w1 el k = dataset_get w el k) as Hdg
    by (intros k; unfold dataset_get, inline_of; now rewrite Hi).
  destruct (darken_apply_colors H el a c d w1) as (Dc & Db & _ & _).
  rewrite !Hsg, !Hdg, ?Hc, ?Hb in Dc, Db.
  split; [apply darken_apply_marked|]. split.
  - unfold snapshot, inline_value. rewrite Dc.
    destruct (JS.truthy (style_get w el "color")) eqn:E;
      cbv [JS.truthy_opt]; rewrite ?E, ?Hc; reflexivity.
  - unfold snapshot, inline_value. rewrite Db.
    destruct (JS.truthy (style_get w el "background-color")) eqn:E;
      cbv [JS.truthy_opt]; rewrite ?E, ?Hb; reflexivity.
Qed.

Lemma unpass_frame (els : list nat) e :
  ~ In e els ->
  forall w, inline (fold_left undarken els w) !! e = inline w !! e.
Proof.
  induction els as [|x els IH]; intros Hn w; simpl; [reflexivity|].
  rewrite IH by (intros Hin; apply Hn; now right).
  destruct (undarken_only_el w x) as [_ F]. apply F.
  intros ->. apply Hn. now left.
Qed.

Lemma unpass_unmarked_frame (els : list nat) e :
  forall w,
    marked w e = false ->
    inline (fold_left undarken els w) !! e = inline w !! e.
Proof.
  induction els as [|x els IH]; intros w Hm; simpl; [reflexivity|].
  rewrite IH by now apply undarken_unmarked_mono.
  destruct (decide (e = x)) as [-> |Hne].
  - now rewrite undarken_unmarked.
  - destruct (undarken_only_el w x) as [_ F]. now apply F.
Qed.

(** The restoring pass treats a member once, in a world that holds the
    member's inline state as the pass found it. *)
Lemma unpass_at (els : list nat) e :
  forall w,
    In e els ->
    exists wX,
      inline wX !! e = inline w !! e
      /\ inline (fold_left undarken els w) !! e = inline (undarken wX e) !! e.
Proof.
  induction els as [|x els IH]; intros w Hin; simpl; [destruct Hin|].
  destruct (decide (x = e)) as [-> |Hne].
  - exists w. split; [reflexivity|].
    apply unpass_unmarked_frame, undarken_unmarks.
  - destruct Hin as [Hx|Hin]; [contradiction|].
    destruct (IH (undarken w x) Hin) as (wX & Hi & Hr).
    exists wX. split; [|exact Hr].
    rewrite Hi. destruct (undarken_only_el w x) as [_ F]. apply F. congruence.
Qed.

(** The theming pass treats a member once, in a world that holds the
    member's inline state as the pass found it. *)
Lemma pass_at (els : list nat) e :
  NoDup els ->
  forall w,
    In e els ->
    exists wA,
      inline wA !! e = inline w !! e
      /\ config wA = config w
      /\ inline (fold_left (darken H) els w) !! e = inline (darken H wA e) !! e.
Proof.
  induction els as [|x els IH]; intros Hnd w Hin; simpl; [destruct Hin|].
  apply NoDup_cons in Hnd. destruct Hnd as [Hx Hnd].
  destruct (decide (x = e)) as [-> |Hne].
  - exists w. split; [reflexivity|]. split; [reflexivity|].
    apply pass_frame. intros Hin'. apply Hx. now apply list_elem_of_In.
  - destruct Hin as [Hxe|Hin]; [contradiction|].
    destruct (IH Hnd (darken H w x) Hin) as (wA & Hi & Hc & Hr).
    exists wA. split; [|split; [|exact Hr]].
    + rewrite Hi. destruct (darken_only_el H w x) as [_ F]. apply F. congruence.
    + rewrite Hc. apply (only_el_config x), darken_only_el.
Qed.

(** A theming pass over [els] followed by a restoring pass over the same
    members gives back the declared text and background colours. *)
Lemma pass_unpass (els els' : list nat) (wa wb : World) e :
  stable_matching H ->
  NoDup els ->
  (forall x, In x els' <-> In x els) ->
  marked wa e = false ->
  dataset_get wa e "originalColor" = None ->
  dataset_get wa e "originalBgColor" = None ->
  inline wb !! e = inline (fold_left (darken H) els wa) !! e ->
  let wf := fold_left undarken els' wb in
  style_get wf e "color" = style_get wa e "color"
  /\ style_get wf e "background-color" = style_get wa e "background-color"
  /\ marked wf e = false.
Proof.
  intros Hst Hnd Hsame Hm Hc Hb Hwb wf.
  assert (forall w w' : World,
             inline w' !! e = inline w !! e -> inline_of w' e = inline_of w e) as Hext
    by (intros w w' E; unfold inline_of; now rewrite E).
  assert (inline wf !! e = inline wa !! e ->
          style_get wf e "color" = style_get wa e "color"
          /\ style_get wf e "background-color" = style_get wa e "background-color"
          /\ marked wf e = false) as Hsame_inline.
  { intros E. apply Hext in E. unfold style_get, marked, dataset_get in *.
    rewrite E. auto. }
  destruct (in_dec Nat.eq_dec e els) as [Hin|Hnin].
  - destruct (pass_at els e Hnd wa Hin) as (wA & HiA & HcA & HrA).
    rewrite HrA in Hwb.
    assert (filtered H wA e = filtered H wa e) as Hf by now apply filtered_stable.
    pose proof (Hext _ _ HiA) as EA.
    destruct (filtered H wA e) eqn:HfA.
    + rewrite darken_filtered in Hwb by exact HfA.
      apply Hsame_inline. unfold wf.
      rewrite unpass_unmarked_frame; [congruence|].
      unfold marked, dataset_get in *. rewrite (Hext wa wb) by congruence. exact Hm.
    + destruct (darken_snapshots wA e HfA) as (Mk & Sc & Sb).
      * unfold marked, dataset_get in *. now rewrite EA.
      * unfold dataset_get in *. now rewrite EA.
      * unfold dataset_get in *. now rewrite EA.
      * destruct (unpass_at els' e wb (proj2 (Hsame e) Hin)) as (wX & HiX & HrX).
        fold wf in HrX.
        assert (inline_of wX e = inline_of (darken H wA e) e) as EX
          by (apply Hext; congruence).
        assert (marked wX e = true) as MX
          by (unfold marked, dataset_get in *; now rewrite EX).
        destruct (undarken_style wX e MX) as (Uc & Ub & _).
        assert (forall k, snapshot wX e k = snapshot (darken H wA e) e k) as HS
          by (intros k; unfold snapshot, dataset_get; now rewrite EX).
        rewrite HS in Uc, Ub. rewrite Sc in Uc. rewrite Sb in Ub.
        assert (forall p, inline_value wA e p = inline_value wa e p) as HV
          by (intros p; unfold inline_value, style_get; now rewrite EA).
        rewrite HV in Uc, Ub.
        pose proof (Hext _ _ HrX) as EF.
        assert (forall p, style_lookup wf e p = style_lookup (undarken wX e) e p) as HL
          by (intros p; unfold style_lookup; now rewrite EF).
        split; [|split].
        -- rewrite style_get_lookup, HL, Uc. unfold inline_value.
           destruct (JS.truthy (style_get wa e "color")) eqn:E; [reflexivity|].
           unfold JS.truthy in E. simpl.
           destruct (bool_decide (style_get wa e "color" = "")) eqn:E'; [|discriminate].
           apply bool_decide_eq_true_1 in E'. now rewrite E'.
        -- rewrite style_get_lookup, HL, Ub. unfold inline_value.
           destruct (JS.truthy (style_get wa e "background-color")) eqn:E; [reflexivity|].
           unfold JS.truthy in E. simpl.
           destruct (bool_decide (style_get wa e "background-color" = "")) eqn:E';
             [|discriminate].
           apply bool_decide_eq_true_1 in E'. now rewrite E'.
        -- unfold marked, dataset_get. rewrite EF.
           apply (undarken_unmarks wX e).
  - apply Hsame_inline. unfold wf.
    rewrite unpass_frame by (rewrite Hsame; exact Hnin).
    rewrite Hwb. now apply pass_frame.
Qed.

(** The restoring pass of [disable()]. *)
Lemma disable_passes w :
  exists (els' : list nat) (wb : World),
    inline wb = inline w
    /\ (forall x, In x els'
                  <-> In x (elements w) \/ In (VisitElement x) (walk_visits H (pageRoot w)))
    /\ inline (disable H w) = inline (fold_left undarken els' wb).
Proof.
  destruct (walk_frame H (pageRoot w) (set_isEnabled false w)) as (Wi & We & _).
  exists (elements (walk H (pageRoot w) (set_isEnabled false w))),
         (set_backgroundColor ""
            (set_sheet "" (walk H (pageRoot w) (set_isEnabled false w)))).
  split; [exact Wi|]. split.
  - intros x. rewrite We. apply fold_elements_In.
  - rewrite disable_shape. reflexivity.
Qed.

(** The theming pass of [#update]. *)
Lemma update_passes root w :
  exists wa : World,
    inline wa = inline w
    /\ elements (update H root w) = fold_left visit_elements (walk_visits H root) []
    /\ inline (update H root w)
       = inline (fold_left (darken H) (elements (update H root w)) wa).
Proof.
  exists (indexed H root w).
  split; [reflexivity|]. split; [rewrite update_shape; reflexivity|].
  rewrite update_shape. reflexivity.
Qed.

(** The two passes of [enable()] followed by [disable()]. *)
Lemma enable_disable_passes w :
  exists (els els' : list nat) (wa wb : World),
    NoDup els
    /\ (forall x, In x els' <-> In x els)
    /\ inline wa = inline w
    /\ inline wb = inline (fold_left (darken H) els wa)
    /\ inline (disable H (enable H w)) = inline (fold_left undarken els' wb).
Proof.
  destruct (disable_passes (enable H w)) as (els' & wb & Hb & Hels' & Hd).
  revert Hb Hels' Hd. generalize (disable H (enable H w)). intros wd.
  unfold enable. cbv zeta.
  match goal with
  | |- context [update H ?r ?x] => set (r0 := r); set (w0 := x)
  end.
  assert (r0 = pageRoot w) as Er by reflexivity.
  assert (inline w0 = inline w) as E0 by reflexivity.
  destruct (update_frame H r0 w0) as (_ & _ & _ & Ep & _).
  assert (pageRoot w0 = pageRoot w) as Ep0 by reflexivity.
  destruct (update_passes r0 w0) as (wa & Ha & Hel & Hin).
  generalize dependent (update H r0 w0). intros w1 Ep Hel Hin Hb Hels' Hd.
  exists (elements w1), els', wa, wb.
  split; [|split; [|split; [|split]]].
  - rewrite Hel. apply fold_elements_NoDup, NoDup_nil_2.
  - intros x. rewrite Hels', Ep, Ep0, <- Er, Hel, fold_elements_In. tauto.
  - congruence.
  - congruence.
  - exact Hd.
Qed.

End Roundtrip_facts.

(** X24.  Turning the theme on and off again gives every element its
    declared text and background colours back.  With selector matching that
    does not depend on inline state, for every element that was not marked
    and held no stale snapshot: after [enable()] followed by [disable()]
    the inline [color] and [background-color] read as before, and the
    element is not marked. *)
Theorem enable_disable_roundtrip (H : Host) (w : World) (e : nat) :
  stable_matching H ->
  marked w e = false ->
  dataset_get w e "originalColor" = None ->
  dataset_get w e "originalBgColor" = None ->
  let w' := disable H (enable H w) in
  style_get w' e "color" = style_get w e "color"
  /\ style_get w' e "background-color" = style_get w e "background-color"
  /\ marked w' e = false.
Proof.
  intros Hst Hm Hc Hb w'.
  destruct (enable_disable_passes H w) as (els & els' & wa & wb & Hnd & Hsame & Ha & Hb' & Hd).
  assert (forall x y : World, inline x = inline y -> inline_of x e = inline_of y e) as Hext
    by (intros x y E; unfold inline_of; now rewrite E).
  pose proof (Hext _ _ Ha) as Ea.
  pose proof (Hext _ _ Hd) as Ed.
  destruct (pass_unpass H els els' wa wb e Hst Hnd Hsame) as (Rc & Rb & Rm).
  - unfold marked, dataset_get in *. now rewrite Ea.
  - unfold dataset_get in *. now rewrite Ea.
  - unfold dataset_get in *. now rewrite Ea.
  - now rewrite Hb'.
  - unfold w', style_get, marked, dataset_get in *. rewrite Ed, <- Ea. auto.
Qed.

Lemma enable_disable_roundtrip_witness :
  style_get (enable Demo.host Cases.bordered) 2 "color" <> "#000000"
  /\ style_get (disable Demo.host (enable Demo.host Cases.bordered)) 2 "color" = "#000000"
  /\ style_get (disable Demo.host (enable Demo.host Cases.bordered)) 2 "background-color"
     = "#ffffff".
Proof.
  split; [vm_compute; discriminate|].
  destruct (enable_disable_roundtrip Demo.host Cases.bordered 2 Examples.demo_stable
              eq_refl eq_refl eq_refl) as (Hc & Hb & _).
  split; [exact Hc|exact Hb].
Defined.

(** ** The generated sheet *)

(** A replacement text without [$], which [replace] inserts as it is. *)
Definition plain (s : string) : bool :=
forallb (fun c => negb (Ascii.eqb c "$")) (String.list_ascii_of_string s).

(** Where the universal selector stands in the default rules. *)
Definition universal_offset : nat := Eval vm_compute in
  match String.index 0 "*" defaultCssRules with
  | Some n => n
  | None => 0
  end.

Definition css_head : string := String.substring 0 universal_offset defaultCssRules.

Definition css_tail : string := JSReplace.drop (S universal_offset) defaultCssRules.

Section Sheet_facts.

Lemma expand_plain (matched before after replacement : string) :
  plain replacement = true ->
  JSReplace.expand matched before after replacement = replacement.
Proof.
  unfold plain. induction replacement as [|c r IH]; simpl; [reflexivity|].
  intros Hp. apply andb_prop in Hp. destruct Hp as [Hc Hr].
  destruct (Ascii.eqb c "$"); [discriminate|].
  now rewrite IH.
Qed.

Lemma default_rules_replace (replacement : string) :
  JSReplace.replace defaultCssRules "*" replacement
  = (css_head ++ JSReplace.expand "*" css_head css_tail replacement ++ css_tail)%string.
Proof. vm_compute. reflexivity. Qed.

End Sheet_facts.

(** X25.  The default sheet is scoped by the Filter Policy.  Without a
    supplied sheet, the generated rules are the default rules with their
    first [*] replaced by the compound selector, which chains one
    [:not(...)] per filter entry that does not start with a colon; the
    replacement is literal when the selector holds no [$].  When every
    entry starts with a colon (or the list is empty) the universal rule is
    left with no selector at all. *)
Theorem construct_default_sheet (doc : Document) (serialize : CSSRule -> string)
        (toLowerCase : string -> string) (options : LightsOutOptions) (w : World) :
  construct doc serialize toLowerCase options = inr w ->
  opt_cssStyleSheet options = None ->
  let selector := make_selector (htmlFilterSet (config w)) in
  plain selector = true ->
  defaultCssRules = (css_head ++ "*" ++ css_tail)%string
  /\ JS.test "*" css_head = false
  /\ cssRules (config w) = (css_head ++ selector ++ css_tail)%string
  /\ (Forall (fun tag => JS.startsWith tag ":" = true) (htmlFilterSet (config w)) ->
      cssRules (config w) = (css_head ++ css_tail)%string).
Proof.
  unfold construct. destruct (negb (doc_window doc)); [discriminate|].
  intros E Hs. injection E as <-. cbv [config htmlFilterSet cssRules]. cbv zeta.
  rewrite Hs. unfold make_cssRules. rewrite default_rules_replace.
  generalize (make_htmlFilterSet toLowerCase (opt_filterSelectors options)).
  intros set Hp.
  rewrite expand_plain by exact Hp.
  split; [vm_compute; reflexivity|]. split; [vm_compute; reflexivity|].
  split; [reflexivity|].
  intros Hall. clear Hp.
  assert (make_selector set = "") as ->; [|reflexivity].
  unfold make_selector.
  induction Hall as [|tag l Ht _ IH]; [reflexivity|].
  cbn [List.filter]. rewrite Ht. exact IH.
Qed.

Lemma construct_default_sheet_witness :
  make_selector (htmlFilterSet (config Built.engine0)) = ":not(img):not(svg)"
  /\ cssRules (config Built.engine0)
     = (css_head ++ ":not(img):not(svg)" ++ css_tail)%string.
Proof.
  split; [reflexivity|].
  destruct (construct_default_sheet Built.document0 (fun _ => EmptyString)
              JS.toLowerCase Built.options0 Built.engine0 eq_refl eq_refl eq_refl)
    as (_ & _ & Hc & _).
  exact Hc.
Defined.
